(** * validate_raw.py: pre-flight validation of the raw/ directory

    A shallow embedding of [validate_raw.py] (file-name parsing, structural
    validation of a parsed JSON document, content-hash and slot grouping,
    orphan reconciliation, exit code of the command line entry point) and
    the properties of it that the specification states.

    Conventions of the embedding.
    - A Python [str] is a [string]: one [ascii] per code point, so the
      strings covered are those whose code points lie below 256.  On that
      range [\d] is exactly [0-9], and [str.lower] and the case-insensitive
      comparison of the [re] module are the Latin-1 ones written out below.
    - The text of a message is kept as the f-string template that built it
      (one constructor per template) together with the interpolated values;
      values the code computes as strings (slot keys, joined name lists)
      are computed as strings.
    - Counters are Python integers: [Z].
    - The file system is an association list from names to nodes; the
      calls that touch it are logged in a trace, in program order.  A
      directory path carries the names that the operating system refuses
      to remove from it ([locked]): [unlink] on one of them raises, as it
      does on a name that is no regular file.
    - A call returns a value or raises; an exception that leaves
      [validate_raw] carries the state the run had reached (the messages,
      the counters, the output directory, the trace), since what the run
      did to the file system before it stays done. *)

From Stdlib Require Import String Ascii List ZArith NArith Lia Bool.
From Stdlib Require Import Strings.Byte.
From Stdlib Require Import Permutation.
Import ListNotations.

Local Open Scope string_scope.
Local Open Scope list_scope.

(* ================================================================== *)
(** * Python strings *)
(* ================================================================== *)

Module PyStr.

(** Code point of a character. *)
Definition ord (c : ascii) : N := N_of_ascii c.

(** [\d] of the [re] module on a [str] pattern: a decimal digit.  Below
    code point 256 these are [0] to [9]; the Unicode decimal digits beyond
    (which [\d] matches as well) are no characters of a [string]. *)
Definition is_digit (c : ascii) : bool :=
  ((48 <=? ord c) && (ord c <=? 57))%N.

(** [str.lower] on one character: [A-Z] and the Latin-1 capitals
    (U+00C0 to U+00DE without the multiplication sign U+00D7) move up by 32. *)
Definition lower_char (c : ascii) : ascii :=
  let n := ord c in
  if (((65 <=? n) && (n <=? 90))
      || ((192 <=? n) && (n <=? 222) && negb (n =? 215)))%N
  then ascii_of_N (n + 32)
  else c.

(** [s.lower()] *)
Fixpoint lower (s : string) : string :=
  match s with
  | EmptyString => EmptyString
  | String c s' => String (lower_char c) (lower s')
  end.

(** Every character of [s] satisfies [p]. *)
Fixpoint all_chars (p : ascii -> bool) (s : string) : bool :=
  match s with
  | EmptyString => true
  | String c s' => p c && all_chars p s'
  end.

(** [s.endswith(suf)] *)
Definition endswith (s suf : string) : bool :=
  let n := String.length s in
  let m := String.length suf in
  (m <=? n)%nat && (substring (n - m) m s =? suf).

(** The line feed, which [$] tolerates at the end of the subject. *)
Definition LF : string := String (ascii_of_N 10) EmptyString.

(** [sep.join(l)] *)
Definition join (sep : string) (l : list string) : string :=
  String.concat sep l.

End PyStr.

(* ================================================================== *)
(** * The file-name parser *)
(* ================================================================== *)

(** The dictionary [parse_filename] returns: four fixed keys. *)
Record parts : Type := mkParts
  { device : string; direction : string; x : string; y : string }.

Module Re.

(** The pieces of [FILENAME_RE], each a function from the subject at the
    current position to the text it matched and the rest of the subject.

    [digits1] is a greedy [\d+].  It never has to give a digit back: in
    [FILENAME_RE] every [\d+] is followed by [_] or by [.], which no digit
    matches.  [FILENAME_RE_accepted] below proves the matcher equal to
    the declarative reading of the pattern, over all ways of splitting
    the subject. *)

Fixpoint span_digits (s : string) : string * string :=
  match s with
  | String c s' =>
      if PyStr.is_digit c
      then let (d, r) := span_digits s' in (String c d, r)
      else (EmptyString, s)
  | EmptyString => (EmptyString, EmptyString)
  end.

Definition digits1 (s : string) : option (string * string) :=
  match span_digits s with
  | (EmptyString, _) => None
  | (d, r) => Some (d, r)
  end.

(** A literal under [re.IGNORECASE]: a subject character matches the
    (lower-case or uncased) pattern character when its lower-case form
    equals it.  That is the rule below code point 256; beyond, U+0130 and
    U+0131 also match [i], U+017F matches [s] and U+212A matches [k], and
    these are no characters of a [string]. *)
Fixpoint literal (lit s : string) : option (string * string) :=
  match lit with
  | EmptyString => Some (EmptyString, s)
  | String p lit' =>
      match s with
      | String c s' =>
          if (PyStr.lower_char c =? p)%char
          then match literal lit' s' with
               | Some (m, r) => Some (String c m, r)
               | None => None
               end
          else None
      | EmptyString => None
      end
  end.

(** [a|b]: the first alternative that matches. *)
Definition alt (a b : string -> option (string * string)) (s : string)
  : option (string * string) :=
  match a s with
  | Some r => Some r
  | None => b s
  end.

(** [$] without [re.MULTILINE]: the end of the subject, or just before a
    line feed that ends the subject. *)
Definition at_end (s : string) : bool :=
  (s =? EmptyString) || (s =? PyStr.LF).

End Re.

Notation "'do' p <- e ; k" :=
  (match e with Some p => k | None => None end)
  (at level 10, p pattern, e at level 100, k at level 200,
   only parsing).

(** [FILENAME_RE.match(name)]: the four named groups of
    [^(?P<device>\d+)_(?P<direction>incoming|outgoing)_(?P<x>\d+)_(?P<y>\d+)\.json$]
    compiled with [re.IGNORECASE]. *)
Definition FILENAME_RE (name : string)
  : option (string * string * string * string) :=
  do (dev, r1) <- Re.digits1 name;
  do (_, r2) <- Re.literal "_" r1;
  do (dir, r3) <- Re.alt (Re.literal "incoming") (Re.literal "outgoing") r2;
  do (_, r4) <- Re.literal "_" r3;
  do (gx, r5) <- Re.digits1 r4;
  do (_, r6) <- Re.literal "_" r5;
  do (gy, r7) <- Re.digits1 r6;
  do (_, r8) <- Re.literal ".json" r7;
  if Re.at_end r8 then Some (dev, dir, gx, gy) else None.

Definition parse_filename (name : string) : option parts :=
  match FILENAME_RE name with
  | None => None
  | Some (dev, dir, gx, gy) =>
      Some {| device := dev; direction := PyStr.lower dir; x := gx; y := gy |}
  end.


(* ================================================================== *)
(** * Parsed JSON documents and report messages *)
(* ================================================================== *)

(** What [json.load] builds.  A float is kept as its IEEE-754 binary64
    bit pattern; nothing here computes with it.  A [dict] keeps its
    items in insertion order, with distinct keys. *)
#[local] Set Warnings "-register-all".
Inductive pyval : Type :=
| PyNone
| PyBool (b : bool)
| PyInt (z : Z)
| PyFloat (bits : Z)
| PyStr (s : string)
| PyList (l : list pyval)
| PyDict (items : list (string * pyval)).

(** The exceptions that the [except] clause of the reading loop names:
    [json.JSONDecodeError] with its text, and the [OSError]s that [open]
    raises on the nodes modelled here. *)
Inductive caught : Type :=
| JSONDecodeError (msg : string)
| IsADirectoryError
| FileNotFoundError.

(** One constructor per f-string of [validate_raw.py] that ends up in
    [errors] or [warnings]; the arguments are the interpolated values. *)
Inductive message : Type :=
(* validate_structure *)
| NotJsonObject (name : string)
    (* "{path.name}: top-level value is not a JSON object" *)
| MissingKey (name key : string)
    (* "{path.name}: missing required key '{key}'" *)
| NotAnArray (name key : string)
    (* "{path.name}: '{key}' is not an array" *)
| SchemaMismatch (name : string) (nf : list pyval)
    (* "{path.name}: nodeFormat fields do not match expected schema (got {nf})" *)
| NodeNotArray (name : string) (i : nat)
    (* "{path.name}: node[{i}] is not an array" *)
| NodeWrongLength (name : string) (i len expected_len : nat)
    (* "{path.name}: node[{i}] has {len(node)} elements, expected {expected_len}" *)
(* validate_raw *)
| NoFilesFound (raw_dir : string)
    (* "No *.json files found in {raw_dir}" *)
| BadPattern (name : string)
    (* "{fp.name}: filename does not match expected pattern ..." *)
| CannotReadParse (name : string) (exc : caught)
    (* "{fp.name}: cannot read/parse - {exc}" *)
| ContentHashDuplicate (names : string)
    (* "Content-hash duplicate: the following files are identical: {names}" *)
| SlotCollision (key names : string)
    (* "Slot collision for [{key}]: {names}" *)
| OrphanIn (dir_name name : string).
    (* "Orphan in {output_dir.name}/: {out_fp.name}" *)

(* ================================================================== *)
(** * The structural validator *)
(* ================================================================== *)

Definition EXPECTED_FIELDS : list string :=
  ["id"; "parentid"; "trips"; "frc"; "geometry";
   "processingfailures"; "privacytrims"].

(** [doc[key]], and [key in doc] as [dict_get key doc <> None]. *)
Fixpoint dict_get (key : string) (items : list (string * pyval))
  : option pyval :=
  match items with
  | [] => None
  | (k, v) :: rest => if k =? key then Some v else dict_get key rest
  end.

(** [f.lower() if isinstance(f, str) else f] *)
Definition lower_field (f : pyval) : pyval :=
  match f with
  | PyStr s => PyStr (PyStr.lower s)
  | _ => f
  end.

(** [l == e] for a list [l] of values and a list [e] of [str]: equal
    lengths and equal elements, and only a [str] equals a [str]. *)
Fixpoint eq_str_list (l : list pyval) (e : list string) : bool :=
  match l, e with
  | [], [] => true
  | PyStr s :: l', t :: e' => (s =? t) && eq_str_list l' e'
  | _, _ => false
  end.

(** The loop [for i, node in enumerate(doc["nodes"])], from index [i]. *)
Fixpoint check_nodes (name : string) (expected_len i : nat)
    (nodes : list pyval) : option message :=
  match nodes with
  | [] => None
  | PyList row :: rest =>
      if (List.length row =? expected_len)%nat
      then check_nodes name expected_len (S i) rest
      else Some (NodeWrongLength name i (List.length row) expected_len)
  | _ :: _ => Some (NodeNotArray name i)
  end.

(** [validate_structure(doc, path)], with [name] for [path.name]. *)
Definition validate_structure (doc : pyval) (name : string)
  : option message :=
  match doc with
  | PyDict items =>
      match dict_get "nodeFormat" items with
      | None => Some (MissingKey name "nodeFormat")
      | Some nf =>
          match dict_get "nodes" items with
          | None => Some (MissingKey name "nodes")
          | Some nodes =>
              match nf with
              | PyList nfl =>
                  match nodes with
                  | PyList rows =>
                      let lower := map lower_field nfl in
                      if negb (eq_str_list lower EXPECTED_FIELDS)
                      then Some (SchemaMismatch name nfl)
                      else check_nodes name (List.length nfl) 0 rows
                  | _ => Some (NotAnArray name "nodes")
                  end
              | _ => Some (NotAnArray name "nodeFormat")
              end
          end
      end
  | _ => Some (NotJsonObject name)
  end.

(* ================================================================== *)
(** * The file system, the report and the trace *)
(* ================================================================== *)

(** An entry of a directory: a regular file with its bytes, or a
    sub-directory ([open] and [unlink] raise [OSError] on it). *)
Inductive fs_node : Type :=
| File (data : list byte)
| Dir.

(** The entries of one directory, by name, in the order the operating
    system lists them. *)
Definition directory : Type := list (string * fs_node).

Fixpoint lookup (name : string) (d : directory) : option fs_node :=
  match d with
  | [] => None
  | (n, node) :: rest => if n =? name then Some node else lookup name rest
  end.

(** What [out_fp.unlink()] leaves of the directory. *)
Fixpoint remove_entry (name : string) (d : directory) : directory :=
  match d with
  | [] => []
  | (n, node) :: rest =>
      if n =? name then remove_entry name rest
      else (n, node) :: remove_entry name rest
  end.

(** A [Path] to a directory: its [str()], its [.name], what the file
    system holds there ([None] when [is_dir()] is false), and the names
    there that the operating system refuses to remove, as it does for the
    files of a directory that is not writable ([unlink] raises
    [PermissionError]). *)
Record dirpath : Type := mkDirpath
  { path_str : string; path_name : string; on_disk : option directory;
    locked : list string }.

(** [d.glob("*.json")]: the entries whose name ends in [.json]. *)
Definition glob_json (d : directory) : list string :=
  filter (fun n => PyStr.endswith n ".json") (map fst d).

(** [sorted]: paths of one directory compare as their names do, by code
    point. *)
Fixpoint insert_sorted (n : string) (l : list string) : list string :=
  match l with
  | [] => [n]
  | m :: l' => if (n <=? m)%string then n :: l else m :: insert_sorted n l'
  end.

Definition sorted (l : list string) : list string :=
  fold_right insert_sorted [] l.

(** The [stats] dictionary: nine fixed keys. *)
Record counters : Type := mkCounters
  { total_files : Z; valid_files : Z; bad_pattern : Z; bad_json : Z;
    bad_structure : Z; hash_dupes : Z; slot_collisions : Z;
    orphans : Z; orphans_deleted : Z }.

Definition zero_counters : counters :=
  mkCounters 0 0 0 0 0 0 0 0 0.

Definition set_total_files (n : Z) (c : counters) : counters :=
  mkCounters n (valid_files c) (bad_pattern c) (bad_json c)
    (bad_structure c) (hash_dupes c) (slot_collisions c) (orphans c)
    (orphans_deleted c).
Definition set_valid_files (n : Z) (c : counters) : counters :=
  mkCounters (total_files c) n (bad_pattern c) (bad_json c)
    (bad_structure c) (hash_dupes c) (slot_collisions c) (orphans c)
    (orphans_deleted c).
Definition add_bad_pattern (n : Z) (c : counters) : counters :=
  mkCounters (total_files c) (valid_files c) (bad_pattern c + n) (bad_json c)
    (bad_structure c) (hash_dupes c) (slot_collisions c) (orphans c)
    (orphans_deleted c).
Definition add_bad_json (n : Z) (c : counters) : counters :=
  mkCounters (total_files c) (valid_files c) (bad_pattern c) (bad_json c + n)
    (bad_structure c) (hash_dupes c) (slot_collisions c) (orphans c)
    (orphans_deleted c).
Definition add_bad_structure (n : Z) (c : counters) : counters :=
  mkCounters (total_files c) (valid_files c) (bad_pattern c) (bad_json c)
    (bad_structure c + n) (hash_dupes c) (slot_collisions c) (orphans c)
    (orphans_deleted c).
Definition add_hash_dupes (n : Z) (c : counters) : counters :=
  mkCounters (total_files c) (valid_files c) (bad_pattern c) (bad_json c)
    (bad_structure c) (hash_dupes c + n) (slot_collisions c) (orphans c)
    (orphans_deleted c).
Definition add_slot_collisions (n : Z) (c : counters) : counters :=
  mkCounters (total_files c) (valid_files c) (bad_pattern c) (bad_json c)
    (bad_structure c) (hash_dupes c) (slot_collisions c + n) (orphans c)
    (orphans_deleted c).
Definition add_orphans (n : Z) (c : counters) : counters :=
  mkCounters (total_files c) (valid_files c) (bad_pattern c) (bad_json c)
    (bad_structure c) (hash_dupes c) (slot_collisions c) (orphans c + n)
    (orphans_deleted c).
Definition add_orphans_deleted (n : Z) (c : counters) : counters :=
  mkCounters (total_files c) (valid_files c) (bad_pattern c) (bad_json c)
    (bad_structure c) (hash_dupes c) (slot_collisions c) (orphans c)
    (orphans_deleted c + n).

(** The calls that touch the file system, and the appends to the two
    report lists. *)
Inductive place : Type := RawDir | OutputDir.
Inductive severity : Type := Error | Warning.

Inductive event : Type :=
| ListDir (p : place) (names : list string)
                                 (* sorted(p.glob("*.json")): the list built *)
| OpenRead (name : string)       (* open(fp) and json.load(f) *)
| HashRead (name : string)       (* file_hash(fp) *)
| Append (s : severity) (m : message)   (* errors.append / warnings.append *)
| Unlink (name : string).        (* out_fp.unlink() *)

(** An exception that leaves [validate_raw]. *)
Inductive exn : Type :=
| LoadRaised (name : string)     (* json.load raised something not caught *)
| HashOSError (name : string)
| UnlinkOSError (name : string).

(** What a call does: it returns a value, or it raises an exception and
    leaves behind the state [s] that it had reached, with what it had
    done to the file system up to there. *)
Inductive result (S A : Type) : Type :=
| Ok (a : A)
| Raise (e : exn) (s : S).
Arguments Ok {S A} a.
Arguments Raise {S A} e s.

(** The state of one run: the two lists and the dictionary that
    [validate_raw] returns, the output directory on disk, the trace. *)
Record run : Type := mkRun
  { errors : list message; warnings : list message; stats : counters;
    out_disk : option directory; trace : list event }.

Definition log (e : event) (st : run) : run :=
  mkRun (errors st) (warnings st) (stats st) (out_disk st) (trace st ++ [e]).

Definition add_error (m : message) (st : run) : run :=
  mkRun (errors st ++ [m]) (warnings st) (stats st) (out_disk st)
    (trace st ++ [Append Error m]).

Definition add_warning (m : message) (st : run) : run :=
  mkRun (errors st) (warnings st ++ [m]) (stats st) (out_disk st)
    (trace st ++ [Append Warning m]).

Definition upd_stats (f : counters -> counters) (st : run) : run :=
  mkRun (errors st) (warnings st) (f (stats st)) (out_disk st) (trace st).

Definition set_out_disk (d : option directory) (st : run) : run :=
  mkRun (errors st) (warnings st) (stats st) d (trace st).

(** Python dictionaries with [str] keys, in insertion order. *)
Module Dict.

(** [d[k] = v] *)
Fixpoint set {V : Type} (k : string) (v : V) (d : list (string * V))
  : list (string * V) :=
  match d with
  | [] => [(k, v)]
  | (k', v') :: d' =>
      if k' =? k then (k', v) :: d' else (k', v') :: set k v d'
  end.

(** [d.setdefault(k, []).append(v)] *)
Fixpoint setdefault_append {V : Type} (k : string) (v : V)
    (d : list (string * list V)) : list (string * list V) :=
  match d with
  | [] => [(k, [v])]
  | (k', vs) :: d' =>
      if k' =? k then (k', vs ++ [v]) :: d'
      else (k', vs) :: setdefault_append k v d'
  end.

End Dict.

(* ================================================================== *)
(** * validate_raw *)
(* ================================================================== *)

(** What [json.load] does with the bytes of a file opened as UTF-8 text:
    a document, a [JSONDecodeError], or another exception (a
    [UnicodeDecodeError] on bytes that are not UTF-8, say), which the
    [except] clause does not name. *)
Inductive json_result : Type :=
| Parsed (doc : pyval)
| DecodeError (msg : string)
| OtherError.

(** What the [try] block of the reading loop does with one file. *)
Inductive load_result : Type :=
| Loaded (doc : pyval)
| Fails (exc : caught)
| Escapes.

(** [f"{parts['device']}_{parts['direction']}_{parts['x']}_{parts['y']}"] *)
Definition slot_key (p : parts) : string :=
  device p ++ "_" ++ direction p ++ "_" ++ x p ++ "_" ++ y p.

Section Run.

(** The two library functions the run depends on: the JSON decoder, and
    the SHA-256 hex digest of a sequence of bytes (feeding the bytes to
    [h.update] in chunks of 8192 digests their concatenation). *)
Variable json_load : list byte -> json_result.
Variable sha256 : list byte -> string.

(** [with open(fp, encoding="utf-8") as f: doc = json.load(f)] *)
Definition open_load (raw : directory) (fp : string) : load_result :=
  match lookup fp raw with
  | Some (File data) =>
      match json_load data with
      | Parsed doc => Loaded doc
      | DecodeError msg => Fails (JSONDecodeError msg)
      | OtherError => Escapes
      end
  | Some Dir => Fails IsADirectoryError
  | None => Fails FileNotFoundError
  end.

Definition file_hash (raw : directory) (fp : string) : result unit string :=
  match lookup fp raw with
  | Some (File data) => Ok (sha256 data)
  | _ => Raise (HashOSError fp) tt
  end.

(** ** Pass 1: pattern check, JSON readability, structure *)

(** The state of the first loop: the run, [valid_files], [parsed_names]. *)
Definition pass1_state : Type :=
  (run * list string * list (string * parts))%type.

(** One iteration of [for fp in json_files]. *)
Definition check_file (raw : directory) (fp : string) (acc : pass1_state)
  : result run pass1_state :=
  let '(st, valid, parsed_names) := acc in
  let parts := parse_filename fp in
  let st :=
    match parts with
    | None => upd_stats (add_bad_pattern 1) (add_warning (BadPattern fp) st)
    | Some _ => st
    end in
  let st := log (OpenRead fp) st in
  match open_load raw fp with
  | Escapes => Raise (LoadRaised fp) st
  | Fails exc =>
      Ok (upd_stats (add_bad_json 1) (add_error (CannotReadParse fp exc) st),
          valid, parsed_names)
  | Loaded doc =>
      match validate_structure doc fp with
      | Some err =>
          Ok (upd_stats (add_bad_structure 1) (add_error err st),
              valid, parsed_names)
      | None =>
          Ok (st, valid ++ [fp],
              match parts with
              | Some p => Dict.set fp p parsed_names
              | None => parsed_names
              end)
      end
  end.

Fixpoint pass1 (raw : directory) (json_files : list string)
    (acc : pass1_state) : result run pass1_state :=
  match json_files with
  | [] => Ok acc
  | fp :: rest =>
      match check_file raw fp acc with
      | Ok acc' => pass1 raw rest acc'
      | Raise e s => Raise e s
      end
  end.

(** ** Pass 2: content-hash duplicates *)

(** [for fp in valid_files: hashes.setdefault(file_hash(fp), []).append(fp)] *)
Fixpoint hash_files (raw : directory) (valid : list string)
    (acc : run * list (string * list string))
  : result run (run * list (string * list string)) :=
  match valid with
  | [] => Ok acc
  | fp :: rest =>
      let (st, hashes) := acc in
      match file_hash raw fp with
      | Ok h =>
          hash_files raw rest
            (log (HashRead fp) st, Dict.setdefault_append h fp hashes)
      | Raise e _ => Raise e st
      end
  end.

(** The two reporting loops have one shape: for every group with more
    than one path, one error naming the paths, and [len(paths) - 1] more
    on a counter. *)
Fixpoint report_groups (mk : string -> string -> message)
    (add : Z -> counters -> counters)
    (groups : list (string * list string)) (st : run) : run :=
  match groups with
  | [] => st
  | (key, paths) :: rest =>
      let st :=
        if (1 <? List.length paths)%nat
        then upd_stats (add (Z.of_nat (List.length paths) - 1)%Z)
               (add_error (mk key (PyStr.join ", " paths)) st)
        else st in
      report_groups mk add rest st
  end.

(** [for h, paths in hashes.items()] *)
Definition report_hash_dupes :=
  report_groups (fun _ names => ContentHashDuplicate names) add_hash_dupes.

Definition content_hash_pass (raw : directory) (valid : list string)
    (st : run) : result run run :=
  match hash_files raw valid (st, []) with
  | Raise e s => Raise e s
  | Ok (st, hashes) => Ok (report_hash_dupes hashes st)
  end.

(** ** Pass 3: slot collisions *)

(** [for fp, parts in parsed_names.items():
       slots.setdefault(slot_key, []).append(fp)] *)
Definition group_slots (parsed_names : list (string * parts))
  : list (string * list string) :=
  fold_left
    (fun slots (item : string * parts) =>
       Dict.setdefault_append (slot_key (snd item)) (fst item) slots)
    parsed_names [].

(** [for key, paths in slots.items()] *)
Definition report_slot_collisions :=
  report_groups SlotCollision add_slot_collisions.

Definition slot_pass (parsed_names : list (string * parts)) (st : run)
  : run :=
  report_slot_collisions (group_slots parsed_names) st.

(** ** Pass 4: orphan detection in output_dir *)

(** [out_fp.unlink()]: the file is removed, unless the operating system
    refuses ([PermissionError]), or the entry is no file or is not there
    (other [OSError]s); then the exception leaves the run as it is. *)
Definition unlink (denied : list string) (out_fp : string) (st : run)
  : result run run :=
  match out_disk st with
  | Some d =>
      match lookup out_fp d with
      | Some (File _) =>
          if existsb (String.eqb out_fp) denied
          then Raise (UnlinkOSError out_fp) st
          else Ok (log (Unlink out_fp)
                     (set_out_disk (Some (remove_entry out_fp d)) st))
      | _ => Raise (UnlinkOSError out_fp) st
      end
  | None => Raise (UnlinkOSError out_fp) st
  end.

(** [out_fp.name not in raw_names] *)
Definition not_in (n : string) (raw_names : list string) : bool :=
  negb (existsb (String.eqb n) raw_names).

(** [for out_fp in sorted(output_dir.glob("*.json"))], over the list
    that [sorted] has already built. *)
Fixpoint orphan_loop (dir_name : string) (denied raw_names : list string)
    (delete_orphans : bool) (listing : list string) (st : run)
  : result run run :=
  match listing with
  | [] => Ok st
  | out_fp :: rest =>
      if not_in out_fp raw_names then
        let st :=
          upd_stats (add_orphans 1)
            (add_warning (OrphanIn dir_name out_fp) st) in
        if delete_orphans then
          match unlink denied out_fp st with
          | Ok st' =>
              orphan_loop dir_name denied raw_names delete_orphans rest
                (upd_stats (add_orphans_deleted 1) st')
          | Raise e s => Raise e s
          end
        else orphan_loop dir_name denied raw_names delete_orphans rest st
      else orphan_loop dir_name denied raw_names delete_orphans rest st
  end.

Definition orphan_pass (json_files : list string)
    (output_dir : option dirpath) (delete_orphans : bool) (st : run)
  : result run run :=
  match output_dir with
  | None => Ok st
  | Some od =>
      match on_disk od with
      | None => Ok st
      | Some d =>
          let raw_names := json_files in
          let listing := sorted (glob_json d) in
          orphan_loop (path_name od) (locked od) raw_names delete_orphans
            listing (log (ListDir OutputDir listing) st)
      end
  end.

(** ** The orchestrator *)

(** The files of [raw_dir.glob("*.json")]; a path that is no directory
    yields none. *)
Definition raw_entries (raw_dir : dirpath) : directory :=
  match on_disk raw_dir with
  | Some d => d
  | None => []
  end.

Definition initial_run (output_dir : option dirpath) : run :=
  mkRun [] [] zero_counters
    (match output_dir with Some od => on_disk od | None => None end) [].

Definition validate_raw (raw_dir : dirpath) (output_dir : option dirpath)
    (delete_orphans : bool) : result run run :=
  let raw := raw_entries raw_dir in
  let st := initial_run output_dir in
  let json_files := sorted (glob_json raw) in
  let st := log (ListDir RawDir json_files) st in
  let st := upd_stats (set_total_files (Z.of_nat (List.length json_files))) st in
  match json_files with
  | [] => Ok (add_warning (NoFilesFound (path_str raw_dir)) st)
  | _ :: _ =>
      match pass1 raw json_files (st, [], []) with
      | Raise e s => Raise e s
      | Ok (st, valid, parsed_names) =>
          let st :=
            upd_stats (set_valid_files (Z.of_nat (List.length valid))) st in
          match content_hash_pass raw valid st with
          | Raise e s => Raise e s
          | Ok st =>
              let st := slot_pass parsed_names st in
              orphan_pass json_files output_dir delete_orphans st
          end
      end
  end.

(** ** main *)

(** The parsed command line. *)
Record args : Type := mkArgs
  { raw_dir : dirpath; output_dir : option dirpath;
    strict : bool; delete_orphans : bool }.

(** The lines [main] prints, one constructor per [print]. *)
Inductive line : Type :=
| DirectoryNotFound (raw_dir : string)
| FilesScanned (n : Z)
| Valid (n : Z)
| BadPatternCount (n : Z)
| BadJsonCount (n : Z)
| BadStructureCount (n : Z)
| HashDupesCount (n : Z)
| SlotClashesCount (n : Z)
| OrphansCount (n : Z)
| DeletedCount (n : Z)
| ErrorsHeader (n : nat)
| ErrorLine (m : message)
| WarningsHeader (n : nat)
| WarningLine (m : message)
| AllChecksPassed.

(** What a call of [main] that returns leaves behind: the exit code, the
    two output streams, and the run of [validate_raw] if there was one. *)
Record process : Type := mkProcess
  { exit_code : Z; stdout : list line; stderr : list line;
    ran : option run }.

(** [if stats[key]: print(...)] *)
Definition print_if_nonzero (mk : Z -> line) (n : Z) : list line :=
  if (n =? 0)%Z then [] else [mk n].

Definition is_empty {A : Type} (l : list A) : bool :=
  match l with [] => true | _ => false end.

Definition print_report (r : run) : list line :=
  let s := stats r in
  [FilesScanned (total_files s); Valid (valid_files s)]
  ++ print_if_nonzero BadPatternCount (bad_pattern s)
  ++ print_if_nonzero BadJsonCount (bad_json s)
  ++ print_if_nonzero BadStructureCount (bad_structure s)
  ++ print_if_nonzero HashDupesCount (hash_dupes s)
  ++ print_if_nonzero SlotClashesCount (slot_collisions s)
  ++ print_if_nonzero OrphansCount (orphans s)
  ++ print_if_nonzero DeletedCount (orphans_deleted s)
  ++ (if is_empty (errors r) then []
      else ErrorsHeader (List.length (errors r)) :: map ErrorLine (errors r))
  ++ (if is_empty (warnings r) then []
      else WarningsHeader (List.length (warnings r))
           :: map WarningLine (warnings r))
  ++ (if is_empty (errors r) && is_empty (warnings r)
      then [AllChecksPassed] else []).

Definition main (a : args) : result run process :=
  match on_disk (raw_dir a) with
  | None =>
      Ok (mkProcess 1 [] [DirectoryNotFound (path_str (raw_dir a))] None)
  | Some _ =>
      match validate_raw (raw_dir a) (output_dir a) (delete_orphans a) with
      | Raise e s => Raise e s
      | Ok r =>
          let code :=
            if negb (is_empty (errors r)) then 1
            else if negb (is_empty (warnings r)) && strict a then 1
            else 0 in
          Ok (mkProcess code (print_report r) [] (Some r))
      end
  end%Z.

End Run.


(* ================================================================== *)
(** * The validators of the later stages *)
(* ================================================================== *)

(** [normalize_trips.py] *)
Module NormalizeTrips.

(** The messages of [validate_doc], which name the whole path. *)
Inductive message : Type :=
| NotJsonObject (path : string)
    (* "{path}: top-level value is not a JSON object" *)
| MissingKey (path key : string)
    (* "{path}: missing required key '{key}'" *)
| NotAnArray (path key : string)
    (* "{path}: '{key}' is not an array" *)
| SchemaMismatch (path : string) (node_format : list pyval)
    (* "{path}: 'nodeFormat' fields do not match expected schema.
        Got {node_format}, expected (case-insensitive) {expected}" *)
| NodeNotArray (path : string) (i : nat)
    (* "{path}: node[{i}] is not an array" *)
| NodeWrongLength (path : string) (i len expected_len : nat).
    (* "{path}: node[{i}] has {len(node)} elements, expected {expected_len}" *)

Definition expected : list string :=
  ["id"; "parentid"; "trips"; "frc"; "geometry";
   "processingfailures"; "privacytrims"].

(** The loop [for i, node in enumerate(doc["nodes"])], from index [i]. *)
Fixpoint check_nodes (path : string) (expected_len i : nat)
    (nodes : list pyval) : option message :=
  match nodes with
  | [] => None
  | PyList node :: rest =>
      if (List.length node =? expected_len)%nat
      then check_nodes path expected_len (S i) rest
      else Some (NodeWrongLength path i (List.length node) expected_len)
  | _ :: _ => Some (NodeNotArray path i)
  end.

(** [validate_doc(doc, path)] *)
Definition validate_doc (doc : pyval) (path : string) : option message :=
  match doc with
  | PyDict items =>
      match dict_get "nodeFormat" items with
      | None => Some (MissingKey path "nodeFormat")
      | Some node_format =>
          match dict_get "nodes" items with
          | None => Some (MissingKey path "nodes")
          | Some nodes =>
              match node_format with
              | PyList nfl =>
                  let lower_fields := map lower_field nfl in
                  if negb (eq_str_list lower_fields expected)
                  then Some (SchemaMismatch path nfl)
                  else
                    match nodes with
                    | PyList rows =>
                        check_nodes path (List.length nfl) 0 rows
                    | _ => Some (NotAnArray path "nodes")
                    end
              | _ => Some (NotAnArray path "nodeFormat")
              end
          end
      end
  | _ => Some (NotJsonObject path)
  end.

(** [trips_index = 2] of [process_doc]. *)
Definition trips_index : nat := 2.

End NormalizeTrips.

(** [json_to_shapefile.py] *)
Module JsonToShapefile.

(** A value of [FIELD_DEFS]: shapefile field name, type, size and
    decimals. *)
Record field_def : Type := mkFieldDef
  { fname : string; ftype : string; fsize : Z; fdec : Z }.

Definition FIELD_DEFS : list (string * field_def) :=
  [("id", mkFieldDef "id" "N" 10 0);
   ("parentid", mkFieldDef "parentId" "N" 10 0);
   ("trips", mkFieldDef "trips" "N" 10 0);
   ("frc", mkFieldDef "frc" "N" 5 0);
   ("processingfailures", mkFieldDef "procFail" "N" 10 0);
   ("privacytrims", mkFieldDef "privTrims" "N" 10 0);
   ("trips_pct", mkFieldDef "trips_pct" "N" 12 4)].

Inductive message : Type :=
| NotJsonObject (path : string)
    (* "{path}: top-level value is not a JSON object" *)
| MissingKey (path key : string)
    (* "{path}: missing required key '{key}'" *)
| MustBeArrays (path : string).
    (* "{path}: 'nodeFormat' and 'nodes' must be arrays" *)

Definition is_list (v : pyval) : bool :=
  match v with PyList _ => true | _ => false end.

(** [validate_doc(doc, path)] *)
Definition validate_doc (doc : pyval) (path : string) : option message :=
  match doc with
  | PyDict items =>
      match dict_get "nodeFormat" items with
      | None => Some (MissingKey path "nodeFormat")
      | Some node_format =>
          match dict_get "nodes" items with
          | None => Some (MissingKey path "nodes")
          | Some nodes =>
              if negb (is_list node_format) || negb (is_list nodes)
              then Some (MustBeArrays path)
              else None
          end
      end
  | _ => Some (NotJsonObject path)
  end.

(** [d.get(k)] and [k in d] for a dictionary with [str] keys. *)
Fixpoint get {V : Type} (k : string) (d : list (string * V)) : option V :=
  match d with
  | [] => None
  | (k', v) :: d' => if k' =? k then Some v else get k d'
  end.

(** The dictionary comprehension of [find_field_indices], from index [i]
    with the items [d] so far; [None] is the [AttributeError] of
    [name.lower()] on a field that is no [str]. *)
Fixpoint index_fields (i : nat) (node_format : list pyval)
    (d : list (string * nat)) : option (list (string * nat)) :=
  match node_format with
  | [] => Some d
  | PyStr name :: rest =>
      index_fields (S i) rest (Dict.set (PyStr.lower name) i d)
  | _ :: _ => None
  end.

(** [find_field_indices(node_format)] *)
Definition find_field_indices (node_format : list pyval)
  : option (list (string * nat)) :=
  index_fields 0 node_format [].

(** [_detect_attr_fields(field_map)] *)
Definition _detect_attr_fields (field_map : list (string * nat))
  : list (string * nat * field_def) :=
  flat_map
    (fun item : string * nat =>
       let (lname, idx) := item in
       if lname =? "geometry" then []
       else match get lname FIELD_DEFS with
            | Some fd => [(lname, idx, fd)]
            | None => []
            end)
    field_map.

End JsonToShapefile.

(* ================================================================== *)
(** * Specification-side definitions *)
(* ================================================================== *)

(** ** The language of [FILENAME_RE] *)

Module FileName.

(** One or more digits. *)
Definition digit_string (s : string) : Prop :=
  s <> EmptyString /\ PyStr.all_chars PyStr.is_digit s = true.

(** [incoming] or [outgoing], in any mix of cases. *)
Definition direction_token (s : string) : Prop :=
  PyStr.lower s = "incoming" \/ PyStr.lower s = "outgoing".

(** What [FILENAME_RE.match] accepts, read off the pattern and its flag:
    the four groups and the separators in sequence, the extension in any
    mix of cases (the flag covers the whole pattern), and the end of the
    subject or one line feed before it. *)
Definition accepted (name dev dir gx gy : string) : Prop :=
  exists ext tail,
    name = (dev ++ "_" ++ dir ++ "_" ++ gx ++ "_" ++ gy ++ ext ++ tail)%string
    /\ digit_string dev /\ direction_token dir
    /\ digit_string gx /\ digit_string gy
    /\ PyStr.lower ext = ".json"
    /\ (tail = EmptyString \/ tail = PyStr.LF).

(** The naming convention as the specification words it: the whole name,
    anchored at both ends, with the literal extension [.json]. *)
Definition conforms (name dev dir gx gy : string) : Prop :=
  name = (dev ++ "_" ++ dir ++ "_" ++ gx ++ "_" ++ gy ++ ".json")%string
  /\ digit_string dev /\ direction_token dir
  /\ digit_string gx /\ digit_string gy.

(** The rest of the subject does not begin with a digit. *)
Definition no_digit_ahead (r : string) : Prop :=
  match r with
  | EmptyString => True
  | String c _ => PyStr.is_digit c = false
  end.

(** The parts a parse returns: well-formed when the groups are. *)
Definition well_formed (p : parts) : Prop :=
  digit_string (device p)
  /\ (direction p = "incoming" \/ direction p = "outgoing")
  /\ digit_string (x p) /\ digit_string (y p).

(** The last character of a string. *)
Fixpoint last_char (s : string) : option ascii :=
  match s with
  | EmptyString => None
  | String c EmptyString => Some c
  | String _ s' => last_char s'
  end.

End FileName.

(** ** The checks of the structural validator, in the words of the
    specification *)

Module Structure.

(** A row is a sequence of exactly [n] cells. *)
Definition row_ok (n : nat) (row : pyval) : Prop :=
  exists cells, row = PyList cells /\ List.length cells = n.

(** The case-folded field list equals the canonical schema: every field
    is a string, and the lower-cased strings are the seven canonical
    names, in order. *)
Definition folds_to_schema (nf : list pyval) : Prop :=
  exists names,
    nf = map PyStr names /\ map PyStr.lower names = EXPECTED_FIELDS.

(** A valid document: a keyed mapping with both keys, both sequences,
    the schema matched, every row of the length of [nodeFormat]. *)
Definition valid_document (doc : pyval) : Prop :=
  exists items nf rows,
    doc = PyDict items
    /\ dict_get "nodeFormat" items = Some (PyList nf)
    /\ dict_get "nodes" items = Some (PyList rows)
    /\ folds_to_schema nf
    /\ Forall (row_ok (List.length nf)) rows.

Definition is_dict (v : pyval) : Prop := exists items, v = PyDict items.
Definition is_list (v : pyval) : Prop := exists l, v = PyList l.

(** The seven checks in their order.  Each constructor assumes that the
    checks before it pass and that its own check fails, whatever the
    later checks would say, and gives the message returned; the last one
    is the document on which all checks pass. *)
Inductive first_failure (name : string) : pyval -> option message -> Prop :=
| not_object doc :
    ~ is_dict doc ->
    first_failure name doc (Some (NotJsonObject name))
| no_nodeFormat items :
    dict_get "nodeFormat" items = None ->
    first_failure name (PyDict items) (Some (MissingKey name "nodeFormat"))
| no_nodes items nf :
    dict_get "nodeFormat" items = Some nf ->
    dict_get "nodes" items = None ->
    first_failure name (PyDict items) (Some (MissingKey name "nodes"))
| nodeFormat_not_array items nf nodes :
    dict_get "nodeFormat" items = Some nf ->
    dict_get "nodes" items = Some nodes ->
    ~ is_list nf ->
    first_failure name (PyDict items) (Some (NotAnArray name "nodeFormat"))
| nodes_not_array items nf nodes :
    dict_get "nodeFormat" items = Some (PyList nf) ->
    dict_get "nodes" items = Some nodes ->
    ~ is_list nodes ->
    first_failure name (PyDict items) (Some (NotAnArray name "nodes"))
| schema_mismatch items nf rows :
    dict_get "nodeFormat" items = Some (PyList nf) ->
    dict_get "nodes" items = Some (PyList rows) ->
    ~ folds_to_schema nf ->
    first_failure name (PyDict items) (Some (SchemaMismatch name nf))
| row_not_array items nf good bad rest :
    dict_get "nodeFormat" items = Some (PyList nf) ->
    dict_get "nodes" items = Some (PyList (good ++ bad :: rest)) ->
    folds_to_schema nf ->
    Forall (row_ok (List.length nf)) good ->
    ~ is_list bad ->
    first_failure name (PyDict items)
      (Some (NodeNotArray name (List.length good)))
| row_wrong_length items nf good cells rest :
    dict_get "nodeFormat" items = Some (PyList nf) ->
    dict_get "nodes" items = Some (PyList (good ++ PyList cells :: rest)) ->
    folds_to_schema nf ->
    Forall (row_ok (List.length nf)) good ->
    List.length cells <> List.length nf ->
    first_failure name (PyDict items)
      (Some (NodeWrongLength name (List.length good) (List.length cells)
               (List.length nf)))
| all_pass doc :
    valid_document doc ->
    first_failure name doc None.

End Structure.

(** ** What each pass adds to the run *)

(** Field-wise sum of two sets of counters. *)
Definition counters_add (a b : counters) : counters :=
  mkCounters (total_files a + total_files b) (valid_files a + valid_files b)
    (bad_pattern a + bad_pattern b) (bad_json a + bad_json b)
    (bad_structure a + bad_structure b) (hash_dupes a + hash_dupes b)
    (slot_collisions a + slot_collisions b) (orphans a + orphans b)
    (orphans_deleted a + orphans_deleted b).

(** Every counter is a non-negative integer. *)
Definition counters_nonneg (c : counters) : Prop :=
  (0 <= total_files c /\ 0 <= valid_files c /\ 0 <= bad_pattern c
   /\ 0 <= bad_json c /\ 0 <= bad_structure c /\ 0 <= hash_dupes c
   /\ 0 <= slot_collisions c /\ 0 <= orphans c /\ 0 <= orphans_deleted c)%Z.

(** A run that went on from [st]: more errors, warnings and events, the
    counters raised, the output directory as it was. *)
Definition extend (st : run) (e w : list message) (c : counters)
    (t : list event) : run :=
  mkRun (errors st ++ e) (warnings st ++ w) (counters_add (stats st) c)
    (out_disk st) (trace st ++ t).

(** [d[k] = v] for each item of a list, in order. *)
Definition set_all {V : Type} (items : list (string * V))
    (d : list (string * V)) : list (string * V) :=
  fold_left (fun d kv => Dict.set (fst kv) (snd kv) d) items d.

(** The number of elements of [l] that satisfy [f], as a Python integer. *)
Definition count {A : Type} (f : A -> bool) (l : list A) : Z :=
  Z.of_nat (List.length (filter f l)).

(** The name of a file does not parse. *)
Definition unparsable (fp : string) : bool :=
  match parse_filename fp with
  | None => true
  | Some _ => false
  end.

(** A dictionary with [str] keys groups the items of [l]: distinct keys,
    every group the values of the items of [l] under its key, in the
    order of [l], and no group empty; every item is in the group of its
    key. *)
Definition grouping {A : Type} (key val : A -> string) (l : list A)
    (G : list (string * list string)) : Prop :=
  NoDup (map fst G)
  /\ (forall k paths, In (k, paths) G ->
        paths <> [] /\ paths = map val (filter (fun a => key a =? k) l))
  /\ (forall a, In a l -> exists paths, In (key a, paths) G).

(** The errors and the counter increment that a reporting loop derives
    from the groups: one error per group of more than one path, and the
    number of extra copies. *)
Definition group_errors (mk : string -> string -> message)
    (G : list (string * list string)) : list message :=
  flat_map
    (fun g : string * list string =>
       if (1 <? List.length (snd g))%nat
       then [mk (fst g) (PyStr.join ", " (snd g))] else [])
    G.

Definition extra_copies (G : list (string * list string)) : Z :=
  fold_right
    (fun (g : string * list string) acc =>
       ((if (1 <? List.length (snd g))%nat
         then Z.of_nat (List.length (snd g)) - 1 else 0) + acc)%Z)
    0%Z G.

(** The sum of [size - 1] over the groups. *)
Definition sizes_minus_one (G : list (string * list string)) : Z :=
  fold_right
    (fun (g : string * list string) acc =>
       (Z.of_nat (List.length (snd g)) - 1 + acc)%Z)
    0%Z G.

(** [d.setdefault(key(a), []).append(val(a))] for each item of a list. *)
Definition group_by {A : Type} (key val : A -> string) (l : list A)
    (G : list (string * list string)) : list (string * list string) :=
  fold_left (fun G a => Dict.setdefault_append (key a) (val a) G) l G.

(** Counter increments of the three later passes. *)
Definition hash_delta (n : Z) : counters := mkCounters 0 0 0 0 0 n 0 0 0.
Definition slot_delta (n : Z) : counters := mkCounters 0 0 0 0 0 0 n 0 0.
Definition orphan_delta (n m : Z) : counters := mkCounters 0 0 0 0 0 0 0 n m.

(** The names of a listing that are not raw names. *)
Definition orphan_names (raw_names listing : list string) : list string :=
  filter (fun n => not_in n raw_names) listing.

(** The directory without the entries of the given names. *)
Definition remove_all (names : list string) (d : directory) : directory :=
  fold_left (fun d n => remove_entry n d) names d.

(** The events of the orphan loop: each orphan is reported, and with
    [delete_orphans] unlinked at once. *)
Definition orphan_trace (dir_name : string) (delete_orphans : bool)
    (orph : list string) : list event :=
  flat_map
    (fun n => Append Warning (OrphanIn dir_name n)
              :: (if delete_orphans then [Unlink n] else []))
    orph.

(** The run after the orphan loop has dealt with the orphans [orph]. *)
Definition after_orphans (dir_name : string) (delete_orphans : bool)
    (orph : list string) (st : run) : run :=
  mkRun (errors st)
    (warnings st ++ map (OrphanIn dir_name) orph)
    (counters_add (stats st)
       (orphan_delta (Z.of_nat (List.length orph))
          (if delete_orphans then Z.of_nat (List.length orph) else 0)))
    (if delete_orphans then option_map (remove_all orph) (out_disk st)
     else out_disk st)
    (trace st ++ orphan_trace dir_name delete_orphans orph).

(** What a call leaves behind, whether it returned or raised: the state
    it had reached, with the trace of what it did. *)
Definition left_behind (res : result run run) : run :=
  match res with
  | Ok r => r
  | Raise _ s => s
  end.

(** The names that the operating system refuses to remove from the
    output directory. *)
Definition out_locked (output_dir : option dirpath) : list string :=
  match output_dir with
  | Some od => locked od
  | None => []
  end.

(** The kinds of message: the structural validator's, the other errors,
    and the warnings. *)
Definition is_structural (m : message) : bool :=
  match m with
  | NotJsonObject _ | MissingKey _ _ | NotAnArray _ _ | SchemaMismatch _ _
  | NodeNotArray _ _ | NodeWrongLength _ _ _ _ => true
  | _ => false
  end.


(** The events that occur before the orphan pass: no listing of the
    output directory, no deletion, no report of an orphan. *)
Definition before_orphan_pass (e : event) : bool :=
  match e with
  | Unlink _ | ListDir OutputDir _ | Append Warning (OrphanIn _ _) => false
  | _ => true
  end.

(** The two kinds of duplicate report, and the groups that get one. *)
Definition is_content_dup (m : message) : bool :=
  match m with ContentHashDuplicate _ => true | _ => false end.

Definition is_slot_collision (m : message) : bool :=
  match m with SlotCollision _ _ => true | _ => false end.

Definition more_than_one (g : string * list string) : bool :=
  (1 <? List.length (snd g))%nat.

(** A warning about the orphan [n]. *)
Definition is_orphan_warning (n : string) (m : message) : bool :=
  match m with
  | OrphanIn _ n' => n' =? n
  | _ => false
  end.

Section RunSpec.

Variable json_load : list byte -> json_result.
Variable sha256 : list byte -> string.

(** What the reading loop makes of one file. *)
Inductive verdict : Type :=
| BadJson (exc : caught)
| BadStructure (err : message)
| Accepted
| Crash.

Definition classify (raw : directory) (fp : string) : verdict :=
  match open_load json_load raw fp with
  | Escapes => Crash
  | Fails exc => BadJson exc
  | Loaded doc =>
      match validate_structure doc fp with
      | Some err => BadStructure err
      | None => Accepted
      end
  end.

Definition is_accepted (raw : directory) (fp : string) : bool :=
  match classify raw fp with Accepted => true | _ => false end.
Definition is_bad_json (raw : directory) (fp : string) : bool :=
  match classify raw fp with BadJson _ => true | _ => false end.
Definition is_bad_structure (raw : directory) (fp : string) : bool :=
  match classify raw fp with BadStructure _ => true | _ => false end.
Definition crashes (raw : directory) (fp : string) : bool :=
  match classify raw fp with Crash => true | _ => false end.

Definition file_errors (raw : directory) (fp : string) : list message :=
  match classify raw fp with
  | BadJson exc => [CannotReadParse fp exc]
  | BadStructure err => [err]
  | _ => []
  end.

Definition file_warnings (fp : string) : list message :=
  if unparsable fp then [BadPattern fp] else [].

Definition file_trace (raw : directory) (fp : string) : list event :=
  map (Append Warning) (file_warnings fp) ++ [OpenRead fp]
  ++ map (Append Error) (file_errors raw fp).

Definition file_parsed (raw : directory) (fp : string)
  : list (string * parts) :=
  if is_accepted raw fp
  then match parse_filename fp with Some p => [(fp, p)] | None => [] end
  else [].

(** The counters the reading loop adds for a list of files. *)
Definition pass1_counts (raw : directory) (files : list string) : counters :=
  mkCounters 0 0 (count unparsable files) (count (is_bad_json raw) files)
    (count (is_bad_structure raw) files) 0 0 0 0.

(** The SHA-256 digest of the bytes under a name. *)
Definition fingerprint (raw : directory) (fp : string) : string :=
  match lookup fp raw with
  | Some (File data) => sha256 data
  | _ => EmptyString
  end.

(** The bytes under a name, if it is a regular file. *)
Definition bytes_of (raw : directory) (fp : string) : option (list byte) :=
  match lookup fp raw with
  | Some (File data) => Some data
  | _ => None
  end.

(** ** The whole run, pass by pass *)

(** The files the run scans, in the order it scans them. *)
Definition scanned (raw_dir : dirpath) : list string :=
  sorted (glob_json (raw_entries raw_dir)).

(** The valid set: the scanned files that were read and passed the
    structural validator. *)
Definition valid_set (raw_dir : dirpath) : list string :=
  filter (is_accepted (raw_entries raw_dir)) (scanned raw_dir).

(** The parsed-name map: the valid files whose name parsed. *)
Definition parsed_set (raw_dir : dirpath) : list (string * parts) :=
  flat_map (file_parsed (raw_entries raw_dir)) (scanned raw_dir).

Definition hash_groups (raw_dir : dirpath) : list (string * list string) :=
  group_by (fingerprint (raw_entries raw_dir)) (fun fp => fp)
    (valid_set raw_dir) [].

Definition slot_groups (raw_dir : dirpath) : list (string * list string) :=
  group_by (fun item : string * parts => slot_key (snd item))
    (fun item => fst item) (set_all (parsed_set raw_dir) []) [].

Definition hash_errors (raw_dir : dirpath) : list message :=
  group_errors (fun _ names => ContentHashDuplicate names)
    (hash_groups raw_dir).

Definition slot_errors (raw_dir : dirpath) : list message :=
  group_errors SlotCollision (slot_groups raw_dir).

(** The output directory the orphan pass works on: its name and its
    entries, when one was supplied and exists. *)
Definition out_listing (output_dir : option dirpath)
  : option (string * directory) :=
  match output_dir with
  | Some od =>
      match on_disk od with
      | Some d => Some (path_name od, d)
      | None => None
      end
  | None => None
  end.

(** The orphans of a run: the [*.json] names of the output directory
    that are not names of scanned raw files. *)
Definition orphan_set (raw_dir : dirpath) (output_dir : option dirpath)
  : list string :=
  match out_listing output_dir with
  | Some (_, d) => orphan_names (scanned raw_dir) (sorted (glob_json d))
  | None => []
  end.

(** The run up to and including the slot pass, over a raw directory
    with at least one [*.json] file. *)
Definition before_orphans (raw_dir : dirpath) (output_dir : option dirpath)
  : run :=
  let raw := raw_entries raw_dir in
  let files := scanned raw_dir in
  mkRun
    (flat_map (file_errors raw) files ++ hash_errors raw_dir
     ++ slot_errors raw_dir)
    (flat_map file_warnings files)
    (mkCounters (Z.of_nat (List.length files))
       (Z.of_nat (List.length (valid_set raw_dir)))
       (count unparsable files) (count (is_bad_json raw) files)
       (count (is_bad_structure raw) files)
       (extra_copies (hash_groups raw_dir))
       (extra_copies (slot_groups raw_dir)) 0 0)
    (out_disk (initial_run output_dir))
    (ListDir RawDir files :: flat_map (file_trace raw) files
     ++ map HashRead (valid_set raw_dir)
     ++ map (Append Error) (hash_errors raw_dir)
     ++ map (Append Error) (slot_errors raw_dir)).

(** The run that [validate_raw] returns. *)
Definition expected_run (raw_dir : dirpath) (output_dir : option dirpath)
    (delete_orphans : bool) : run :=
  match scanned raw_dir with
  | [] =>
      mkRun [] [NoFilesFound (path_str raw_dir)] zero_counters
        (out_disk (initial_run output_dir))
        [ListDir RawDir []; Append Warning (NoFilesFound (path_str raw_dir))]
  | _ :: _ =>
      match out_listing output_dir with
      | None => before_orphans raw_dir output_dir
      | Some (dir_name, d) =>
          after_orphans dir_name delete_orphans
            (orphan_set raw_dir output_dir)
            (log (ListDir OutputDir (sorted (glob_json d)))
               (before_orphans raw_dir output_dir))
      end
  end.

(** The name the orphan warnings carry. *)
Definition out_name (output_dir : option dirpath) : string :=
  match out_listing output_dir with
  | Some (dir_name, _) => dir_name
  | None => EmptyString
  end.

(** The events of a run over a non-empty raw directory, up to the orphan
    pass. *)
Definition early_trace (raw_dir : dirpath) : list event :=
  ListDir RawDir (scanned raw_dir)
  :: flat_map (file_trace (raw_entries raw_dir)) (scanned raw_dir)
  ++ map HashRead (valid_set raw_dir)
  ++ map (Append Error) (hash_errors raw_dir)
  ++ map (Append Error) (slot_errors raw_dir).

End RunSpec.

(* ================================================================== *)
(** * Vocabulary of the further properties *)
(* ================================================================== *)

(** What the node loop looks at in a row: whether it is a list, and of
    what length. *)
Definition row_shape (row : pyval) : option nat :=
  match row with
  | PyList cells => Some (List.length cells)
  | _ => None
  end.

(** The message of [normalize_trips.validate_doc] as [validate_structure]
    words it, with the file name in place of the path. *)
Definition as_raw (name : string) (m : NormalizeTrips.message) : message :=
  match m with
  | NormalizeTrips.NotJsonObject _ => NotJsonObject name
  | NormalizeTrips.MissingKey _ key => MissingKey name key
  | NormalizeTrips.NotAnArray _ key => NotAnArray name key
  | NormalizeTrips.SchemaMismatch _ nf => SchemaMismatch name nf
  | NormalizeTrips.NodeNotArray _ i => NodeNotArray name i
  | NormalizeTrips.NodeWrongLength _ i len n => NodeWrongLength name i len n
  end.

(** The messages of the error lines and of the warning lines of a
    report, in the order printed. *)
Definition printed_errors (out : list line) : list message :=
  flat_map (fun l => match l with ErrorLine m => [m] | _ => [] end) out.

Definition printed_warnings (out : list line) : list message :=
  flat_map (fun l => match l with WarningLine m => [m] | _ => [] end) out.

(** The counter lines of a report. *)
Definition is_counter_line (l : line) : bool :=
  match l with
  | FilesScanned _ | Valid _ | BadPatternCount _ | BadJsonCount _
  | BadStructureCount _ | HashDupesCount _ | SlotClashesCount _
  | OrphansCount _ | DeletedCount _ => true
  | _ => false
  end.

(** The same command line with [--strict] given or not. *)
Definition with_strict (b : bool) (a : args) : args :=
  mkArgs (raw_dir a) (output_dir a) b (delete_orphans a).

(** The node format of a document after [process_doc]:
    [doc["nodeFormat"] + ["trips_pct"]]. *)
Definition with_trips_pct (node_format : list pyval) : list pyval :=
  node_format ++ [PyStr "trips_pct"].

(** A list of names in the order of [sorted]. *)
Fixpoint ordered (l : list string) : Prop :=
  match l with
  | [] => True
  | a :: l' => (forall b, In b l' -> (a <=? b)%string = true) /\ ordered l'
  end.

(** The same directory as the operating system may list it another time:
    the same path, the same names that it refuses to remove, and the same
    entries, with distinct names, in some order. *)
Definition reordered (p p' : dirpath) : Prop :=
  path_str p = path_str p' /\ path_name p = path_name p'
  /\ locked p = locked p'
  /\ match on_disk p, on_disk p' with
     | Some d, Some d' => Permutation d d' /\ NoDup (map fst d)
     | None, None => True
     | _, _ => False
     end.

Definition reordered_opt (o o' : option dirpath) : Prop :=
  match o, o' with
  | Some p, Some p' => reordered p p'
  | None, None => True
  | _, _ => False
  end.

(** Two states of a directory with the same node under every name. *)
Definition same_files (o o' : option directory) : Prop :=
  match o, o' with
  | Some d, Some d' => forall n, lookup n d = lookup n d'
  | None, None => True
  | _, _ => False
  end.

(* ================================================================== *)
(** * Concrete directories *)
(* ================================================================== *)

Module Example.

Definition bytes (s : string) : list byte := list_byte_of_string s.

(** A document in the standard format with one node. *)
Definition standard_format : pyval :=
  PyList (map PyStr ["id"; "parentId"; "trips"; "frc"; "geometry";
                     "processingFailures"; "privacyTrims"]).

Definition good_doc (trips : Z) : pyval :=
  PyDict [("nodeFormat", standard_format);
          ("nodes", PyList [PyList [PyInt 0; PyNone; PyInt trips; PyInt 3;
                                    PyList []; PyInt 0; PyInt 0]])].

(** A decoder that knows four file contents, and a digest that tells
    all contents apart. *)
Definition json_load (data : list byte) : json_result :=
  match string_of_list_byte data with
  | "doc100" => Parsed (good_doc 100)
  | "doc200" => Parsed (good_doc 200)
  | "wrong" => Parsed (PyDict [("wrong", PyBool true)])
  | "latin1" => OtherError
  | _ => DecodeError "Expecting value"
  end.

Definition sha256 (data : list byte) : string := string_of_list_byte data.

Definition raw_at (d : directory) : dirpath :=
  mkDirpath "/data/raw" "raw" (Some d) [].
Definition output_at (d : directory) : dirpath :=
  mkDirpath "/data/output" "output" (Some d) [].

(** Three files with the same bytes under different names. *)
Definition three_copies : directory :=
  [("111_incoming_0_0.json", File (bytes "doc100"));
   ("222_incoming_0_0.json", File (bytes "doc100"));
   ("333_incoming_0_0.json", File (bytes "doc100"))].

(** Two names that differ in the case of the direction only. *)
Definition case_variants : directory :=
  [("111_incoming_0_0.json", File (bytes "doc100"));
   ("111_INCOMING_0_0.json", File (bytes "doc200"))].

(** A well-named file, a valid file with a free name, a file that is no
    JSON, a file with the wrong structure, and a sub-directory. *)
Definition mixed : directory :=
  [("111_incoming_0_0.json", File (bytes "doc100"));
   ("custom_name.json", File (bytes "doc200"));
   ("broken.json", File (bytes "{broken!!"));
   ("wrong.json", File (bytes "wrong"));
   ("sub.json", Dir);
   ("notes.txt", File (bytes "doc100"))].

(** An output directory: one file that has a raw source in [mixed], even
    though that source is no JSON, and two that have none. *)
Definition produced : directory :=
  [("999_incoming_0_0.json", File (bytes "x"));
   ("broken.json", File (bytes "y"));
   ("888_outgoing_1_1.json", File (bytes "z"))].

(** The run a call returned, or an empty run if it raised. *)
Definition returned (res : result run run) : run :=
  match res with
  | Ok r => r
  | Raise _ _ => mkRun [] [] zero_counters None []
  end.

Definition run_mixed : run :=
  Eval vm_compute in
    returned (validate_raw json_load sha256 (raw_at mixed)
                (Some (output_at produced)) true).

Definition run_empty : run :=
  Eval vm_compute in
    returned (validate_raw json_load sha256 (raw_at [])
                (Some (output_at produced)) true).

Definition run_case_variants : run :=
  Eval vm_compute in
    returned (validate_raw json_load sha256 (raw_at case_variants) None
                false).

Definition run_three_copies : run :=
  Eval vm_compute in
    returned (validate_raw json_load sha256 (raw_at three_copies) None
                false).

(** The trace of [run_mixed] before and after its first deletion. *)
Definition before_first_unlink : list event :=
  Eval vm_compute in firstn 17 (trace run_mixed).
Definition after_first_unlink : list event :=
  Eval vm_compute in skipn 18 (trace run_mixed).

(** The output directory [produced] when the operating system refuses
    to remove the second of its orphans, and what the deleting run over
    [mixed] leaves behind there: it stops at the [unlink] that fails. *)
Definition output_locked : dirpath :=
  mkDirpath "/data/output" "output" (Some produced)
    ["999_incoming_0_0.json"].

Definition run_stopped : run :=
  Eval vm_compute in
    left_behind (validate_raw json_load sha256 (raw_at mixed)
                   (Some output_locked) true).

Definition stopped_before_unlink : list event :=
  Eval vm_compute in firstn 17 (trace run_stopped).
Definition stopped_after_unlink : list event :=
  Eval vm_compute in skipn 18 (trace run_stopped).



(** A command line in strict mode over a raw directory whose only file
    is valid but freely named, and what [main] leaves behind. *)
Definition strict_args : args :=
  mkArgs (raw_at [("custom_name.json", File (bytes "doc100"))]) None
    true false.

Definition strict_process : process :=
  Eval vm_compute in
    match main json_load sha256 strict_args with
    | Ok p => p
    | Raise _ _ => mkProcess 0 [] [] None
    end.

End Example.

(** Distinctness of a concrete list of names. *)
Ltac distinct_names :=
  repeat (constructor; [simpl; intuition discriminate|]); constructor.


(* ================================================================== *)
(** * More concrete directories *)
(* ================================================================== *)

Module Example2.

Import Example.

(** A raw directory whose second file makes the decoder raise an
    exception that the reading loop does not catch. *)
Definition undecodable : directory :=
  [("111_incoming_0_0.json", File (bytes "doc100"));
   ("222_incoming_0_0.json", File (bytes "latin1"));
   ("333_incoming_0_0.json", File (bytes "doc200"))].

(** A raw directory with no [*.json] entry. *)
Definition no_json : directory :=
  [("notes.txt", File (bytes "doc100")); ("README", File (bytes "x"))].

(** Two well-named valid files with different contents. *)
Definition clean : directory :=
  [("111_incoming_0_0.json", File (bytes "doc100"));
   ("111_outgoing_0_0.json", File (bytes "doc200"))].

(** An output directory for [clean]: the normalised files and the side
    files of a shapefile. *)
Definition clean_output : directory :=
  [("111_incoming_0_0.json", File (bytes "a"));
   ("111_outgoing_0_0.json", File (bytes "b"));
   ("trips.shp", File (bytes "c"));
   ("trips.prj", File (bytes "d"))].

(** [mixed] as the operating system may list it in another order. *)
Definition mixed_reordered : directory :=
  Eval vm_compute in rev mixed.

Definition produced_reordered : directory :=
  Eval vm_compute in rev produced.

Definition run_clean : run :=
  Eval vm_compute in
    returned (validate_raw json_load sha256 (raw_at clean)
                (Some (output_at clean_output)) true).

Definition run_mixed_reordered : run :=
  Eval vm_compute in
    returned (validate_raw json_load sha256 (raw_at mixed_reordered)
                (Some (output_at produced_reordered)) true).

(** The run behind a process, or an empty run if there was none. *)
Definition run_of (p : process) : run :=
  match ran p with
  | Some r => r
  | None => mkRun [] [] zero_counters None []
  end.

End Example2.

Module Example3.

Import Example.

(** The items of a valid document, and of another with the same field
    names and one row of the same shape, but other cells and one more
    key. *)
Definition one_row : list pyval :=
  [PyList [PyInt 0; PyNone; PyInt 100; PyInt 3; PyList []; PyInt 0; PyInt 0]].

Definition other_row : list pyval :=
  [PyList [PyStr "a"; PyStr "b"; PyNone; PyNone; PyInt 7; PyBool true;
           PyDict []]].

Definition items : list (string * pyval) :=
  [("nodeFormat", standard_format); ("nodes", PyList one_row)].

Definition other_items : list (string * pyval) :=
  [("source", PyStr "tomtom"); ("nodes", PyList other_row);
   ("nodeFormat", standard_format)].

Definition fields : list pyval :=
  map PyStr ["id"; "parentId"; "trips"; "frc"; "geometry";
             "processingFailures"; "privacyTrims"].

End Example3.

(* ================================================================== *)
(** * Strings *)
(* ================================================================== *)

Section StringFacts.

Local Open Scope string_scope.

(** A digit is its own lower-case form, so nothing that lower-cases to a
    non-digit is a digit. *)
Lemma digit_lower_char (c : ascii) :
  PyStr.is_digit c = true -> PyStr.lower_char c = c.
Proof. destruct c as [[] [] [] [] [] [] [] []]; vm_compute; congruence. Qed.

Lemma lower_char_underscore (c : ascii) :
  PyStr.lower_char c = "_"%char -> c = "_"%char.
Proof. destruct c as [[] [] [] [] [] [] [] []]; vm_compute; congruence. Qed.

End StringFacts.

(* ================================================================== *)
(** * The file-name parser agrees with the language of its pattern *)
(* ================================================================== *)

Section FileNameParser.

Import FileName.
Local Open Scope string_scope.

Lemma span_digits_sound (s d r : string) :
  Re.span_digits s = (d, r) ->
  s = d ++ r /\ PyStr.all_chars PyStr.is_digit d = true /\ no_digit_ahead r.
Proof.
  revert d r; induction s as [|c s IH]; simpl; intros d r E.
  - inversion E; subst; simpl; auto.
  - destruct (PyStr.is_digit c) eqn:Dc.
    + destruct (Re.span_digits s) as [d' r'] eqn:Es.
      inversion E; subst; clear E.
      destruct (IH d' r eq_refl) as (-> & Hd & Hr).
      simpl; rewrite Dc, Hd; auto.
    + inversion E; subst; simpl; auto.
Qed.

Lemma span_digits_complete (d r : string) :
  PyStr.all_chars PyStr.is_digit d = true -> no_digit_ahead r ->
  Re.span_digits (d ++ r) = (d, r).
Proof.
  induction d as [|c d IH]; simpl; intros Hd Hr.
  - destruct r as [|c r]; simpl in *; [reflexivity | now rewrite Hr].
  - apply andb_true_iff in Hd as [Hc Hd].
    now rewrite Hc, (IH Hd Hr).
Qed.

Lemma digits1_iff (s d r : string) :
  Re.digits1 s = Some (d, r) <->
  s = d ++ r /\ digit_string d /\ no_digit_ahead r.
Proof.
  unfold Re.digits1, digit_string; split.
  - destruct (Re.span_digits s) as [d' r'] eqn:E.
    apply span_digits_sound in E as (-> & Hd & Hr).
    destruct d' as [|c d']; [discriminate|].
    intros H; inversion H; subst; repeat split; auto; discriminate.
  - intros (-> & (Hne & Hd) & Hr).
    rewrite (span_digits_complete _ _ Hd Hr).
    destruct d; [contradiction | reflexivity].
Qed.

Lemma literal_sound (lit s m r : string) :
  Re.literal lit s = Some (m, r) -> s = m ++ r /\ PyStr.lower m = lit.
Proof.
  revert s m r; induction lit as [|p lit IH]; simpl; intros s m r E.
  - inversion E; subst; auto.
  - destruct s as [|c s]; [discriminate|].
    destruct (Ascii.eqb_spec (PyStr.lower_char c) p) as [Ec|Ec];
      [|discriminate].
    destruct (Re.literal lit s) as [[m' r']|] eqn:El; [|discriminate].
    inversion E; subst; clear E.
    destruct (IH _ _ _ El) as [-> <-]; auto.
Qed.

Lemma literal_complete (m r : string) :
  Re.literal (PyStr.lower m) (m ++ r) = Some (m, r).
Proof.
  induction m as [|c m IH]; simpl; [reflexivity|].
  now rewrite Ascii.eqb_refl, IH.
Qed.

Lemma literal_iff (lit s m r : string) :
  Re.literal lit s = Some (m, r) <-> s = m ++ r /\ PyStr.lower m = lit.
Proof.
  split; [apply literal_sound|].
  intros [-> <-]; apply literal_complete.
Qed.

(** A literal whose first character the subject does not have, in
    either case, does not match. *)
Lemma literal_first_mismatch (p : ascii) (lit : string) (c : ascii)
    (s : string) :
  PyStr.lower_char c <> p -> Re.literal (String p lit) (String c s) = None.
Proof.
  intros H; simpl.
  destruct (Ascii.eqb_spec (PyStr.lower_char c) p); [contradiction|reflexivity].
Qed.

Lemma underscore_not_digit (r : string) : no_digit_ahead ("_" ++ r).
Proof. reflexivity. Qed.

(** A string that lower-cases to [.json] begins with a full stop. *)
Lemma ext_not_digit (ext r : string) :
  PyStr.lower ext = ".json" -> no_digit_ahead (ext ++ r).
Proof.
  destruct ext as [|c ext]; simpl; [discriminate|].
  intros H; inversion H as [[Hc Hr]].
  destruct (PyStr.is_digit c) eqn:D; [|reflexivity].
  rewrite (digit_lower_char _ D) in Hc; subst c; discriminate.
Qed.

Lemma digits1_app (d r : string) :
  digit_string d -> no_digit_ahead r -> Re.digits1 (d ++ r) = Some (d, r).
Proof. intros; apply digits1_iff; auto. Qed.

Lemma literal_app (lit m r : string) :
  PyStr.lower m = lit -> Re.literal lit (m ++ r) = Some (m, r).
Proof. intros; apply literal_iff; auto. Qed.

Lemma alt_direction (dir r : string) :
  direction_token dir ->
  Re.alt (Re.literal "incoming") (Re.literal "outgoing") (dir ++ r)
  = Some (dir, r).
Proof.
  unfold Re.alt; intros [Hd|Hd].
  - now rewrite (literal_app _ _ _ Hd).
  - assert (N : Re.literal "incoming" (dir ++ r) = None).
    { destruct dir as [|c dir]; [discriminate|].
      apply literal_first_mismatch.
      simpl in Hd; inversion Hd as [[Hc Hr]]; rewrite Hc; discriminate. }
    now rewrite N, (literal_app _ _ _ Hd).
Qed.

(** [FILENAME_RE.match] returns the groups exactly for the subjects in
    the language of the pattern. *)
Theorem FILENAME_RE_accepted (name dev dir gx gy : string) :
  FILENAME_RE name = Some (dev, dir, gx, gy) <-> accepted name dev dir gx gy.
Proof.
  unfold FILENAME_RE, accepted; split.
  - destruct (Re.digits1 name) as [[dev' r1]|] eqn:E1; [|discriminate].
    destruct (Re.literal "_" r1) as [[u1 r2]|] eqn:E2; [|discriminate].
    destruct (Re.alt _ _ r2) as [[dir' r3]|] eqn:E3; [|discriminate].
    destruct (Re.literal "_" r3) as [[u2 r4]|] eqn:E4; [|discriminate].
    destruct (Re.digits1 r4) as [[gx' r5]|] eqn:E5; [|discriminate].
    destruct (Re.literal "_" r5) as [[u3 r6]|] eqn:E6; [|discriminate].
    destruct (Re.digits1 r6) as [[gy' r7]|] eqn:E7; [|discriminate].
    destruct (Re.literal ".json" r7) as [[ext r8]|] eqn:E8; [|discriminate].
    destruct (Re.at_end r8) eqn:E9; [|discriminate].
    intros H; inversion H; subst; clear H.
    assert (U : forall u, PyStr.lower u = "_" -> u = "_").
    { intros [|c [|c' u]]; simpl; try discriminate.
      intros Hu; inversion Hu as [Hc].
      now rewrite (lower_char_underscore _ Hc). }
    assert (Hdir : r2 = dir ++ r3 /\ direction_token dir).
    { unfold Re.alt in E3.
      destruct (Re.literal "incoming" r2) as [[a b]|] eqn:Ei.
      - inversion E3; subst.
        apply literal_sound in Ei as [-> Hl]; split; [auto | now left].
      - apply literal_sound in E3 as [-> Hl]; split; [auto | now right]. }
    destruct Hdir as [P3 Hdir].
    apply digits1_iff in E1 as (P1 & Hdev & _).
    apply digits1_iff in E5 as (P5 & Hgx & _).
    apply digits1_iff in E7 as (P7 & Hgy & _).
    apply literal_sound in E2 as [P2 L2]; apply U in L2.
    apply literal_sound in E4 as [P4 L4]; apply U in L4.
    apply literal_sound in E6 as [P6 L6]; apply U in L6.
    apply literal_sound in E8 as [P8 L8].
    subst.
    exists ext, r8.
    repeat (split; [first [reflexivity | assumption]|]).
    unfold Re.at_end in E9; apply orb_true_iff in E9 as [E9|E9];
      apply String.eqb_eq in E9; auto.
  - intros (ext & tail & -> & Hdev & Hdir & Hgx & Hgy & Hext & Htail).
    rewrite (digits1_app dev), (literal_app "_" "_"),
      (alt_direction dir), (literal_app "_" "_"),
      (digits1_app gx), (literal_app "_" "_"),
      (digits1_app gy), (literal_app ".json" ext);
      auto using underscore_not_digit, ext_not_digit.
    destruct Htail; subst; reflexivity.
Qed.

Lemma parse_filename_accepted (name : string) (p : parts) :
  parse_filename name = Some p <->
  exists dev dir gx gy,
    accepted name dev dir gx gy /\ p = mkParts dev (PyStr.lower dir) gx gy.
Proof.
  unfold parse_filename; split.
  - destruct (FILENAME_RE name) as [[[[dev dir] gx] gy]|] eqn:E;
      [|discriminate].
    intros H; inversion H; subst.
    exists dev, dir, gx, gy; split; [now apply FILENAME_RE_accepted | auto].
  - intros (dev & dir & gx & gy & A & ->).
    apply FILENAME_RE_accepted in A; now rewrite A.
Qed.

Lemma conforms_accepted (name dev dir gx gy : string) :
  conforms name dev dir gx gy -> accepted name dev dir gx gy.
Proof.
  intros (-> & Hdev & Hdir & Hgx & Hgy).
  exists ".json", ""; repeat (split; [first [reflexivity|assumption]|]).
  now left.
Qed.

(** On a conforming name the parse is the four substrings the name was
    built from, with the direction in lower case. *)
Lemma parse_filename_conforms (name dev dir gx gy : string) :
  conforms name dev dir gx gy ->
  parse_filename name = Some (mkParts dev (PyStr.lower dir) gx gy).
Proof.
  intros C; apply parse_filename_accepted.
  exists dev, dir, gx, gy; split; [now apply conforms_accepted | auto].
Qed.

Lemma parse_filename_well_formed (name : string) (p : parts) :
  parse_filename name = Some p -> well_formed p.
Proof.
  intros H; apply parse_filename_accepted in H
    as (dev & dir & gx & gy & (ext & tail & _ & Hd & Hdir & Hx & Hy & _) & ->).
  repeat split; try apply Hd; try apply Hx; try apply Hy.
  exact Hdir.
Qed.

(** Two names that differ only in the case of the direction token parse
    to the same parts. *)
Lemma case_variants_same_parts (n1 n2 dev dir1 dir2 gx gy : string) :
  conforms n1 dev dir1 gx gy -> conforms n2 dev dir2 gx gy ->
  PyStr.lower dir1 = PyStr.lower dir2 ->
  exists p, parse_filename n1 = Some p /\ parse_filename n2 = Some p.
Proof.
  intros C1 C2 E.
  exists (mkParts dev (PyStr.lower dir1) gx gy); split.
  - now apply parse_filename_conforms.
  - rewrite E; now apply parse_filename_conforms.
Qed.

(** ** The slot key determines the parts *)

(** A run of digits followed by a non-digit is cut at one place only. *)
Lemma digit_prefix_unique (d1 d2 r1 r2 : string) :
  PyStr.all_chars PyStr.is_digit d1 = true ->
  PyStr.all_chars PyStr.is_digit d2 = true ->
  d1 ++ "_" ++ r1 = d2 ++ "_" ++ r2 -> d1 = d2 /\ r1 = r2.
Proof.
  revert d2; induction d1 as [|c d1 IH]; intros [|c2 d2] H1 H2 E;
    simpl in *.
  - inversion E; auto.
  - inversion E; subst c2.
    apply andb_true_iff in H2 as [H2 _]; discriminate.
  - inversion E; subst c.
    apply andb_true_iff in H1 as [H1 _]; discriminate.
  - inversion E; subst c2.
    apply andb_true_iff in H1 as [_ H1].
    apply andb_true_iff in H2 as [_ H2].
    destruct (IH d2 H1 H2 H3) as [-> ->]; auto.
Qed.

Lemma slot_key_injective (p q : parts) :
  well_formed p -> well_formed q -> slot_key p = slot_key q -> p = q.
Proof.
  destruct p as [d1 t1 x1 y1], q as [d2 t2 x2 y2].
  unfold well_formed, slot_key; simpl.
  intros ((_ & D1) & T1 & (_ & X1) & _) ((_ & D2) & T2 & (_ & X2) & _) E.
  apply digit_prefix_unique in E as [-> E]; auto.
  assert (T : t1 = t2 /\ x1 ++ "_" ++ y1 = x2 ++ "_" ++ y2).
  { destruct T1, T2; subst; simpl in E; inversion E; auto. }
  destruct T as [-> E'].
  apply digit_prefix_unique in E' as [-> ->]; auto.
Qed.

(** ** Where the parser leaves the naming convention *)

Lemma last_char_app (a b : string) :
  b <> "" -> last_char (a ++ b) = last_char b.
Proof.
  intros Hb; induction a as [|c a IH]; simpl; [reflexivity|].
  rewrite <- IH.
  destruct (a ++ b) eqn:E; [|reflexivity].
  destruct a; simpl in E; [contradiction | discriminate].
Qed.

Lemma conforms_last_char (name dev dir gx gy : string) :
  conforms name dev dir gx gy -> last_char name = Some "n"%char.
Proof.
  intros (-> & _).
  repeat (rewrite last_char_app;
          [| first [discriminate
                   | intros E; destruct gy; discriminate
                   | intros E; destruct gx; discriminate
                   | intros E; destruct dir; discriminate]]).
  reflexivity.
Qed.

(** C4.  The claim is that [parse_filename] returns a parse exactly for
    the names that, taken whole, are digits, [_], the direction keyword in
    any case, [_], digits, [_], digits and the literal [.json].  The code
    parses two kinds of names outside that convention: a conforming name
    followed by one line feed ([$] also matches just before a final line
    feed), and a name whose extension is not in lower case
    ([re.IGNORECASE] covers the whole pattern). *)
Theorem parse_filename_beyond_convention :
  let with_lf := "1_incoming_0_0.json" ++ PyStr.LF in
  let upper_ext := "1_incoming_0_0.JSON" in
  parse_filename with_lf = Some (mkParts "1" "incoming" "0" "0")
  /\ (forall dev dir gx gy, ~ conforms with_lf dev dir gx gy)
  /\ parse_filename upper_ext = Some (mkParts "1" "incoming" "0" "0")
  /\ (forall dev dir gx gy, ~ conforms upper_ext dev dir gx gy).
Proof.
  cbv zeta; repeat split; try reflexivity;
    intros dev dir gx gy C; apply conforms_last_char in C; discriminate.
Qed.

End FileNameParser.

(* ================================================================== *)
(** * The structural validator *)
(* ================================================================== *)

Section StructuralValidator.

Import Structure.

Lemma eq_str_list_folds (l : list pyval) (e : list string) :
  eq_str_list (map lower_field l) e = true <->
  exists names, l = map PyStr names /\ map PyStr.lower names = e.
Proof.
  revert e; induction l as [|v l IH]; intros e.
  - destruct e as [|t e]; simpl; split; auto; try discriminate.
    + intros _; exists []; auto.
    + intros ([|n names] & H1 & H2); discriminate.
  - split.
    + destruct v; simpl; try discriminate.
      destruct e as [|t e]; [discriminate|].
      intros H; apply andb_true_iff in H as [Hs Hl].
      apply String.eqb_eq in Hs; apply IH in Hl as (names & -> & <-).
      exists (s :: names); simpl; subst; auto.
    + intros ([|n names] & H1 & H2); [discriminate|].
      simpl in H1, H2; inversion H1; subst; simpl.
      rewrite String.eqb_refl; simpl.
      apply IH; eauto.
Qed.

Lemma row_ok_list (n : nat) (cells : list pyval) :
  row_ok n (PyList cells) <-> List.length cells = n.
Proof.
  split; [intros (c & E & H); inversion E; subst; auto | intros; exists cells; auto].
Qed.

(** Rows that are in order are skipped, with the index advancing. *)
Lemma check_nodes_skip (name : string) (n i : nat) (good l : list pyval) :
  Forall (row_ok n) good ->
  check_nodes name n i (good ++ l) = check_nodes name n (i + List.length good) l.
Proof.
  intros H; revert i; induction H as [|row good (cells & -> & Hn) _ IH];
    intros i; simpl.
  - now rewrite Nat.add_0_r.
  - rewrite Hn, Nat.eqb_refl, IH; f_equal; lia.
Qed.

(** The row loop passes, or stops at the first row out of order. *)
Lemma check_nodes_cases (name : string) (n i : nat) (rows : list pyval) :
  (check_nodes name n i rows = None /\ Forall (row_ok n) rows)
  \/ (exists good bad rest,
        rows = good ++ bad :: rest /\ Forall (row_ok n) good
        /\ ((~ is_list bad
             /\ check_nodes name n i rows
                = Some (NodeNotArray name (i + List.length good)))
            \/ (exists cells,
                  bad = PyList cells /\ List.length cells <> n
                  /\ check_nodes name n i rows
                     = Some (NodeWrongLength name (i + List.length good)
                               (List.length cells) n)))).
Proof.
  revert i; induction rows as [|row rows IH]; intros i.
  - left; simpl; auto.
  - assert (NL : forall v, (forall l, v <> PyList l) -> ~ is_list v)
      by (intros v Hv (l & E); exact (Hv l E)).
    destruct row as [ |b0|z0|f0|s0|cells|items0];
      try (right; eexists [], _, rows; split; [reflexivity|];
           split; [constructor|]; left; split;
           [apply NL; intros; discriminate
           | simpl; now rewrite Nat.add_0_r]).
    simpl check_nodes.
    destruct (Nat.eqb_spec (List.length cells) n) as [En|En].
    + destruct (IH (S i)) as [[Hn Hall] | (good & bad & rest & -> & Hg & Hc)].
      * left; split; [exact Hn|].
        constructor; [apply row_ok_list|]; auto.
      * right; exists (PyList cells :: good), bad, rest.
        split; [reflexivity|].
        split; [constructor; [apply row_ok_list|]; auto|].
        simpl List.length.
        replace (i + S (List.length good)) with (S i + List.length good)
          by lia.
        exact Hc.
    + right; exists [], (PyList cells), rows.
      split; [reflexivity|]; split; [constructor|].
      right; exists cells; simpl; rewrite Nat.add_0_r; auto.
Qed.

Lemma schema_check (nf : list pyval) :
  negb (eq_str_list (map lower_field nf) EXPECTED_FIELDS) = false
  <-> folds_to_schema nf.
Proof.
  rewrite negb_false_iff; apply eq_str_list_folds.
Qed.

Lemma validate_structure_sound (doc : pyval) (name : string) :
  first_failure name doc (validate_structure doc name).
Proof.
  assert (ND : forall v, (forall l, v <> PyDict l) -> ~ is_dict v)
    by (intros v Hv (l & E); exact (Hv l E)).
  assert (NL : forall v, (forall l, v <> PyList l) -> ~ is_list v)
    by (intros v Hv (l & E); exact (Hv l E)).
  destruct doc as [ |b0|z0|f0|s0|l0|items];
    try (apply not_object, ND; intros; discriminate).
  unfold validate_structure.
  destruct (dict_get "nodeFormat" items) as [nf|] eqn:Enf;
    [|now apply no_nodeFormat].
  destruct (dict_get "nodes" items) as [nodes|] eqn:Enodes;
    [|now apply no_nodes with nf].
  destruct nf as [ |b0|z0|f0|s0|nfl|d0];
    try (eapply nodeFormat_not_array; eauto; apply NL; intros; discriminate).
  destruct nodes as [ |b0|z0|f0|s0|rows|d0];
    try (eapply nodes_not_array; eauto; apply NL; intros; discriminate).
  cbv zeta.
  destruct (negb (eq_str_list (map lower_field nfl) EXPECTED_FIELDS)) eqn:Es.
  - apply schema_mismatch with rows; auto.
    intros F; apply schema_check in F; congruence.
  - apply schema_check in Es.
    destruct (check_nodes_cases name (List.length nfl) 0 rows)
      as [[Hn Hall] | (good & bad & rest & -> & Hg & [[Hb Hc] | (cells & -> & Hl & Hc)])];
      rewrite ?Hn, ?Hc; simpl.
    + apply all_pass; exists items, nfl, rows; auto.
    + eapply row_not_array; eauto.
    + eapply row_wrong_length; eauto.
Qed.

Lemma validate_structure_complete (doc : pyval) (name : string)
    (r : option message) :
  first_failure name doc r -> validate_structure doc name = r.
Proof.
  intros H; inversion H; subst; clear H; unfold validate_structure.
  - destruct doc; try reflexivity. exfalso; apply H0; eexists; eauto.
  - now rewrite H0.
  - now rewrite H0, H1.
  - rewrite H0, H1.
    destruct nf; try reflexivity. exfalso; apply H2; eexists; eauto.
  - rewrite H0, H1.
    destruct nodes; try reflexivity. exfalso; apply H2; eexists; eauto.
  - rewrite H0, H1; cbv zeta.
    destruct (negb (eq_str_list (map lower_field nf) EXPECTED_FIELDS)) eqn:Es;
      [reflexivity|].
    apply schema_check in Es; contradiction.
  - rewrite H0, H1; cbv zeta.
    apply schema_check in H2; rewrite H2.
    rewrite (check_nodes_skip _ _ _ _ _ H3); simpl.
    destruct bad; try reflexivity. exfalso; apply H4; eexists; eauto.
  - rewrite H0, H1; cbv zeta.
    apply schema_check in H2; rewrite H2.
    rewrite (check_nodes_skip _ _ _ _ _ H3); simpl.
    apply Nat.eqb_neq in H4; now rewrite H4.
  - destruct H0 as (items & nf & rows & -> & Hnf & Hrows & Hs & Hall).
    rewrite Hnf, Hrows; cbv zeta.
    apply schema_check in Hs; rewrite Hs.
    rewrite <- (app_nil_r rows), (check_nodes_skip _ _ _ _ _ Hall).
    reflexivity.
Qed.

(** C3.  [validate_structure] returns [None] exactly on the valid
    documents (a keyed mapping with both keys, both sequences, the
    case-folded [nodeFormat] equal to the canonical schema, every row a
    sequence of [len(nodeFormat)] cells); otherwise it returns the message
    of the first check that fails, in the fixed order of the seven checks,
    and that message names the key or the row index at fault. *)
Theorem validate_structure_checks (doc : pyval) (name : string) :
  (validate_structure doc name = None <-> valid_document doc)
  /\ (forall r, validate_structure doc name = r <-> first_failure name doc r).
Proof.
  assert (S : forall r, validate_structure doc name = r
                        <-> first_failure name doc r).
  { intros r; split.
    - intros <-; apply validate_structure_sound.
    - apply validate_structure_complete. }
  split; [|exact S].
  rewrite S; split.
  - intros H; inversion H; auto.
  - apply all_pass.
Qed.

End StructuralValidator.

Lemma validate_structure_checks_witness :
  validate_structure (Example.good_doc 100) "test.json" = None
  <-> Structure.valid_document (Example.good_doc 100).
Proof.
  exact (proj1 (validate_structure_checks (Example.good_doc 100)
                  "test.json")).
Defined.

(* ================================================================== *)
(** * Lists, sorting and counters *)
(* ================================================================== *)

Section ListFacts.

Lemma insert_sorted_perm (n : string) (l : list string) :
  Permutation (insert_sorted n l) (n :: l).
Proof.
  induction l as [|m l IH]; simpl; [reflexivity|].
  destruct (n <=? m)%string; [reflexivity|].
  rewrite IH; apply perm_swap.
Qed.

Lemma sorted_perm (l : list string) : Permutation (sorted l) l.
Proof.
  induction l as [|n l IH]; simpl; [reflexivity|].
  rewrite insert_sorted_perm; now constructor.
Qed.

Lemma sorted_In (l : list string) (n : string) : In n (sorted l) <-> In n l.
Proof.
  split; apply Permutation_in; [|symmetry]; apply sorted_perm.
Qed.

Lemma sorted_NoDup (l : list string) : NoDup l -> NoDup (sorted l).
Proof.
  intros H; eapply Permutation_NoDup; [symmetry; apply sorted_perm | exact H].
Qed.

Lemma glob_json_In (d : directory) (n : string) :
  In n (glob_json d) <->
  In n (map fst d) /\ PyStr.endswith n ".json" = true.
Proof. unfold glob_json; rewrite filter_In; reflexivity. Qed.

Lemma glob_json_NoDup (d : directory) :
  NoDup (map fst d) -> NoDup (glob_json d).
Proof. apply NoDup_filter. Qed.

Lemma not_in_iff (n : string) (names : list string) :
  not_in n names = true <-> ~ In n names.
Proof.
  unfold not_in; rewrite negb_true_iff; split.
  - intros H Hin.
    assert (E : existsb (String.eqb n) names = true)
      by (apply existsb_exists; exists n; split; auto; apply String.eqb_refl).
    congruence.
  - intros H; destruct (existsb (String.eqb n) names) eqn:E; [|reflexivity].
    apply existsb_exists in E as (m & Hm & Em).
    apply String.eqb_eq in Em; subst; contradiction.
Qed.

Lemma count_nonneg {A : Type} (f : A -> bool) (l : list A) : (0 <= count f l)%Z.
Proof. unfold count; lia. Qed.

Lemma count_cons {A : Type} (f : A -> bool) (a : A) (l : list A) :
  count f (a :: l) = ((if f a then 1 else 0) + count f l)%Z.
Proof. unfold count; simpl; destruct (f a); simpl List.length; lia. Qed.

Lemma count_nil {A : Type} (f : A -> bool) : count f [] = 0%Z.
Proof. reflexivity. Qed.

End ListFacts.

Section CounterFacts.

Local Open Scope Z_scope.

Lemma counters_add_zero (c : counters) : counters_add c zero_counters = c.
Proof. destruct c; unfold counters_add; simpl; f_equal; lia. Qed.

Lemma counters_add_assoc (a b c : counters) :
  counters_add (counters_add a b) c = counters_add a (counters_add b c).
Proof. unfold counters_add; simpl; f_equal; lia. Qed.

Lemma extend_nothing (st : run) : extend st [] [] zero_counters [] = st.
Proof.
  destruct st; unfold extend; simpl.
  now rewrite !app_nil_r, counters_add_zero.
Qed.

Lemma extend_extend (st : run) e1 w1 c1 t1 e2 w2 c2 t2 :
  extend (extend st e1 w1 c1 t1) e2 w2 c2 t2
  = extend st (e1 ++ e2) (w1 ++ w2) (counters_add c1 c2) (t1 ++ t2).
Proof.
  unfold extend; simpl.
  now rewrite !app_assoc, counters_add_assoc.
Qed.

End CounterFacts.

(* ================================================================== *)
(** * Pass 1 *)
(* ================================================================== *)

Section Pass1.

Variable json_load : list byte -> json_result.

Lemma pass1_counts_cons (raw : directory) (fp : string) (rest : list string) :
  pass1_counts json_load raw (fp :: rest)
  = counters_add (pass1_counts json_load raw [fp])
      (pass1_counts json_load raw rest).
Proof.
  unfold pass1_counts, counters_add; simpl.
  rewrite !count_cons, !count_nil; f_equal; lia.
Qed.

(** One iteration of the reading loop, as what it adds to the run. *)
Lemma check_file_spec (raw : directory) (fp : string) (st : run)
    (valid : list string) (pn : list (string * parts)) :
  crashes json_load raw fp = false ->
  check_file json_load raw fp (st, valid, pn)
  = Ok (extend st (file_errors json_load raw fp) (file_warnings fp)
          (pass1_counts json_load raw [fp]) (file_trace json_load raw fp),
        valid ++ (if is_accepted json_load raw fp then [fp] else []),
        set_all (file_parsed json_load raw fp) pn).
Proof.
  unfold crashes, check_file, file_trace, file_errors, file_warnings,
    file_parsed, is_accepted, pass1_counts.
  rewrite !count_cons, !count_nil.
  unfold is_bad_json, is_bad_structure, unparsable, classify.
  destruct st as [e w c o t], c.
  destruct (parse_filename fp) as [p|];
    (destruct (open_load json_load raw fp) as [doc|exc|];
     [destruct (validate_structure doc fp) as [err|] | | discriminate]);
    intros _;
    unfold extend, counters_add, set_all, upd_stats, add_error, add_warning,
      log, add_bad_pattern, add_bad_json, add_bad_structure; simpl;
    rewrite ?app_nil_r, ?Z.add_0_r, <- ?app_assoc; simpl; reflexivity.
Qed.

(** A file that makes [json.load] raise an exception the loop does not
    catch: the exception leaves the run with the warning for the name, if
    there was one, and the read begun. *)
Lemma check_file_crash (raw : directory) (fp : string) (st : run)
    (valid : list string) (pn : list (string * parts)) :
  crashes json_load raw fp = true ->
  check_file json_load raw fp (st, valid, pn)
  = Raise (LoadRaised fp)
      (extend st (file_errors json_load raw fp) (file_warnings fp)
         (pass1_counts json_load raw [fp]) (file_trace json_load raw fp)).
Proof.
  unfold crashes, check_file, file_trace, file_errors, file_warnings,
    pass1_counts.
  rewrite !count_cons, !count_nil.
  unfold is_bad_json, is_bad_structure, unparsable, classify.
  destruct st as [e w c o t], c.
  destruct (parse_filename fp) as [p|];
    (destruct (open_load json_load raw fp) as [doc|exc|];
     [destruct (validate_structure doc fp) as [err|]; discriminate
     | discriminate | ]);
    intros _;
    unfold extend, counters_add, upd_stats, add_warning, log,
      add_bad_pattern; simpl;
    rewrite ?app_nil_r, ?Z.add_0_r, <- ?app_assoc; simpl; reflexivity.
Qed.

(** The reading loop over a list of files none of which makes [json.load]
    raise an exception the loop does not catch. *)
Lemma pass1_spec (raw : directory) (files : list string) :
  forall (st : run) (valid : list string) (pn : list (string * parts)),
  forallb (fun fp => negb (crashes json_load raw fp)) files = true ->
  pass1 json_load raw files (st, valid, pn)
  = Ok (extend st (flat_map (file_errors json_load raw) files)
          (flat_map file_warnings files)
          (pass1_counts json_load raw files)
          (flat_map (file_trace json_load raw) files),
        valid ++ filter (is_accepted json_load raw) files,
        set_all (flat_map (file_parsed json_load raw) files) pn).
Proof.
  induction files as [|fp rest IH]; intros st valid pn H.
  - simpl. unfold pass1_counts; rewrite !count_nil.
    change (mkCounters 0 0 0 0 0 0 0 0 0) with zero_counters.
    now rewrite extend_nothing, app_nil_r.
  - simpl in H; apply andb_true_iff in H as [Hfp Hrest].
    apply negb_true_iff in Hfp.
    cbn [pass1]; rewrite (check_file_spec _ _ _ _ _ Hfp).
    rewrite (IH _ _ _ Hrest), extend_extend, <- pass1_counts_cons.
    cbn [flat_map filter].
    unfold set_all; rewrite fold_left_app.
    destruct (is_accepted json_load raw fp); simpl;
      now rewrite <- ?app_assoc.
Qed.

(** The loop raises exactly when some file does. *)
Lemma pass1_returns (raw : directory) (files : list string) :
  forall (acc res : pass1_state),
  pass1 json_load raw files acc = Ok res ->
  forallb (fun fp => negb (crashes json_load raw fp)) files = true.
Proof.
  induction files as [|fp rest IH]; intros acc res H; [reflexivity|].
  cbn [pass1] in H; simpl.
  destruct (crashes json_load raw fp) eqn:C.
  - destruct acc as [[st valid] pn].
    now rewrite (check_file_crash _ _ _ _ _ C) in H.
  - destruct (check_file json_load raw fp acc) as [acc'|e s];
      [|discriminate].
    simpl; eapply IH; eauto.
Qed.

End Pass1.

(* ================================================================== *)
(** * Grouping with [setdefault] *)
(* ================================================================== *)

Section Grouping.

Context {A : Type} (key val : A -> string).

Implicit Types (G : list (string * list string)) (k v : string).

Lemma sda_fresh k v G :
  ~ In k (map fst G) -> Dict.setdefault_append k v G = G ++ [(k, [v])].
Proof.
  induction G as [|[k' vs] G IH]; simpl; intros H; [reflexivity|].
  destruct (String.eqb_spec k' k) as [->|Hk]; [tauto|].
  rewrite IH; tauto.
Qed.

Lemma sda_keys_present k v G :
  In k (map fst G) -> map fst (Dict.setdefault_append k v G) = map fst G.
Proof.
  induction G as [|[k' vs] G IH]; simpl; intros H; [tauto|].
  destruct (String.eqb_spec k' k) as [->|Hk]; simpl; [reflexivity|].
  rewrite IH; tauto.
Qed.

Lemma sda_NoDup k v G :
  NoDup (map fst G) -> NoDup (map fst (Dict.setdefault_append k v G)).
Proof.
  intros H; destruct (in_dec string_dec k (map fst G)) as [Hin|Hout].
  - now rewrite sda_keys_present.
  - rewrite (sda_fresh _ _ _ Hout), map_app; simpl.
    apply NoDup_app; repeat split; auto.
    + constructor; [simpl; tauto | constructor].
    + intros x Hx [<-|[]]; contradiction.
Qed.

(** The entries after the call: entries under other keys are kept, and
    the entry under [k] is the old one with [v] appended, or [[v]]. *)
Lemma sda_entries k v G k' p' :
  NoDup (map fst G) ->
  In (k', p') (Dict.setdefault_append k v G) ->
  (k' <> k /\ In (k', p') G)
  \/ (k' = k /\ exists old, In (k, old) G /\ p' = old ++ [v])
  \/ (k' = k /\ ~ In k (map fst G) /\ p' = [v]).
Proof.
  induction G as [|[k0 vs] G IH]; simpl; intros ND H.
  - destruct H as [H|[]]; inversion H; subst; right; right; tauto.
  - inversion ND as [|? ? Hk0 ND']; subst.
    destruct (String.eqb_spec k0 k) as [->|Hk].
    + destruct H as [H|H].
      * inversion H; subst; right; left; split; auto.
        exists vs; auto.
      * left; split; auto.
        intros ->; apply Hk0, (in_map fst _ _ H).
    + destruct H as [H|H].
      * inversion H; subst; left; auto.
      * destruct (IH ND' H) as [[H1 H2] | [(H1 & old & H2 & H3) | (H1 & H2 & H3)]].
        -- left; auto.
        -- right; left; split; auto; exists old; auto.
        -- right; right; repeat split; auto; intros [E|E]; auto.
Qed.

Lemma sda_keeps k v G k' p' :
  k' <> k -> In (k', p') G -> In (k', p') (Dict.setdefault_append k v G).
Proof.
  induction G as [|[k0 vs] G IH]; simpl; intros Hk H; [tauto|].
  destruct (String.eqb_spec k0 k) as [->|Hk0]; simpl.
  - destruct H as [H|H]; [inversion H; subst; contradiction | auto].
  - destruct H as [H|H]; auto.
Qed.

Lemma sda_has_key k v G :
  exists p, In (k, p) (Dict.setdefault_append k v G) /\ In v p.
Proof.
  induction G as [|[k0 vs] G IH]; simpl.
  - exists [v]; simpl; auto.
  - destruct (String.eqb_spec k0 k) as [->|Hk0]; simpl.
    + exists (vs ++ [v]); split; auto.
      apply in_or_app; simpl; auto.
    + destruct IH as (p & H1 & H2); exists p; auto.
Qed.

Lemma filter_snoc (f : A -> bool) (l : list A) (a : A) :
  filter f (l ++ [a]) = filter f l ++ (if f a then [a] else []).
Proof. rewrite filter_app; reflexivity. Qed.

(** One more item keeps the dictionary a grouping. *)
Lemma grouping_step (l : list A) (a : A) G :
  grouping key val l G ->
  grouping key val (l ++ [a])
    (Dict.setdefault_append (key a) (val a) G).
Proof.
  intros (ND & Hent & Hall).
  split; [|split; [intros k paths H; split|]].
  - now apply sda_NoDup.
  - apply sda_entries in H as [[Hk Hin] | [(-> & old & Hin & ->) | (-> & Hout & ->)]];
      auto.
    + apply Hent in Hin; tauto.
    + intros E; apply app_eq_nil in E as [_ E]; discriminate.
    + discriminate.
  - apply sda_entries in H as [[Hk Hin] | [(-> & old & Hin & ->) | (-> & Hout & ->)]];
      auto; rewrite filter_snoc, map_app.
    + destruct (String.eqb_spec (key a) k) as [E|E]; [congruence|].
      simpl; rewrite app_nil_r; now apply Hent.
    + rewrite String.eqb_refl; simpl; f_equal; now apply Hent.
    + rewrite String.eqb_refl; simpl.
      replace (filter (fun a0 => key a0 =? key a) l) with (@nil A);
        [reflexivity|].
      symmetry; destruct (filter _ l) as [|b bs] eqn:F; [reflexivity|].
      assert (Hb : In b (filter (fun a0 => key a0 =? key a) l))
        by (rewrite F; simpl; auto).
      apply filter_In in Hb as [Hb Eb]; apply String.eqb_eq in Eb.
      destruct (Hall b Hb) as (p & Hp); rewrite Eb in Hp.
      exfalso; apply Hout, (in_map fst _ _ Hp).
  - intros b Hb; apply in_app_or in Hb as [Hb|[Eb|[]]]; [|subst b].
    + destruct (Hall b Hb) as (p & Hp).
      destruct (string_dec (key b) (key a)) as [E|E].
      * rewrite E; destruct (sda_has_key (key a) (val a) G) as (q & Hq & _);
          eauto.
      * exists p; now apply sda_keeps.
    + destruct (sda_has_key (key a) (val a) G) as (q & Hq & _); eauto.
Qed.

Lemma grouping_nil : grouping key val [] [].
Proof.
  split; [constructor | split; simpl; [intros k p [] | intros a []]].
Qed.

Lemma group_by_grouping (l' : list A) :
  forall (l : list A) G,
  grouping key val l G -> grouping key val (l ++ l') (group_by key val l' G).
Proof.
  induction l' as [|a l' IH]; intros l G H; simpl.
  - now rewrite app_nil_r.
  - replace (l ++ a :: l') with ((l ++ [a]) ++ l')
      by (now rewrite <- app_assoc).
    apply IH, grouping_step, H.
Qed.

(** In a grouping no group is empty, so the extra copies are the sizes
    less one, summed. *)
Lemma extra_copies_sizes (l : list A) G :
  grouping key val l G -> extra_copies G = sizes_minus_one G.
Proof.
  intros (_ & Hent & _).
  assert (H : forall g, In g G -> snd g <> [])
    by (intros [k p] Hg; apply (Hent k p Hg)).
  clear Hent; induction G as [|g G IH]; simpl; [reflexivity|].
  rewrite IH by (intros; apply H; simpl; auto).
  assert (Hg : snd g <> []) by (apply H; simpl; auto).
  destruct (snd g) as [|x [|y p]]; [contradiction| |]; simpl List.length;
    [reflexivity|].
  replace (1 <? S (S (List.length p)))%nat with true
    by (symmetry; apply Nat.ltb_lt; lia).
  reflexivity.
Qed.

(** Two items with one key are in one group. *)
Lemma grouping_same_key (l : list A) G (a b : A) :
  grouping key val l G -> In a l -> In b l -> key a = key b ->
  exists paths,
    In (key a, paths) G /\ In (val a) paths /\ In (val b) paths.
Proof.
  intros (_ & Hent & Hall) Ha Hb E.
  destruct (Hall a Ha) as (p & Hp); exists p; split; auto.
  destruct (Hent _ _ Hp) as [_ ->].
  split; apply in_map, filter_In; split; auto;
    [apply String.eqb_refl | rewrite E; apply String.eqb_refl].
Qed.

(** When all items have one key there is one group, of all of them. *)
Lemma grouping_single (l : list A) G (k : string) :
  grouping key val l G -> l <> [] -> (forall a, In a l -> key a = k) ->
  G = [(k, map val l)].
Proof.
  intros (ND & Hent & Hall) Hne Hk.
  assert (F : filter (fun a => key a =? k) l = l).
  { clear -Hk; induction l as [|a l IH]; simpl; [reflexivity|].
    rewrite (Hk a (or_introl eq_refl)), String.eqb_refl, IH; auto.
    intros; apply Hk; simpl; auto. }
  assert (E : forall k' p, In (k', p) G -> (k', p) = (k, map val l)).
  { intros k' p Hin; destruct (Hent _ _ Hin) as [Hp ->].
    destruct (filter (fun a => key a =? k') l) as [|b bs] eqn:Fb;
      [contradiction|].
    assert (Hb : In b (filter (fun a => key a =? k') l))
      by (rewrite Fb; simpl; auto).
    apply filter_In in Hb as [Hb Eb]; apply String.eqb_eq in Eb.
    rewrite (Hk b Hb) in Eb; subst k'; rewrite <- Fb, F; reflexivity. }
  destruct l as [|a l]; [contradiction|].
  destruct (Hall a (or_introl eq_refl)) as (p & Hp).
  destruct G as [|g1 [|g2 G]]; [contradiction| |].
  - destruct g1 as [k1 p1]; rewrite (E k1 p1); simpl; auto.
  - exfalso.
    destruct g1 as [k1 p1], g2 as [k2 p2].
    assert (E1 := E k1 p1 (or_introl eq_refl)).
    assert (E2 := E k2 p2 (or_intror (or_introl eq_refl))).
    inversion E1; inversion E2; subst.
    inversion ND as [|? ? Hn _]; apply Hn; simpl; auto.
Qed.

End Grouping.

(* ================================================================== *)
(** * Passes 2 and 3: the reporting loops *)
(* ================================================================== *)

Section Reporting.

Local Open Scope Z_scope.

Variable mk : string -> string -> message.
Variable add : Z -> counters -> counters.
Variable delta : Z -> counters.
Hypothesis add_delta : forall n c, add n c = counters_add c (delta n).
Hypothesis delta_zero : delta 0 = zero_counters.
Hypothesis delta_plus :
  forall n m, counters_add (delta n) (delta m) = delta (n + m).

Lemma report_groups_spec (G : list (string * list string)) :
  forall st : run,
  report_groups mk add G st
  = extend st (group_errors mk G) [] (delta (extra_copies G))
      (map (Append Error) (group_errors mk G)).
Proof.
  induction G as [|[k paths] G IH]; intros st; simpl.
  - now rewrite delta_zero, extend_nothing.
  - rewrite IH; destruct (1 <? List.length paths)%nat; simpl.
    + unfold upd_stats, add_error; rewrite add_delta.
      unfold extend; simpl.
      now rewrite <- !app_assoc, counters_add_assoc, delta_plus.
    + reflexivity.
Qed.

End Reporting.

Section LaterPasses.

Local Open Scope Z_scope.

Variable sha256 : list byte -> string.

Lemma report_hash_dupes_spec (G : list (string * list string)) (st : run) :
  report_hash_dupes G st
  = extend st (group_errors (fun _ names => ContentHashDuplicate names) G) []
      (hash_delta (extra_copies G))
      (map (Append Error)
         (group_errors (fun _ names => ContentHashDuplicate names) G)).
Proof.
  apply report_groups_spec; intros; unfold hash_delta, counters_add; simpl;
    try reflexivity.
  - destruct c; unfold add_hash_dupes; simpl; f_equal; lia.
Qed.

Lemma report_slot_collisions_spec (G : list (string * list string))
    (st : run) :
  report_slot_collisions G st
  = extend st (group_errors SlotCollision G) []
      (slot_delta (extra_copies G))
      (map (Append Error) (group_errors SlotCollision G)).
Proof.
  apply report_groups_spec; intros; unfold slot_delta, counters_add; simpl;
    try reflexivity.
  - destruct c; unfold add_slot_collisions; simpl; f_equal; lia.
Qed.

(** The hashing loop over names that are regular files. *)
Lemma hash_files_spec (raw : directory) (valid : list string) :
  forall (st : run) (G : list (string * list string)),
  Forall (fun fp => bytes_of raw fp <> None) valid ->
  hash_files sha256 raw valid (st, G)
  = Ok (extend st [] [] zero_counters (map HashRead valid),
        group_by (fingerprint sha256 raw) (fun fp => fp) valid G).
Proof.
  induction valid as [|fp rest IH]; intros st G H; simpl.
  - now rewrite extend_nothing.
  - inversion H as [|? ? Hfp Hrest]; subst.
    assert (F : file_hash sha256 raw fp = Ok (fingerprint sha256 raw fp)).
    { unfold file_hash, fingerprint; unfold bytes_of in Hfp.
      destruct (lookup fp raw) as [[data|]|]; try contradiction; auto. }
    rewrite F, (IH _ _ Hrest).
    unfold extend, log; simpl.
    now rewrite !app_nil_r, <- app_assoc, !counters_add_zero.
Qed.

Lemma content_hash_pass_spec (raw : directory) (valid : list string)
    (st : run) :
  Forall (fun fp => bytes_of raw fp <> None) valid ->
  let G := group_by (fingerprint sha256 raw) (fun fp => fp) valid [] in
  let errs := group_errors (fun _ names => ContentHashDuplicate names) G in
  content_hash_pass sha256 raw valid st
  = Ok (extend st errs [] (hash_delta (extra_copies G))
          (map HashRead valid ++ map (Append Error) errs)).
Proof.
  intros H G errs; unfold content_hash_pass.
  rewrite (hash_files_spec _ _ _ _ H), report_hash_dupes_spec, extend_extend.
  fold G; fold errs; simpl.
  unfold hash_delta, counters_add; simpl; reflexivity.
Qed.

Lemma slot_pass_spec (parsed_names : list (string * parts)) (st : run) :
  let S := group_by (fun item : string * parts => slot_key (snd item))
             (fun item => fst item) parsed_names [] in
  slot_pass parsed_names st
  = extend st (group_errors SlotCollision S) []
      (slot_delta (extra_copies S))
      (map (Append Error) (group_errors SlotCollision S)).
Proof.
  intros S; unfold slot_pass; now rewrite report_slot_collisions_spec.
Qed.

End LaterPasses.

(* ================================================================== *)
(** * Pass 4: the orphan loop *)
(* ================================================================== *)

Section OrphanLoop.

Local Open Scope Z_scope.

Lemma unlink_ok (denied : list string) (out_fp : string) (st st' : run) :
  unlink denied out_fp st = Ok st' ->
  exists d data,
    out_disk st = Some d /\ lookup out_fp d = Some (File data)
    /\ existsb (String.eqb out_fp) denied = false
    /\ st' = log (Unlink out_fp)
               (set_out_disk (Some (remove_entry out_fp d)) st).
Proof.
  unfold unlink.
  destruct (out_disk st) as [d|]; [|discriminate].
  destruct (lookup out_fp d) as [[data|]|] eqn:L; try discriminate.
  destruct (existsb (String.eqb out_fp) denied) eqn:D; [discriminate|].
  intros H; inversion H; exists d, data; auto.
Qed.

(** When the loop returns, it has reported the orphans of the listing in
    order and, with [delete_orphans], unlinked each one after its
    report. *)
Lemma orphan_loop_ok (dir_name : string) (denied raw_names : list string)
    (delete_orphans : bool) (listing : list string) :
  forall st st' : run,
  orphan_loop dir_name denied raw_names delete_orphans listing st = Ok st' ->
  st' = after_orphans dir_name delete_orphans
          (orphan_names raw_names listing) st.
Proof.
  induction listing as [|n rest IH]; intros st st' H; simpl in H.
  - inversion H; subst; unfold after_orphans, orphan_names; simpl.
    destruct st' as [e w c o t], delete_orphans; simpl;
      rewrite !app_nil_r, ?counters_add_zero;
      try (destruct o); try reflexivity;
      change (orphan_delta 0 0) with zero_counters;
      now rewrite counters_add_zero.
  - unfold orphan_names; simpl filter.
    destruct (not_in n raw_names) eqn:Hn; [|now apply IH].
    destruct delete_orphans.
    + destruct (unlink denied n _) as [st1|e s] eqn:U; [|discriminate].
      apply unlink_ok in U as (d & data & Hd & Hl & _ & ->).
      apply IH in H; rewrite H; clear H.
      simpl in Hd.
      unfold after_orphans, orphan_names; simpl.
      rewrite Hd; simpl.
      rewrite <- !app_assoc; simpl.
      f_equal.
      destruct (stats st); unfold counters_add, orphan_delta; simpl.
      f_equal; lia.
    + apply IH in H; rewrite H; clear H.
      unfold after_orphans, orphan_names; simpl.
      rewrite <- !app_assoc; simpl.
      f_equal.
      destruct (stats st); unfold counters_add, orphan_delta; simpl.
      f_equal; lia.
Qed.

(** Without [delete_orphans] the loop always returns. *)
Lemma orphan_loop_detect_only (dir_name : string)
    (denied raw_names : list string) (listing : list string) :
  forall st : run,
  exists st',
    orphan_loop dir_name denied raw_names false listing st = Ok st'.
Proof.
  induction listing as [|n rest IH]; intros st; simpl; eauto.
  destruct (not_in n raw_names); apply IH.
Qed.

End OrphanLoop.

(* ================================================================== *)
(** * The whole run *)
(* ================================================================== *)

Section WholeRun.

Local Open Scope Z_scope.

Variable json_load : list byte -> json_result.
Variable sha256 : list byte -> string.

Lemma accepted_is_file (raw : directory) (fp : string) :
  is_accepted json_load raw fp = true -> bytes_of raw fp <> None.
Proof.
  unfold is_accepted, classify, open_load, bytes_of.
  destruct (lookup fp raw) as [[data|]|]; discriminate.
Qed.

Lemma valid_set_files (raw_dir : dirpath) :
  Forall (fun fp => bytes_of (raw_entries raw_dir) fp <> None)
    (valid_set json_load raw_dir).
Proof.
  apply Forall_forall; intros fp H.
  apply filter_In in H as [_ H]; now apply accepted_is_file.
Qed.

(** What [validate_raw] returns, when it returns. *)
Theorem validate_raw_expected (raw_dir : dirpath)
    (output_dir : option dirpath) (delete_orphans : bool) (r : run) :
  validate_raw json_load sha256 raw_dir output_dir delete_orphans = Ok r ->
  r = expected_run json_load sha256 raw_dir output_dir delete_orphans
  /\ forallb (fun fp => negb (crashes json_load (raw_entries raw_dir) fp))
       (scanned raw_dir) = true.
Proof.
  unfold validate_raw, expected_run.
  fold (scanned raw_dir).
  destruct (scanned raw_dir) as [|f fs] eqn:Sc.
  - intros H; inversion H; split; reflexivity.
  - rewrite <- Sc.
    destruct (pass1 _ _ _ _) as [[[st valid] pn]|e] eqn:P1; [|discriminate].
    assert (NC := pass1_returns _ _ _ _ _ P1).
    intros H; split; [revert H | exact NC].
    rewrite (pass1_spec _ _ _ _ _ _ NC) in P1.
    inversion P1; subst st valid pn; clear P1.
    fold (valid_set json_load raw_dir).
    rewrite (content_hash_pass_spec sha256 _ _ _ (valid_set_files raw_dir)).
    cbv zeta.
    rewrite slot_pass_spec; cbv zeta.
    fold (parsed_set json_load raw_dir).
    fold (hash_groups json_load sha256 raw_dir).
    fold (slot_groups json_load raw_dir).
    fold (hash_errors json_load sha256 raw_dir).
    fold (slot_errors json_load raw_dir).
    match goal with
    | |- orphan_pass _ _ _ ?st = _ -> _ =>
        assert (B : st = before_orphans json_load sha256 raw_dir output_dir)
    end.
    { unfold before_orphans, extend, upd_stats, log, initial_run,
        set_valid_files, set_total_files, pass1_counts, hash_delta,
        slot_delta, counters_add, zero_counters.
      cbn [errors warnings stats out_disk trace total_files valid_files
           bad_pattern bad_json bad_structure hash_dupes slot_collisions
           orphans orphans_deleted].
      rewrite !app_nil_r, !Z.add_0_l, !Z.add_0_r.
      cbn [app]; rewrite <- !app_assoc; reflexivity. }
    rewrite B; clear B.
    unfold orphan_pass, out_listing, orphan_set, out_listing.
    destruct output_dir as [od|]; [|intros H; inversion H; reflexivity].
    destruct (on_disk od) as [d|]; [|intros H; inversion H; reflexivity].
    apply orphan_loop_ok.
Qed.


(** The fields of the returned run that do not depend on the orphan
    pass, as one formula for the empty and the non-empty raw directory. *)
Lemma scanned_empty (raw_dir : dirpath) :
  scanned raw_dir = [] ->
  valid_set json_load raw_dir = [] /\ parsed_set json_load raw_dir = []
  /\ hash_groups json_load sha256 raw_dir = []
  /\ slot_groups json_load raw_dir = [].
Proof.
  unfold valid_set, parsed_set, hash_groups, slot_groups, valid_set,
    parsed_set.
  intros ->; simpl; auto.
Qed.

Lemma expected_errors (raw_dir : dirpath) (output_dir : option dirpath)
    (delete_orphans : bool) :
  errors (expected_run json_load sha256 raw_dir output_dir delete_orphans)
  = flat_map (file_errors json_load (raw_entries raw_dir)) (scanned raw_dir)
    ++ hash_errors json_load sha256 raw_dir ++ slot_errors json_load raw_dir.
Proof.
  unfold expected_run.
  destruct (scanned raw_dir) as [|f fs] eqn:Sc.
  - destruct (scanned_empty _ Sc) as (_ & _ & Hh & Hs).
    unfold hash_errors, slot_errors; rewrite Hh, Hs; reflexivity.
  - rewrite <- Sc.
    destruct (out_listing output_dir) as [[dn d]|]; simpl; now rewrite Sc.
Qed.

Lemma expected_stats (raw_dir : dirpath) (output_dir : option dirpath)
    (delete_orphans : bool) :
  let s := stats (expected_run json_load sha256 raw_dir output_dir
                    delete_orphans) in
  let raw := raw_entries raw_dir in
  let files := scanned raw_dir in
  total_files s = Z.of_nat (List.length files)
  /\ valid_files s = Z.of_nat (List.length (valid_set json_load raw_dir))
  /\ bad_pattern s = count unparsable files
  /\ bad_json s = count (is_bad_json json_load raw) files
  /\ bad_structure s = count (is_bad_structure json_load raw) files
  /\ hash_dupes s = extra_copies (hash_groups json_load sha256 raw_dir)
  /\ slot_collisions s = extra_copies (slot_groups json_load raw_dir)
  /\ 0 <= orphans s /\ 0 <= orphans_deleted s.
Proof.
  unfold expected_run; cbv zeta.
  destruct (scanned raw_dir) as [|f fs] eqn:Sc.
  - destruct (scanned_empty _ Sc) as (Hv & _ & Hh & Hs).
    rewrite Hv, Hh, Hs; simpl; repeat split; reflexivity || lia.
  - rewrite <- Sc.
    destruct (out_listing output_dir) as [[dn d]|]; simpl;
      rewrite ?Z.add_0_r, ?Z.add_0_l; repeat split;
      try reflexivity; try lia; destruct delete_orphans; lia.
Qed.

End WholeRun.

(* ================================================================== *)
(** * The counters *)
(* ================================================================== *)

Section Counters.

Local Open Scope Z_scope.

Variable json_load : list byte -> json_result.
Variable sha256 : list byte -> string.

(** Every file that does not make the run raise is valid, bad JSON or
    bad structure, and only one of them. *)
Lemma verdict_partition (raw : directory) (files : list string) :
  forallb (fun fp => negb (crashes json_load raw fp)) files = true ->
  Z.of_nat (List.length files)
  = Z.of_nat (List.length (filter (is_accepted json_load raw) files))
    + count (is_bad_json json_load raw) files
    + count (is_bad_structure json_load raw) files.
Proof.
  induction files as [|fp rest IH]; [reflexivity|].
  simpl forallb; intros H; apply andb_true_iff in H as [Hfp Hrest].
  specialize (IH Hrest).
  rewrite !count_cons; cbn [filter List.length].
  rewrite Nat2Z.inj_succ.
  unfold crashes in Hfp.
  unfold is_accepted at 1, is_bad_json at 1, is_bad_structure at 1.
  destruct (classify json_load raw fp); try discriminate;
    cbn [List.length]; rewrite ?Nat2Z.inj_succ; lia.
Qed.

Lemma extra_copies_nonneg (G : list (string * list string)) :
  0 <= extra_copies G.
Proof.
  induction G as [|g G IH]; [simpl; lia|].
  unfold extra_copies in *; cbn [fold_right].
  destruct (Nat.ltb_spec 1 (List.length (snd g))); lia.
Qed.

(** C9.  In every run that returns, the scanned files are partitioned
    into valid, bad JSON and bad structure:
    [total_files = valid_files + bad_json + bad_structure]; [bad_pattern]
    counts the names that do not parse, whatever became of the file; and
    every counter is a non-negative integer. *)
Theorem counters_partition (raw_dir : dirpath) (output_dir : option dirpath)
    (delete_orphans : bool) (r : run) :
  validate_raw json_load sha256 raw_dir output_dir delete_orphans = Ok r ->
  total_files (stats r)
  = valid_files (stats r) + bad_json (stats r) + bad_structure (stats r)
  /\ total_files (stats r) = Z.of_nat (List.length (scanned raw_dir))
  /\ bad_pattern (stats r) = count unparsable (scanned raw_dir)
  /\ counters_nonneg (stats r).
Proof.
  intros H; apply validate_raw_expected in H as [-> NC].
  destruct (expected_stats json_load sha256 raw_dir output_dir delete_orphans)
    as (Ht & Hv & Hp & Hj & Hs & Hh & Hc & Ho & Hd).
  rewrite Ht, Hv, Hj, Hs.
  split; [apply (verdict_partition _ _ NC)|].
  split; [reflexivity|].
  split; [exact Hp|].
  unfold counters_nonneg.
  rewrite Ht, Hv, Hp, Hj, Hs, Hh, Hc.
  repeat split; auto using extra_copies_nonneg;
    try apply count_nonneg; lia.
Qed.

End Counters.

Lemma counters_partition_witness :
  validate_raw Example.json_load Example.sha256
    (Example.raw_at Example.mixed)
    (Some (Example.output_at Example.produced)) true
  = Ok Example.run_mixed
  /\ (total_files (stats Example.run_mixed)
      = valid_files (stats Example.run_mixed)
        + bad_json (stats Example.run_mixed)
        + bad_structure (stats Example.run_mixed)
      /\ total_files (stats Example.run_mixed)
         = Z.of_nat (List.length (scanned (Example.raw_at Example.mixed)))
      /\ bad_pattern (stats Example.run_mixed)
         = count unparsable (scanned (Example.raw_at Example.mixed))
      /\ counters_nonneg (stats Example.run_mixed))%Z.
Proof.
  split; [reflexivity|].
  apply (counters_partition Example.json_load Example.sha256
           (Example.raw_at Example.mixed)
           (Some (Example.output_at Example.produced)) true).
  reflexivity.
Defined.

(* ================================================================== *)
(** * What the report lists hold *)
(* ================================================================== *)

Section ReportLists.

Local Open Scope Z_scope.

Variable json_load : list byte -> json_result.
Variable sha256 : list byte -> string.

Lemma check_nodes_structural (name : string) (n : nat) (rows : list pyval) :
  forall (i : nat) (m : message),
  check_nodes name n i rows = Some m -> is_structural m = true.
Proof.
  induction rows as [|row rows IH]; intros i m; simpl; [discriminate|].
  destruct row; try (intros H; inversion H; reflexivity).
  destruct (List.length l =? n)%nat; [apply IH|].
  intros H; inversion H; reflexivity.
Qed.

Lemma validate_structure_structural (doc : pyval) (name : string)
    (m : message) :
  validate_structure doc name = Some m -> is_structural m = true.
Proof.
  unfold validate_structure.
  destruct doc; try (intros H; inversion H; reflexivity).
  destruct (dict_get "nodeFormat" items) as [nf|];
    [|intros H; inversion H; reflexivity].
  destruct (dict_get "nodes" items) as [nodes|];
    [|intros H; inversion H; reflexivity].
  destruct nf; try (intros H; inversion H; reflexivity).
  destruct nodes; try (intros H; inversion H; reflexivity).
  cbv zeta.
  destruct (negb _); [intros H; inversion H; reflexivity|].
  apply check_nodes_structural.
Qed.




Lemma expected_warnings (raw_dir : dirpath) (output_dir : option dirpath)
    (delete_orphans : bool) :
  scanned raw_dir <> [] ->
  warnings (expected_run json_load sha256 raw_dir output_dir delete_orphans)
  = flat_map file_warnings (scanned raw_dir)
    ++ map (OrphanIn (out_name output_dir)) (orphan_set raw_dir output_dir).
Proof.
  unfold expected_run, out_name, orphan_set.
  destruct (scanned raw_dir) as [|f fs] eqn:Sc; [contradiction|intros _].
  rewrite <- Sc.
  destruct (out_listing output_dir) as [[dn d]|]; simpl; rewrite Sc;
    [reflexivity | now rewrite app_nil_r].
Qed.

Lemma expected_trace (raw_dir : dirpath) (output_dir : option dirpath)
    (delete_orphans : bool) :
  scanned raw_dir <> [] ->
  trace (expected_run json_load sha256 raw_dir output_dir delete_orphans)
  = early_trace json_load sha256 raw_dir
    ++ match out_listing output_dir with
       | Some (dir_name, d) =>
           ListDir OutputDir (sorted (glob_json d))
           :: orphan_trace dir_name delete_orphans
                (orphan_set raw_dir output_dir)
       | None => []
       end.
Proof.
  unfold expected_run, early_trace, orphan_set.
  destruct (scanned raw_dir) as [|f fs] eqn:Sc; [contradiction|intros _].
  rewrite <- Sc.
  destruct (out_listing output_dir) as [[dn d]|]; simpl; rewrite Sc; simpl;
    rewrite ?app_nil_r, <- ?app_assoc; reflexivity.
Qed.

End ReportLists.

(* ================================================================== *)
(** * The valid set, the parsed names and the two groupings *)
(* ================================================================== *)

Section Candidates.

Local Open Scope Z_scope.

Variable json_load : list byte -> json_result.
Variable sha256 : list byte -> string.

Lemma dict_set_keys {V : Type} (k k' : string) (v : V)
    (d : list (string * V)) :
  In k (map fst (Dict.set k' v d)) -> k = k' \/ In k (map fst d).
Proof.
  induction d as [|[k0 v0] d IH]; simpl.
  - intros [H|[]]; auto.
  - destruct (String.eqb_spec k0 k'); simpl; intros [H|H]; auto.
    destruct (IH H); auto.
Qed.

Lemma dict_set_fresh {V : Type} (k : string) (v : V) (d : list (string * V)) :
  ~ In k (map fst d) -> Dict.set k v d = d ++ [(k, v)].
Proof.
  induction d as [|[k0 v0] d IH]; simpl; intros H; [reflexivity|].
  destruct (String.eqb_spec k0 k) as [->|Hk]; [tauto|].
  rewrite IH; tauto.
Qed.


(** Items with fresh, distinct keys are appended in order. *)
Lemma set_all_fresh {V : Type} (items : list (string * V)) :
  forall d : list (string * V),
  NoDup (map fst d ++ map fst items) -> set_all items d = d ++ items.
Proof.
  induction items as [|[k0 v0] items IH]; intros d H; simpl.
  - now rewrite app_nil_r.
  - simpl in H.
    assert (Hk : ~ In k0 (map fst d)).
    { apply NoDup_remove_2 in H; intros Hin; apply H, in_or_app; auto. }
    change (set_all ((k0, v0) :: items) d)
      with (set_all items (Dict.set k0 v0 d)).
    rewrite (dict_set_fresh _ _ _ Hk), IH, <- app_assoc; [reflexivity|].
    rewrite map_app, <- app_assoc; exact H.
Qed.

Lemma scanned_In (raw_dir : dirpath) (n : string) :
  In n (scanned raw_dir) <->
  In n (map fst (raw_entries raw_dir)) /\ PyStr.endswith n ".json" = true.
Proof. unfold scanned; rewrite sorted_In; apply glob_json_In. Qed.

Lemma scanned_NoDup (raw_dir : dirpath) :
  NoDup (map fst (raw_entries raw_dir)) -> NoDup (scanned raw_dir).
Proof. intros H; apply sorted_NoDup, glob_json_NoDup, H. Qed.

Lemma file_parsed_In (raw : directory) (fp f : string) (p : parts) :
  In (f, p) (file_parsed json_load raw fp) <->
  f = fp /\ is_accepted json_load raw fp = true
  /\ parse_filename fp = Some p.
Proof.
  unfold file_parsed.
  destruct (is_accepted json_load raw fp);
    [destruct (parse_filename fp) as [q|]|]; simpl; split;
    try tauto; try (intros (_ & H1 & H2); discriminate).
  - intros [H|[]]; inversion H; auto.
  - intros (-> & _ & H); inversion H; auto.
Qed.

(** The parsed-name map holds exactly the valid files whose name parsed,
    each with its parts. *)
Lemma parsed_set_In (raw_dir : dirpath) (fp : string) (p : parts) :
  In (fp, p) (parsed_set json_load raw_dir) <->
  In fp (valid_set json_load raw_dir) /\ parse_filename fp = Some p.
Proof.
  unfold parsed_set, valid_set; rewrite in_flat_map, filter_In; split.
  - intros (f & Hf & H); apply file_parsed_In in H as (-> & Ha & Hp); auto.
  - intros ((Hf & Ha) & Hp); exists fp; split; auto.
    apply file_parsed_In; auto.
Qed.

Lemma parsed_keys_scanned (raw : directory) (files : list string)
    (k : string) :
  In k (map fst (flat_map (file_parsed json_load raw) files)) ->
  In k files.
Proof.
  rewrite in_map_iff; intros ([f p] & <- & H).
  apply in_flat_map in H as (fp & Hfp & H).
  apply file_parsed_In in H as (-> & _); exact Hfp.
Qed.

Lemma parsed_keys_NoDup (raw : directory) (files : list string) :
  NoDup files ->
  NoDup (map fst (flat_map (file_parsed json_load raw) files)).
Proof.
  induction 1 as [|fp rest Hfp Hrest IH]; simpl; [constructor|].
  rewrite map_app; unfold file_parsed at 1.
  destruct (is_accepted json_load raw fp);
    [destruct (parse_filename fp)|]; simpl; auto.
  constructor; auto.
  intros H; apply Hfp, (parsed_keys_scanned raw), H.
Qed.

(** With distinct file names the dictionary [parsed_names] is the list
    of its items in scan order. *)
Lemma parsed_names_items (raw_dir : dirpath) :
  NoDup (map fst (raw_entries raw_dir)) ->
  set_all (parsed_set json_load raw_dir) [] = parsed_set json_load raw_dir.
Proof.
  intros H; rewrite set_all_fresh; [reflexivity|]; simpl.
  apply parsed_keys_NoDup, scanned_NoDup, H.
Qed.

Lemma hash_groups_grouping (raw_dir : dirpath) :
  grouping (fingerprint sha256 (raw_entries raw_dir)) (fun fp => fp)
    (valid_set json_load raw_dir) (hash_groups json_load sha256 raw_dir).
Proof.
  unfold hash_groups.
  apply (group_by_grouping _ _ (valid_set json_load raw_dir) [] []),
    grouping_nil.
Qed.

Lemma slot_groups_grouping (raw_dir : dirpath) :
  grouping (fun item : string * parts => slot_key (snd item))
    (fun item => fst item) (set_all (parsed_set json_load raw_dir) [])
    (slot_groups json_load raw_dir).
Proof.
  unfold slot_groups.
  apply (group_by_grouping _ _ (set_all (parsed_set json_load raw_dir) [])
           [] []), grouping_nil.
Qed.

Lemma group_errors_In (mk : string -> string -> message)
    (G : list (string * list string)) (k : string) (paths : list string) :
  In (k, paths) G -> (1 < List.length paths)%nat ->
  In (mk k (PyStr.join ", " paths)) (group_errors mk G).
Proof.
  intros H L; unfold group_errors; apply in_flat_map.
  exists (k, paths); split; auto; simpl.
  apply Nat.ltb_lt in L; rewrite L; simpl; auto.
Qed.

(** Every report of a reporting loop comes from a group of more than
    one path. *)
Lemma group_errors_inv (mk : string -> string -> message)
    (G : list (string * list string)) (m : message) :
  In m (group_errors mk G) ->
  exists k paths,
    In (k, paths) G /\ (1 < List.length paths)%nat
    /\ m = mk k (PyStr.join ", " paths).
Proof.
  unfold group_errors; intros H.
  apply in_flat_map in H as ([k paths] & Hg & H); simpl in H.
  destruct (1 <? List.length paths)%nat eqn:L; [|contradiction].
  destruct H as [<-|[]]; exists k, paths; repeat split; auto.
  now apply Nat.ltb_lt.
Qed.

Lemma two_members (l : list string) (a b : string) :
  In a l -> In b l -> a <> b -> (1 < List.length l)%nat.
Proof.
  destruct l as [|x [|y l]]; simpl; try tauto; try lia.
  intros [<-|[]] [<-|[]]; congruence.
Qed.

End Candidates.

(* ================================================================== *)
(** * Content-hash duplicates *)
(* ================================================================== *)

Section ContentHash.

Local Open Scope Z_scope.

Variable json_load : list byte -> json_result.
Variable sha256 : list byte -> string.

Lemma same_bytes_same_fingerprint (raw : directory) (fp1 fp2 : string) :
  bytes_of raw fp1 = bytes_of raw fp2 ->
  bytes_of raw fp1 <> None ->
  fingerprint sha256 raw fp1 = fingerprint sha256 raw fp2.
Proof.
  unfold bytes_of, fingerprint.
  destruct (lookup fp1 raw) as [[d1|]|], (lookup fp2 raw) as [[d2|]|];
    intros E N; try discriminate; try contradiction.
  now inversion E.
Qed.

Lemma filter_none {A : Type} (f : A -> bool) (l : list A) :
  (forall a, In a l -> f a = false) -> filter f l = [].
Proof.
  induction l as [|a l IH]; simpl; intros H; [reflexivity|].
  rewrite (H a (or_introl eq_refl)); apply IH; auto.
Qed.

Lemma group_errors_count (mk : string -> string -> message)
    (tag : message -> bool) (G : list (string * list string)) :
  (forall k names, tag (mk k names) = true) ->
  List.length (filter tag (group_errors mk G))
  = List.length (filter more_than_one G).
Proof.
  intros Htag; induction G as [|g G IH]; simpl; [reflexivity|].
  rewrite filter_app, length_app, IH; unfold more_than_one at 2.
  destruct (1 <? List.length (snd g))%nat; simpl; [|reflexivity].
  now rewrite Htag.
Qed.

Lemma group_errors_all (mk : string -> string -> message)
    (tag : message -> bool) (G : list (string * list string)) :
  (forall k names, tag (mk k names) = true) ->
  filter tag (group_errors mk G) = group_errors mk G.
Proof.
  intros Htag; induction G as [|g G IH]; simpl; [reflexivity|].
  rewrite filter_app, IH.
  destruct (1 <? List.length (snd g))%nat; simpl; [|reflexivity].
  now rewrite Htag.
Qed.

Lemma group_errors_none (mk : string -> string -> message)
    (tag : message -> bool) (G : list (string * list string)) :
  (forall k names, tag (mk k names) = false) ->
  filter tag (group_errors mk G) = [].
Proof.
  intros Htag; apply filter_none; intros m H.
  unfold group_errors in H; apply in_flat_map in H as (g & _ & H).
  destruct (1 <? List.length (snd g))%nat; [|contradiction].
  destruct H as [<-|[]]; apply Htag.
Qed.

(** The errors of the reading loop are no duplicate reports. *)
Lemma file_errors_not_duplicates (raw : directory) (files : list string)
    (tag : message -> bool) :
  (forall m, tag m = true ->
             is_structural m = false
             /\ forall n e, m <> CannotReadParse n e) ->
  filter tag (flat_map (file_errors json_load raw) files) = [].
Proof.
  intros Htag; apply filter_none; intros m H.
  apply in_flat_map in H as (fp & _ & H).
  destruct (tag m) eqn:T; [|reflexivity].
  destruct (Htag m T) as [Hs Hc].
  unfold file_errors, classify in H.
  destruct (open_load json_load raw fp) as [doc|exc|]; simpl in H;
    try contradiction.
  - destruct (validate_structure doc fp) as [err|] eqn:V; simpl in H;
      try contradiction.
    destruct H as [<-|[]].
    apply validate_structure_structural in V; congruence.
  - destruct H as [<-|[]]; exfalso; eapply Hc; reflexivity.
Qed.

(** The duplicate reports among the errors of a run are those of the
    two reporting loops. *)
Lemma errors_content_dups (raw_dir : dirpath) (output_dir : option dirpath)
    (delete_orphans : bool) :
  filter is_content_dup
    (errors (expected_run json_load sha256 raw_dir output_dir
               delete_orphans))
  = hash_errors json_load sha256 raw_dir.
Proof.
  rewrite expected_errors, !filter_app.
  rewrite (file_errors_not_duplicates _ (scanned raw_dir)
             is_content_dup)
    by (intros [] T; try discriminate; split; [reflexivity|discriminate]).
  unfold slot_errors.
  rewrite (group_errors_none SlotCollision is_content_dup) by reflexivity.
  rewrite app_nil_r; simpl.
  now apply group_errors_all.
Qed.

Lemma errors_slot_collisions (raw_dir : dirpath)
    (output_dir : option dirpath) (delete_orphans : bool) :
  filter is_slot_collision
    (errors (expected_run json_load sha256 raw_dir output_dir
               delete_orphans))
  = slot_errors json_load raw_dir.
Proof.
  rewrite expected_errors, !filter_app.
  rewrite (file_errors_not_duplicates _ (scanned raw_dir)
             is_slot_collision)
    by (intros [] T; try discriminate; split; [reflexivity|discriminate]).
  unfold hash_errors.
  rewrite (group_errors_none (fun _ names => ContentHashDuplicate names)
             is_slot_collision) by reflexivity.
  simpl; now apply group_errors_all.
Qed.

(** C1.  In a run that returns, the dictionary of the content-hash pass
    groups the valid files by the SHA-256 digest of their bytes, so that
    files with the same bytes share a group; the errors hold one
    content-duplicate report per group of more than one file, naming all
    its members, and none for a group of one; and [hash_dupes] is the sum
    over the groups of the size less one.  When the valid set is [N > 1]
    files that all have the same bytes, there is one group, one report
    naming all [N], and [hash_dupes = N - 1]. *)
Theorem content_hash_duplicates (raw_dir : dirpath)
    (output_dir : option dirpath) (delete_orphans : bool) (r : run) :
  validate_raw json_load sha256 raw_dir output_dir delete_orphans = Ok r ->
  let raw := raw_entries raw_dir in
  let valid := valid_set json_load raw_dir in
  let G := hash_groups json_load sha256 raw_dir in
  let report := fun (_ : string) names => ContentHashDuplicate names in
  grouping (fingerprint sha256 raw) (fun fp => fp) valid G
  /\ (forall fp1 fp2, In fp1 valid -> In fp2 valid ->
        bytes_of raw fp1 = bytes_of raw fp2 ->
        exists k paths, In (k, paths) G /\ In fp1 paths /\ In fp2 paths)
  /\ errors r
     = flat_map (file_errors json_load raw) (scanned raw_dir)
       ++ group_errors report G ++ slot_errors json_load raw_dir
  /\ filter is_content_dup (errors r) = group_errors report G
  /\ List.length (filter is_content_dup (errors r))
     = List.length (filter more_than_one G)
  /\ hash_dupes (stats r) = sizes_minus_one G
  /\ (forall data,
        (1 < List.length valid)%nat ->
        (forall fp, In fp valid -> bytes_of raw fp = Some data) ->
        G = [(sha256 data, valid)]
        /\ filter is_content_dup (errors r)
           = [ContentHashDuplicate (PyStr.join ", " valid)]
        /\ hash_dupes (stats r) = Z.of_nat (List.length valid) - 1).
Proof.
  intros H raw valid G report.
  apply validate_raw_expected in H as [-> _].
  assert (HG : grouping (fingerprint sha256 raw) (fun fp => fp) valid G)
    by apply hash_groups_grouping.
  assert (Herr := expected_errors json_load sha256 raw_dir output_dir
                    delete_orphans).
  unfold hash_errors in Herr; fold G in Herr; fold report in Herr.
  fold raw in Herr.
  assert (Hdup : filter is_content_dup
                   (errors (expected_run json_load sha256 raw_dir output_dir
                              delete_orphans))
                 = group_errors report G).
  { rewrite Herr, !filter_app.
    rewrite (file_errors_not_duplicates raw (scanned raw_dir)
               is_content_dup)
      by (intros [] T; try discriminate; split; [reflexivity|discriminate]).
    unfold slot_errors.
    rewrite (group_errors_none SlotCollision is_content_dup)
      by reflexivity.
    rewrite app_nil_r; simpl.
    now apply group_errors_all. }
  assert (Hcnt : hash_dupes (stats (expected_run json_load sha256 raw_dir
                                      output_dir delete_orphans))
                 = sizes_minus_one G).
  { destruct (expected_stats json_load sha256 raw_dir output_dir
                delete_orphans) as (_ & _ & _ & _ & _ & Hh & _).
    rewrite Hh; apply (extra_copies_sizes _ _ _ _ HG). }
  split; [exact HG|].
  split.
  { intros fp1 fp2 H1 H2 E.
    assert (N : bytes_of raw fp1 <> None)
      by (exact (proj1 (Forall_forall _ _)
                   (valid_set_files json_load raw_dir) fp1 H1)).
    destruct (grouping_same_key _ _ _ _ fp1 fp2 HG H1 H2
                (same_bytes_same_fingerprint _ _ _ E N))
      as (paths & Hp); eauto. }
  split; [exact Herr|].
  split; [exact Hdup|].
  split.
  { rewrite Hdup.
    rewrite <- (group_errors_all report is_content_dup G) by reflexivity.
    apply group_errors_count; reflexivity. }
  split; [exact Hcnt|].
  intros data HN Hsame.
  assert (E : G = [(sha256 data, map (fun fp => fp) valid)]).
  { apply (grouping_single _ _ valid G (sha256 data) HG).
    - destruct valid; [simpl in HN; lia | discriminate].
    - intros fp Hfp; specialize (Hsame fp Hfp).
      unfold fingerprint; unfold bytes_of in Hsame.
      destruct (lookup fp raw) as [[d|]|]; try discriminate.
      now inversion Hsame. }
  rewrite map_id in E.
  rewrite Hdup, Hcnt, E.
  unfold group_errors, sizes_minus_one, report;
    cbn [flat_map snd fst fold_right app].
  apply Nat.ltb_lt in HN; rewrite HN.
  repeat split; auto; lia.
Qed.

End ContentHash.

Lemma content_hash_duplicates_witness :
  let json_load := Example.json_load in
  let sha256 := Example.sha256 in
  let raw_dir := Example.raw_at Example.three_copies in
  let output_dir := @None dirpath in
  let delete_orphans := false in
  let r := Example.run_three_copies in
  validate_raw json_load sha256 raw_dir output_dir delete_orphans = Ok r
  /\ let raw := raw_entries raw_dir in
     let valid := valid_set json_load raw_dir in
     let G := hash_groups json_load sha256 raw_dir in
     let report := fun (_ : string) names => ContentHashDuplicate names in
     grouping (fingerprint sha256 raw) (fun fp => fp) valid G
     /\ (forall fp1 fp2, In fp1 valid -> In fp2 valid ->
           bytes_of raw fp1 = bytes_of raw fp2 ->
           exists k paths, In (k, paths) G /\ In fp1 paths /\ In fp2 paths)
     /\ errors r
        = flat_map (file_errors json_load raw) (scanned raw_dir)
          ++ group_errors report G ++ slot_errors json_load raw_dir
     /\ filter is_content_dup (errors r) = group_errors report G
     /\ List.length (filter is_content_dup (errors r))
        = List.length (filter more_than_one G)
     /\ hash_dupes (stats r) = sizes_minus_one G
     /\ (forall data,
           (1 < List.length valid)%nat ->
           (forall fp, In fp valid -> bytes_of raw fp = Some data) ->
           G = [(sha256 data, valid)]
           /\ filter is_content_dup (errors r)
              = [ContentHashDuplicate (PyStr.join ", " valid)]
           /\ hash_dupes (stats r) = (Z.of_nat (List.length valid) - 1)%Z).
Proof.
  cbv zeta.
  split; [reflexivity|].
  exact (content_hash_duplicates Example.json_load Example.sha256
           (Example.raw_at Example.three_copies) None false
           Example.run_three_copies eq_refl).
Defined.

(* ================================================================== *)
(** * Slot collisions and unparsable names *)
(* ================================================================== *)

Section Slots.

Local Open Scope Z_scope.

Variable json_load : list byte -> json_result.
Variable sha256 : list byte -> string.

(** C2.  In a run that returns, over a raw directory with distinct
    names: the candidates of the slot pass are exactly the valid files
    whose name parsed; the dictionary of the pass groups them by the slot
    key, and two candidates have the same key exactly when device,
    lower-cased direction, x and y are the same strings; the pass appends
    one error per group of more than one file, naming all the members,
    after the errors of the earlier passes, and [slot_collisions] is the
    sum over the groups of the size less one.  Two valid files whose names
    differ only in the case of the direction token are in one group, and
    that group is reported. *)
Theorem slot_collisions_reported (raw_dir : dirpath)
    (output_dir : option dirpath) (delete_orphans : bool) (r : run) :
  validate_raw json_load sha256 raw_dir output_dir delete_orphans = Ok r ->
  NoDup (map fst (raw_entries raw_dir)) ->
  let cands := parsed_set json_load raw_dir in
  let S := slot_groups json_load raw_dir in
  (forall fp p, In (fp, p) cands <->
                In fp (valid_set json_load raw_dir)
                /\ parse_filename fp = Some p)
  /\ grouping (fun item : string * parts => slot_key (snd item))
       (fun item => fst item) cands S
  /\ (forall fp1 p1 fp2 p2, In (fp1, p1) cands -> In (fp2, p2) cands ->
        (slot_key p1 = slot_key p2 <-> p1 = p2))
  /\ errors r
     = flat_map (file_errors json_load (raw_entries raw_dir))
         (scanned raw_dir)
       ++ hash_errors json_load sha256 raw_dir
       ++ group_errors SlotCollision S
  /\ filter is_slot_collision (errors r) = group_errors SlotCollision S
  /\ List.length (filter is_slot_collision (errors r))
     = List.length (filter more_than_one S)
  /\ slot_collisions (stats r) = sizes_minus_one S
  /\ (forall n1 n2 dev dir1 dir2 gx gy,
        FileName.conforms n1 dev dir1 gx gy ->
        FileName.conforms n2 dev dir2 gx gy ->
        PyStr.lower dir1 = PyStr.lower dir2 -> n1 <> n2 ->
        In n1 (valid_set json_load raw_dir) ->
        In n2 (valid_set json_load raw_dir) ->
        exists key paths,
          In (key, paths) S /\ In n1 paths /\ In n2 paths
          /\ In (SlotCollision key (PyStr.join ", " paths)) (errors r)).
Proof.
  intros H ND cands S.
  apply validate_raw_expected in H as [-> _].
  assert (HS : grouping (fun item : string * parts => slot_key (snd item))
                 (fun item => fst item) cands S).
  { unfold cands, S; rewrite <- (parsed_names_items json_load raw_dir ND) at 1.
    apply slot_groups_grouping. }
  assert (Herr := expected_errors json_load sha256 raw_dir output_dir
                    delete_orphans).
  fold (slot_errors json_load raw_dir) in *.
  split; [intros fp p; apply parsed_set_In|].
  split; [exact HS|].
  split.
  { intros fp1 p1 fp2 p2 H1 H2; split; [|congruence].
    apply parsed_set_In in H1 as [_ H1], H2 as [_ H2].
    apply slot_key_injective; eauto using parse_filename_well_formed. }
  split; [exact Herr|].
  assert (Hcol : filter is_slot_collision
                   (errors (expected_run json_load sha256 raw_dir output_dir
                              delete_orphans))
                 = group_errors SlotCollision S).
  { rewrite Herr, !filter_app.
    rewrite (file_errors_not_duplicates json_load _ (scanned raw_dir)
               is_slot_collision)
      by (intros [] T; try discriminate; split; [reflexivity|discriminate]).
    unfold hash_errors.
    rewrite (group_errors_none (fun _ names => ContentHashDuplicate names)
               is_slot_collision) by reflexivity.
    simpl; now apply group_errors_all. }
  split; [exact Hcol|].
  split.
  { rewrite Hcol.
    rewrite <- (group_errors_all SlotCollision is_slot_collision S)
      by reflexivity.
    apply group_errors_count; reflexivity. }
  split.
  { destruct (expected_stats json_load sha256 raw_dir output_dir
                delete_orphans) as (_ & _ & _ & _ & _ & _ & Hc & _).
    rewrite Hc; apply (extra_copies_sizes _ _ _ _ HS). }
  intros n1 n2 dev dir1 dir2 gx gy C1 C2 E Hne V1 V2.
  destruct (case_variants_same_parts _ _ _ _ _ _ _ C1 C2 E) as (p & P1 & P2).
  assert (I1 : In (n1, p) cands) by (apply parsed_set_In; auto).
  assert (I2 : In (n2, p) cands) by (apply parsed_set_In; auto).
  destruct (grouping_same_key _ _ _ _ (n1, p) (n2, p) HS I1 I2 eq_refl)
    as (paths & Hp & M1 & M2).
  simpl in Hp, M1, M2.
  exists (slot_key p), paths; repeat split; auto.
  rewrite Herr; apply in_or_app; right; apply in_or_app; right.
  apply group_errors_In; auto.
  apply (two_members _ n1 n2); auto.
Qed.




End Slots.

Lemma slot_collisions_reported_witness :
  let json_load := Example.json_load in
  let sha256 := Example.sha256 in
  let raw_dir := Example.raw_at Example.case_variants in
  let output_dir := @None dirpath in
  let delete_orphans := false in
  let r := Example.run_case_variants in
  validate_raw json_load sha256 raw_dir output_dir delete_orphans = Ok r
  /\ NoDup (map fst (raw_entries raw_dir))
  /\ let cands := parsed_set json_load raw_dir in
     let S := slot_groups json_load raw_dir in
     (forall fp p, In (fp, p) cands <->
                   In fp (valid_set json_load raw_dir)
                   /\ parse_filename fp = Some p)
     /\ grouping (fun item : string * parts => slot_key (snd item))
          (fun item => fst item) cands S
     /\ (forall fp1 p1 fp2 p2, In (fp1, p1) cands -> In (fp2, p2) cands ->
           (slot_key p1 = slot_key p2 <-> p1 = p2))
     /\ errors r
        = flat_map (file_errors json_load (raw_entries raw_dir))
            (scanned raw_dir)
          ++ hash_errors json_load sha256 raw_dir
          ++ group_errors SlotCollision S
     /\ filter is_slot_collision (errors r) = group_errors SlotCollision S
     /\ List.length (filter is_slot_collision (errors r))
        = List.length (filter more_than_one S)
     /\ slot_collisions (stats r) = sizes_minus_one S
     /\ (forall n1 n2 dev dir1 dir2 gx gy,
           FileName.conforms n1 dev dir1 gx gy ->
           FileName.conforms n2 dev dir2 gx gy ->
           PyStr.lower dir1 = PyStr.lower dir2 -> n1 <> n2 ->
           In n1 (valid_set json_load raw_dir) ->
           In n2 (valid_set json_load raw_dir) ->
           exists key paths,
             In (key, paths) S /\ In n1 paths /\ In n2 paths
             /\ In (SlotCollision key (PyStr.join ", " paths)) (errors r)).
Proof.
  cbv zeta.
  assert (ND : NoDup (map fst (raw_entries
                                 (Example.raw_at Example.case_variants))))
    by distinct_names.
  split; [reflexivity|].
  split; [exact ND|].
  exact (slot_collisions_reported Example.json_load Example.sha256
           (Example.raw_at Example.case_variants) None false
           Example.run_case_variants eq_refl ND).
Defined.


(* ================================================================== *)
(** * Orphan reconciliation *)
(* ================================================================== *)

Section Orphans.

Local Open Scope Z_scope.

Variable json_load : list byte -> json_result.
Variable sha256 : list byte -> string.

Lemma lookup_remove_entry (n m : string) (d : directory) :
  lookup n (remove_entry m d) = if (m =? n)%string then None else lookup n d.
Proof.
  induction d as [|[k node] d IH]; simpl.
  - now destruct (m =? n)%string.
  - destruct (String.eqb_spec k m) as [->|Hk].
    + rewrite IH; destruct (String.eqb_spec m n); reflexivity.
    + simpl; rewrite IH.
      destruct (String.eqb_spec k n) as [->|Hn]; [|reflexivity].
      destruct (String.eqb_spec m n); [congruence|reflexivity].
Qed.

Lemma lookup_remove_all (names : list string) :
  forall (d : directory) (n : string),
  lookup n (remove_all names d)
  = if existsb (String.eqb n) names then None else lookup n d.
Proof.
  induction names as [|m names IH]; intros d n; simpl; [reflexivity|].
  change (remove_all (m :: names) d)
    with (remove_all names (remove_entry m d)).
  rewrite IH, lookup_remove_entry, (String.eqb_sym n m).
  destruct (m =? n)%string; simpl; [|reflexivity].
  now destruct (existsb (String.eqb n) names).
Qed.

Lemma existsb_eqb_In (n : string) (names : list string) :
  existsb (String.eqb n) names = true <-> In n names.
Proof.
  rewrite existsb_exists; split.
  - intros (m & Hm & E); apply String.eqb_eq in E; now subst.
  - intros H; exists n; split; auto; apply String.eqb_refl.
Qed.

Lemma out_listing_disk (output_dir : option dirpath) :
  out_disk (initial_run output_dir)
  = option_map snd (out_listing output_dir).
Proof.
  unfold initial_run, out_listing; simpl.
  destruct output_dir as [od|]; [|reflexivity].
  now destruct (on_disk od).
Qed.

Lemma orphan_set_In (raw_dir : dirpath) (output_dir : option dirpath)
    (dir_name : string) (d : directory) (n : string) :
  out_listing output_dir = Some (dir_name, d) ->
  (In n (orphan_set raw_dir output_dir) <->
   In n (glob_json d) /\ ~ In n (scanned raw_dir)).
Proof.
  unfold orphan_set, orphan_names; intros ->.
  now rewrite filter_In, sorted_In, not_in_iff.
Qed.

Lemma orphan_set_NoDup (raw_dir : dirpath) (output_dir : option dirpath)
    (dir_name : string) (d : directory) :
  out_listing output_dir = Some (dir_name, d) ->
  NoDup (map fst d) -> NoDup (orphan_set raw_dir output_dir).
Proof.
  unfold orphan_set, orphan_names; intros -> H.
  apply NoDup_filter, sorted_NoDup, glob_json_NoDup, H.
Qed.

Lemma orphan_set_none (raw_dir : dirpath) (output_dir : option dirpath) :
  out_listing output_dir = None -> orphan_set raw_dir output_dir = [].
Proof. unfold orphan_set; now intros ->. Qed.

Lemma expected_out_disk (raw_dir : dirpath) (output_dir : option dirpath)
    (delete_orphans : bool) :
  scanned raw_dir <> [] ->
  out_disk (expected_run json_load sha256 raw_dir output_dir delete_orphans)
  = match out_listing output_dir with
    | Some (_, d) =>
        Some (if delete_orphans
              then remove_all (orphan_set raw_dir output_dir) d else d)
    | None => None
    end.
Proof.
  unfold expected_run.
  destruct (scanned raw_dir) as [|f fs] eqn:Sc; [contradiction|intros _].
  destruct (out_listing output_dir) as [[dn d]|] eqn:L;
    unfold after_orphans, before_orphans, log; cbn [out_disk];
    rewrite out_listing_disk, L; simpl; now destruct delete_orphans.
Qed.

Lemma expected_orphan_counters (raw_dir : dirpath)
    (output_dir : option dirpath) (delete_orphans : bool) :
  scanned raw_dir <> [] ->
  let s := stats (expected_run json_load sha256 raw_dir output_dir
                    delete_orphans) in
  orphans s = Z.of_nat (List.length (orphan_set raw_dir output_dir))
  /\ orphans_deleted s
     = if delete_orphans
       then Z.of_nat (List.length (orphan_set raw_dir output_dir)) else 0.
Proof.
  unfold expected_run; cbv zeta.
  destruct (scanned raw_dir) as [|f fs] eqn:Sc; [contradiction|intros _].
  destruct (out_listing output_dir) as [[dn d]|] eqn:L; simpl.
  - now destruct delete_orphans.
  - rewrite (orphan_set_none _ _ L); now destruct delete_orphans.
Qed.

(** ** The warnings about orphans *)

Lemma file_warnings_no_orphan (files : list string) (n : string) :
  filter (is_orphan_warning n) (flat_map file_warnings files) = [].
Proof.
  induction files as [|fp files IH]; simpl; [reflexivity|].
  rewrite filter_app, IH, app_nil_r.
  unfold file_warnings; now destruct (unparsable fp).
Qed.

Lemma orphan_warnings_count (dir_name : string) (orph : list string)
    (n : string) :
  NoDup orph ->
  List.length (filter (is_orphan_warning n) (map (OrphanIn dir_name) orph))
  = if existsb (String.eqb n) orph then 1%nat else 0%nat.
Proof.
  induction 1 as [|m orph Hm _ IH]; simpl; [reflexivity|].
  rewrite (String.eqb_sym n m).
  destruct (String.eqb_spec m n) as [->|Hne]; simpl; [|exact IH].
  rewrite IH.
  destruct (existsb (String.eqb n) orph) eqn:E; [|reflexivity].
  apply existsb_eqb_In in E; contradiction.
Qed.

(** ** The trace *)

Lemma early_trace_quiet (raw_dir : dirpath) :
  Forall (fun e => before_orphan_pass e = true)
    (early_trace json_load sha256 raw_dir).
Proof.
  unfold early_trace; constructor; [reflexivity|].
  repeat (apply Forall_app; split).
  - apply Forall_forall; intros e H.
    apply in_flat_map in H as (fp & _ & H); unfold file_trace in H.
    apply in_app_or in H as [H|H]; [|apply in_app_or in H as [H|H]].
    + apply in_map_iff in H as (m & <- & H).
      unfold file_warnings in H; destruct (unparsable fp); [|contradiction].
      destruct H as [<-|[]]; reflexivity.
    + destruct H as [<-|[]]; reflexivity.
    + apply in_map_iff in H as (m & <- & _); reflexivity.
  - apply Forall_forall; intros e H.
    apply in_map_iff in H as (m & <- & _); reflexivity.
  - apply Forall_forall; intros e H.
    apply in_map_iff in H as (m & <- & _); reflexivity.
  - apply Forall_forall; intros e H.
    apply in_map_iff in H as (m & <- & _); reflexivity.
Qed.

(** An event that cannot occur in a first part occurs in the second. *)
Lemma split_after (P : event -> bool) (A B pre post : list event)
    (e : event) :
  Forall (fun a => P a = true) A -> P e = false ->
  A ++ B = pre ++ e :: post ->
  exists pre2, pre = A ++ pre2 /\ B = pre2 ++ e :: post.
Proof.
  intros HA He; revert pre; induction HA as [|a A Ha _ IH]; intros pre E.
  - exists pre; auto.
  - destruct pre as [|a' pre]; simpl in E; inversion E; subst.
    + congruence.
    + destruct (IH pre H1) as (pre2 & -> & ->); exists pre2; auto.
Qed.

(** Inside the orphan loop a deletion comes right after the report of
    the same orphan, and what follows is the loop over later entries. *)
Lemma orphan_trace_unlink (dir_name : string) (delete_orphans : bool)
    (orph : list string) :
  forall (pre post : list event) (n : string),
  orphan_trace dir_name delete_orphans orph = pre ++ Unlink n :: post ->
  delete_orphans = true
  /\ In n orph
  /\ (exists pre', pre = pre' ++ [Append Warning (OrphanIn dir_name n)])
  /\ (exists later, post = orphan_trace dir_name delete_orphans later).
Proof.
  induction orph as [|m orph IH]; intros pre post n E.
  - destruct pre; discriminate.
  - unfold orphan_trace in E; simpl in E.
    fold (orphan_trace dir_name delete_orphans orph) in E.
    destruct delete_orphans.
    + destruct pre as [|e1 [|e2 pre]]; simpl in E; inversion E; subst.
      * repeat split; simpl; auto.
        -- exists []; reflexivity.
        -- exists orph; reflexivity.
      * destruct (IH _ _ _ H2) as (_ & Hin & (pre' & ->) & Hl).
        repeat split; simpl; auto.
        exists (Append Warning (OrphanIn dir_name m) :: Unlink m :: pre');
          reflexivity.
    + destruct pre as [|e1 pre]; simpl in E; inversion E; subst.
      destruct (IH _ _ _ H1) as (F & _); discriminate.
Qed.

Lemma orphan_trace_no_listing (dir_name : string) (delete_orphans : bool)
    (orph : list string) (p : place) (names : list string) :
  ~ In (ListDir p names) (orphan_trace dir_name delete_orphans orph).
Proof.
  unfold orphan_trace; rewrite in_flat_map; intros (n & _ & H).
  destruct delete_orphans; simpl in H; intuition discriminate.
Qed.

End Orphans.

Section OrphanClaims.

Local Open Scope Z_scope.

Variable json_load : list byte -> json_result.
Variable sha256 : list byte -> string.

(** A run in which no file makes the reading loop raise returns when it
    only detects orphans, or has no output directory to look at. *)
Lemma validate_raw_returns (raw_dir : dirpath) (output_dir : option dirpath)
    (delete_orphans : bool) :
  forallb (fun fp => negb (crashes json_load (raw_entries raw_dir) fp))
    (scanned raw_dir) = true ->
  delete_orphans = false \/ out_listing output_dir = None ->
  validate_raw json_load sha256 raw_dir output_dir delete_orphans
  = Ok (expected_run json_load sha256 raw_dir output_dir delete_orphans).
Proof.
  intros NC Hskip.
  assert (R : exists r, validate_raw json_load sha256 raw_dir output_dir
                          delete_orphans = Ok r).
  { unfold validate_raw; fold (scanned raw_dir).
    destruct (scanned raw_dir) as [|f fs] eqn:Sc; [eauto|].
    rewrite (pass1_spec _ _ _ _ _ _ NC), <- Sc.
    fold (valid_set json_load raw_dir).
    rewrite (content_hash_pass_spec sha256 _ _ _
               (valid_set_files json_load raw_dir)).
    cbv zeta; unfold orphan_pass.
    destruct output_dir as [od|]; [|eauto].
    destruct (on_disk od) as [d|] eqn:D; [|eauto].
    destruct Hskip as [->|L]; [apply orphan_loop_detect_only|].
    unfold out_listing in L; rewrite D in L; discriminate. }
  destruct R as (r & R); rewrite R.
  now apply validate_raw_expected in R as [-> _].
Qed.

(** With [delete_orphans] the loop returns when the listing has distinct
    names and every orphan in it is a regular file. *)
Lemma orphan_loop_deleting (dir_name : string)
    (denied raw_names : list string) (listing : list string) :
  NoDup listing ->
  forall (st : run) (d : directory),
  out_disk st = Some d ->
  (forall n, In n listing -> not_in n raw_names = true ->
             (exists data, lookup n d = Some (File data))
             /\ ~ In n denied) ->
  exists st',
    orphan_loop dir_name denied raw_names true listing st = Ok st'.
Proof.
  induction 1 as [|n rest Hn _ IH]; intros st d Hd Hfiles; simpl; eauto.
  destruct (not_in n raw_names) eqn:O.
  - destruct (Hfiles n (or_introl eq_refl) O) as ((data & L) & Hfree).
    unfold unlink; cbn [out_disk upd_stats add_warning].
    rewrite Hd, L.
    replace (existsb (String.eqb n) denied) with false
      by (symmetry; apply not_true_is_false; intros E;
          apply Hfree, existsb_eqb_In, E).
    apply (IH _ (remove_entry n d)); [reflexivity|].
    intros m Hm Om; rewrite lookup_remove_entry.
    destruct (String.eqb_spec n m) as [->|_]; [contradiction|].
    apply Hfiles; simpl; auto.
  - apply (IH _ d Hd); intros m Hm; apply Hfiles; simpl; auto.
Qed.
Lemma validate_raw_returns_deleting (raw_dir : dirpath) (od : dirpath)
    (d : directory) :
  forallb (fun fp => negb (crashes json_load (raw_entries raw_dir) fp))
    (scanned raw_dir) = true ->
  on_disk od = Some d ->
  NoDup (map fst d) ->
  (forall n, In n (orphan_set raw_dir (Some od)) ->
             (exists data, lookup n d = Some (File data))
             /\ ~ In n (locked od)) ->
  validate_raw json_load sha256 raw_dir (Some od) true
  = Ok (expected_run json_load sha256 raw_dir (Some od) true).
Proof.
  intros NC D ND Hfiles.
  assert (R : exists r, validate_raw json_load sha256 raw_dir (Some od) true
                        = Ok r).
  { unfold validate_raw; fold (scanned raw_dir).
    destruct (scanned raw_dir) as [|f fs] eqn:Sc; [eauto|].
    rewrite (pass1_spec _ _ _ _ _ _ NC), <- Sc.
    fold (valid_set json_load raw_dir).
    rewrite (content_hash_pass_spec sha256 _ _ _
               (valid_set_files json_load raw_dir)).
    cbv zeta; unfold orphan_pass; rewrite D.
    apply (orphan_loop_deleting _ _ _ _
             (sorted_NoDup _ (glob_json_NoDup _ ND)) _ d).
    - rewrite slot_pass_spec; cbv zeta.
      unfold extend, upd_stats, log, initial_run; cbn [out_disk]; exact D.
    - intros n Hn On; apply Hfiles.
      unfold orphan_set, out_listing; rewrite D.
      unfold orphan_names; apply filter_In; auto. }
  destruct R as (r & R); rewrite R.
  now apply validate_raw_expected in R as [-> _].
Qed.

(** Without an output directory to look at, the run is the run of a call
    that was given none. *)
Lemma expected_run_skip (raw_dir : dirpath) (output_dir : option dirpath)
    (delete_orphans : bool) :
  out_listing output_dir = None ->
  expected_run json_load sha256 raw_dir output_dir delete_orphans
  = expected_run json_load sha256 raw_dir None delete_orphans.
Proof.
  intros L; unfold expected_run, before_orphans.
  rewrite !out_listing_disk, L; reflexivity.
Qed.

Lemma expected_run_empty (raw_dir : dirpath) (output_dir : option dirpath)
    (delete_orphans : bool) :
  scanned raw_dir = [] ->
  expected_run json_load sha256 raw_dir output_dir delete_orphans
  = mkRun [] [NoFilesFound (path_str raw_dir)] zero_counters
      (out_disk (initial_run output_dir))
      [ListDir RawDir []; Append Warning (NoFilesFound (path_str raw_dir))].
Proof. unfold expected_run; now intros ->. Qed.

Lemma no_orphan_warning (raw_dir : dirpath) (output_dir : option dirpath)
    (delete_orphans : bool) (dir_name n : string) :
  In (OrphanIn dir_name n)
    (warnings (expected_run json_load sha256 raw_dir output_dir
                 delete_orphans)) ->
  scanned raw_dir <> [] /\ In n (orphan_set raw_dir output_dir).
Proof.
  destruct (scanned raw_dir) as [|f fs] eqn:Sc.
  - rewrite (expected_run_empty _ _ _ Sc); simpl; intuition discriminate.
  - assert (Hne : scanned raw_dir <> []) by (rewrite Sc; discriminate).
    rewrite <- Sc, (expected_warnings _ _ _ _ _ Hne).
    intros H; split; auto.
    apply in_app_or in H as [H|H].
    + apply in_flat_map in H as (fp & _ & H).
      unfold file_warnings in H; destruct (unparsable fp); simpl in H;
        intuition discriminate.
    + apply in_map_iff in H as (m & E & H); now inversion E; subst.
Qed.

(** C7, as amended.  In a run that returns, over a raw directory that
    lists at least one [*.json] file and an output directory with
    distinct names: the orphans are the [*.json] names of the output
    directory that equal no scanned raw name; each has exactly one
    warning, and no other name has one; [orphans] is their number; with
    [delete_orphans] each is removed from disk, nothing else is, and
    [orphans_deleted] is their number as well; without it nothing is
    removed.  When no output directory is supplied, or it does not exist,
    the run is the run of a call without one: no orphan, no deletion.
    When the raw directory lists no [*.json] file, the run ends before
    the orphan pass: no orphan is reported and nothing is removed. *)
Theorem orphans_reconciled (raw_dir : dirpath) (output_dir : option dirpath)
    (delete_orphans : bool) (r : run) :
  validate_raw json_load sha256 raw_dir output_dir delete_orphans = Ok r ->
  (forall dir_name d,
     out_listing output_dir = Some (dir_name, d) ->
     scanned raw_dir <> [] ->
     NoDup (map fst d) ->
     let orph := orphan_set raw_dir output_dir in
     (forall n, In n orph <-> In n (glob_json d) /\ ~ In n (scanned raw_dir))
     /\ (forall n, In n orph ->
           In (OrphanIn dir_name n) (warnings r)
           /\ List.length (filter (is_orphan_warning n) (warnings r)) = 1%nat)
     /\ (forall n, ~ In n orph ->
           List.length (filter (is_orphan_warning n) (warnings r)) = 0%nat)
     /\ orphans (stats r) = Z.of_nat (List.length orph)
     /\ (delete_orphans = true ->
           orphans_deleted (stats r) = Z.of_nat (List.length orph)
           /\ exists d', out_disk r = Some d'
                /\ (forall n, In n orph -> lookup n d' = None)
                /\ (forall n, ~ In n orph -> lookup n d' = lookup n d))
     /\ (delete_orphans = false ->
           orphans_deleted (stats r) = 0 /\ out_disk r = Some d))
  /\ (out_listing output_dir = None ->
        validate_raw json_load sha256 raw_dir None delete_orphans = Ok r
        /\ orphans (stats r) = 0 /\ orphans_deleted (stats r) = 0
        /\ (forall dir_name n, ~ In (OrphanIn dir_name n) (warnings r))
        /\ out_disk r = None)
  /\ (scanned raw_dir = [] ->
        orphans (stats r) = 0 /\ orphans_deleted (stats r) = 0
        /\ (forall dir_name n, ~ In (OrphanIn dir_name n) (warnings r))
        /\ out_disk r = out_disk (initial_run output_dir)).
Proof.
  intros H; apply validate_raw_expected in H as [-> NC].
  split; [|split].
  - intros dn d L Hne ND orph.
    assert (Hin := fun n => orphan_set_In raw_dir output_dir dn d n L).
    assert (HND := orphan_set_NoDup raw_dir output_dir dn d L ND).
    assert (W := expected_warnings json_load sha256 raw_dir output_dir
                   delete_orphans Hne).
    unfold out_name in W; rewrite L in W; fold orph in W.
    assert (Cnt : forall n,
               List.length
                 (filter (is_orphan_warning n)
                    (warnings (expected_run json_load sha256 raw_dir
                                 output_dir delete_orphans)))
               = if existsb (String.eqb n) orph then 1%nat else 0%nat).
    { intros n; rewrite W, filter_app, file_warnings_no_orphan; simpl.
      now apply orphan_warnings_count. }
    destruct (expected_orphan_counters json_load sha256 raw_dir output_dir
                delete_orphans Hne) as [Ho Hd].
    fold orph in Ho, Hd.
    split; [exact Hin|].
    split.
    { intros n Hn; split.
      - rewrite W; apply in_or_app; right; now apply in_map.
      - rewrite Cnt.
        now rewrite (proj2 (existsb_eqb_In n orph) Hn). }
    split.
    { intros n Hn; rewrite Cnt.
      destruct (existsb (String.eqb n) orph) eqn:E; [|reflexivity].
      apply existsb_eqb_In in E; contradiction. }
    split; [exact Ho|].
    split.
    + intros ->; split; [exact Hd|].
      rewrite (expected_out_disk _ _ _ _ _ Hne), L; fold orph.
      eexists; split; [reflexivity|]; split; intros n Hn;
        rewrite lookup_remove_all.
      * now rewrite (proj2 (existsb_eqb_In n orph) Hn).
      * destruct (existsb (String.eqb n) orph) eqn:E; [|reflexivity].
        apply existsb_eqb_In in E; contradiction.
    + intros ->; split; [exact Hd|].
      now rewrite (expected_out_disk _ _ _ _ _ Hne), L.
  - intros L.
    split.
    { rewrite (expected_run_skip _ _ _ L).
      apply validate_raw_returns; auto. }
    assert (Hno : forall dn n,
               ~ In (OrphanIn dn n)
                   (warnings (expected_run json_load sha256 raw_dir
                                output_dir delete_orphans))).
    { intros dn n Hw; apply no_orphan_warning in Hw as [_ Hw].
      now rewrite (orphan_set_none _ _ L) in Hw. }
    destruct (scanned raw_dir) as [|f fs] eqn:Sc.
    + rewrite (expected_run_empty _ _ _ Sc) in *.
      cbn [stats warnings out_disk] in *.
      rewrite out_listing_disk, L; repeat split; auto.
    + assert (Hne : scanned raw_dir <> []) by (rewrite Sc; discriminate).
      rewrite <- Sc in *.
      destruct (expected_orphan_counters json_load sha256 raw_dir output_dir
                  delete_orphans Hne) as [Ho Hd].
      rewrite (orphan_set_none _ _ L) in Ho, Hd.
      rewrite (expected_out_disk _ _ _ _ _ Hne), L.
      repeat split; auto; now destruct delete_orphans.
  - intros Sc.
    assert (Hno : forall dn n,
               ~ In (OrphanIn dn n)
                   (warnings (expected_run json_load sha256 raw_dir
                                output_dir delete_orphans))).
    { intros dn n Hw; apply no_orphan_warning in Hw as [Hw _].
      contradiction. }
    rewrite (expected_run_empty _ _ _ Sc) in *.
    cbn [stats warnings out_disk] in *; repeat split; auto.
Qed.

(** C10.  The raw file-name set that protects output files is the set of
    all [*.json] names the raw directory lists, whatever became of the
    files.  In a run that returns, an output file that bears the name of
    a scanned raw file, be it unreadable or structurally invalid, is
    neither reported as an orphan nor unlinked, and is on disk after the
    run as it was before. *)
Theorem raw_names_protect (raw_dir : dirpath) (output_dir : option dirpath)
    (delete_orphans : bool) (r : run) (n : string) :
  validate_raw json_load sha256 raw_dir output_dir delete_orphans = Ok r ->
  In n (map fst (raw_entries raw_dir)) ->
  PyStr.endswith n ".json" = true ->
  In n (scanned raw_dir)
  /\ (forall dir_name, ~ In (OrphanIn dir_name n) (warnings r))
  /\ ~ In (Unlink n) (trace r)
  /\ (forall d, out_disk (initial_run output_dir) = Some d ->
        exists d', out_disk r = Some d' /\ lookup n d' = lookup n d).
Proof.
  intros H Hraw Hext.
  assert (Hn : In n (scanned raw_dir)) by (apply scanned_In; auto).
  assert (Hne : scanned raw_dir <> [])
    by (intros E; rewrite E in Hn; exact Hn).
  apply validate_raw_expected in H as [-> NC].
  assert (Horph : ~ In n (orphan_set raw_dir output_dir)).
  { unfold orphan_set.
    destruct (out_listing output_dir) as [[dn d]|]; [|tauto].
    unfold orphan_names; rewrite filter_In, not_in_iff; tauto. }
  split; [exact Hn|].
  split.
  { intros dn Hw; apply no_orphan_warning in Hw as [_ Hw]; contradiction. }
  split.
  { rewrite (expected_trace _ _ _ _ _ Hne); intros Hin.
    apply in_app_or in Hin as [Hin|Hin].
    - assert (Q := proj1 (Forall_forall _ _)
                     (early_trace_quiet json_load sha256 raw_dir) _ Hin).
      discriminate.
    - destruct (out_listing output_dir) as [[dn d]|]; [|contradiction].
      destruct Hin as [Hin|Hin]; [discriminate|].
      apply in_split in Hin as (pre & post & E).
      now apply orphan_trace_unlink in E as (_ & Hin & _). }
  intros d Hd.
  rewrite out_listing_disk in Hd.
  rewrite (expected_out_disk _ _ _ _ _ Hne).
  destruct (out_listing output_dir) as [[dn d0]|]; [|discriminate].
  inversion Hd; subst d0.
  eexists; split; [reflexivity|].
  destruct delete_orphans; [|reflexivity].
  rewrite lookup_remove_all.
  destruct (existsb (String.eqb n) (orphan_set raw_dir output_dir)) eqn:E;
    [|reflexivity].
  apply existsb_eqb_In in E; contradiction.
Qed.

End OrphanClaims.

(* ================================================================== *)
(** * Runs that raise *)
(* ================================================================== *)

Section RaisingRuns.

Variable json_load : list byte -> json_result.
Variable sha256 : list byte -> string.

Lemma crashes_escapes (raw : directory) (fp : string) :
  crashes json_load raw fp = true <-> open_load json_load raw fp = Escapes.
Proof.
  unfold crashes, classify.
  destruct (open_load json_load raw fp) as [doc|exc|];
    [destruct (validate_structure doc fp)| |]; split;
    intros H; try discriminate; reflexivity.
Qed.

Lemma no_crash_forall (raw : directory) (files : list string) :
  forallb (fun fp => negb (crashes json_load raw fp)) files = true <->
  forall fp, In fp files -> open_load json_load raw fp <> Escapes.
Proof.
  rewrite forallb_forall; split; intros H fp Hfp.
  - intros E; apply crashes_escapes in E.
    specialize (H fp Hfp); rewrite E in H; discriminate.
  - destruct (crashes json_load raw fp) eqn:C; [|reflexivity].
    apply crashes_escapes in C; now apply H in C.
Qed.

(** The state the reading loop has reached after the files [done]. *)
Lemma pass1_state_app (raw : directory) (st : run) (fp : string)
    (rest : list string) :
  extend
    (extend st (file_errors json_load raw fp) (file_warnings fp)
       (pass1_counts json_load raw [fp]) (file_trace json_load raw fp))
    (flat_map (file_errors json_load raw) rest)
    (flat_map file_warnings rest) (pass1_counts json_load raw rest)
    (flat_map (file_trace json_load raw) rest)
  = extend st (flat_map (file_errors json_load raw) (fp :: rest))
      (flat_map file_warnings (fp :: rest))
      (pass1_counts json_load raw (fp :: rest))
      (flat_map (file_trace json_load raw) (fp :: rest)).
Proof. now rewrite extend_extend, <- pass1_counts_cons. Qed.

(** The reading loop raises at the first file whose decoding raises an
    exception it does not catch, and only there; the exception leaves the
    run as the loop had it after the files before, with the read of that
    file begun. *)
Lemma pass1_raises (raw : directory) (files : list string) :
  forall (st : run) (valid : list string) (pn : list (string * parts))
         (e : exn) (s : run),
  pass1 json_load raw files (st, valid, pn) = Raise e s ->
  exists pre fp post,
    files = pre ++ fp :: post
    /\ forallb (fun f => negb (crashes json_load raw f)) pre = true
    /\ crashes json_load raw fp = true
    /\ e = LoadRaised fp
    /\ s = extend st (flat_map (file_errors json_load raw) (pre ++ [fp]))
             (flat_map file_warnings (pre ++ [fp]))
             (pass1_counts json_load raw (pre ++ [fp]))
             (flat_map (file_trace json_load raw) (pre ++ [fp])).
Proof.
  induction files as [|f files IH]; intros st valid pn e s;
    cbn [pass1]; [discriminate|].
  destruct (crashes json_load raw f) eqn:C.
  - rewrite check_file_crash by exact C.
    intros H; inversion H; subst e s.
    exists [], f, files; repeat split; auto.
    cbn [app flat_map]; now rewrite !app_nil_r.
  - rewrite check_file_spec by exact C.
    intros H; apply IH in H as (pre & fp & post & -> & Hpre & Hfp & -> & ->).
    exists (f :: pre), fp, post; repeat split; auto.
    + simpl; now rewrite C.
    + cbn [app]; apply pass1_state_app.
Qed.

Lemma pass1_first_crash (raw : directory) (pre post : list string)
    (fp : string) :
  forall (st : run) (valid : list string) (pn : list (string * parts)),
  forallb (fun f => negb (crashes json_load raw f)) pre = true ->
  crashes json_load raw fp = true ->
  exists s,
    pass1 json_load raw (pre ++ fp :: post) (st, valid, pn)
    = Raise (LoadRaised fp) s.
Proof.
  induction pre as [|f pre IH]; intros st valid pn Hpre Hfp;
    cbn [app pass1].
  - rewrite check_file_crash by exact Hfp; eauto.
  - simpl in Hpre; apply andb_true_iff in Hpre as [Hf Hpre].
    apply negb_true_iff in Hf.
    rewrite check_file_spec by exact Hf.
    now apply IH.
Qed.

(** [unlink] fails on an entry that is no regular file, and on one that
    the operating system refuses to remove; it leaves the run as it
    was. *)
Lemma unlink_raises (denied : list string) (n : string) (st s : run)
    (e : exn) :
  unlink denied n st = Raise e s ->
  e = UnlinkOSError n /\ s = st
  /\ forall d, out_disk st = Some d ->
       (forall data, lookup n d <> Some (File data)) \/ In n denied.
Proof.
  unfold unlink.
  destruct (out_disk st) as [d|];
    [destruct (lookup n d) as [[data|]|] eqn:L;
     [destruct (existsb (String.eqb n) denied) eqn:D|..]|];
    intros H; inversion H; repeat split; auto;
    intros d' E; inversion E; subst;
    try (left; intros data'; congruence).
  right; now apply existsb_eqb_In.
Qed.

Lemma remove_all_none (orph : list string) (o : option directory) :
  option_map (remove_all orph) o = None <-> o = None.
Proof. destruct o; simpl; split; congruence. Qed.

(** The orphan loop raises only when it deletes, at an orphan whose
    [unlink] fails: by then it has reported and deleted the orphans
    before that one, and reported that one. *)
Lemma orphan_loop_raises (dir_name : string) (denied raw_names : list string)
    (delete_orphans : bool) (listing : list string) :
  forall (st s : run) (e : exn),
  orphan_loop dir_name denied raw_names delete_orphans listing st
  = Raise e s ->
  delete_orphans = true
  /\ exists done n rest,
       orphan_names raw_names listing = done ++ n :: rest
       /\ e = UnlinkOSError n
       /\ trace s
          = trace st ++ orphan_trace dir_name true done
            ++ [Append Warning (OrphanIn dir_name n)]
       /\ out_disk s = option_map (remove_all done) (out_disk st)
       /\ forall d, out_disk s = Some d ->
            (forall data, lookup n d <> Some (File data)) \/ In n denied.
Proof.
  induction listing as [|n0 rest0 IH]; intros st s e; simpl;
    [discriminate|].
  unfold orphan_names; cbn [filter].
  destruct (not_in n0 raw_names) eqn:O; [|apply IH].
  destruct delete_orphans.
  - destruct (unlink denied n0 _) as [st'|e' s'] eqn:U.
    + apply unlink_ok in U as (d0 & data & Hd0 & L & _ & ->).
      cbn [out_disk upd_stats add_warning] in Hd0.
      intros H; apply IH in H as (_ & done & n & rest & Ho & -> & Ht & Hd & Hf).
      split; [reflexivity|].
      exists (n0 :: done), n, rest.
      split; [unfold orphan_names in Ho; cbn [app]; now rewrite Ho|].
      split; [reflexivity|].
      split.
      { rewrite Ht; unfold log; cbn [trace upd_stats add_warning
                                     set_out_disk orphan_trace flat_map app].
        now rewrite <- !app_assoc. }
      split; [|exact Hf].
      rewrite Hd; cbn [out_disk upd_stats log set_out_disk].
      now rewrite Hd0.
    + intros H; inversion H; subst e' s'.
      apply unlink_raises in U as (-> & -> & Hf).
      split; [reflexivity|].
      exists [], n0, (filter (fun n => not_in n raw_names) rest0).
      split; [reflexivity|]; split; [reflexivity|].
      cbn [trace out_disk upd_stats add_warning orphan_trace flat_map app].
      split; [reflexivity|].
      split; [destruct (out_disk st); reflexivity|].
      exact Hf.
  - intros H; apply IH in H as (T & _); discriminate.
Qed.

(** A deleting orphan loop that returns has found every orphan to be a
    regular file that the operating system lets go. *)
Lemma orphan_loop_ok_files (dir_name : string)
    (denied raw_names : list string) (listing : list string) :
  NoDup listing ->
  forall (st st' : run) (d : directory),
  out_disk st = Some d ->
  orphan_loop dir_name denied raw_names true listing st = Ok st' ->
  forall n, In n listing -> not_in n raw_names = true ->
            (exists data, lookup n d = Some (File data)) /\ ~ In n denied.
Proof.
  induction 1 as [|n rest Hn _ IH]; intros st st' d Hd; simpl;
    [intros _ m []|].
  destruct (not_in n raw_names) eqn:O.
  - destruct (unlink denied n _) as [st1|e s] eqn:U; [|discriminate].
    apply unlink_ok in U as (d0 & data & Hd0 & L & Hfree & ->).
    cbn [out_disk upd_stats add_warning] in Hd0.
    rewrite Hd in Hd0; inversion Hd0; subst d0.
    intros H m [<-|Hm] Om.
    + split; [eauto|].
      intros F; apply existsb_eqb_In in F; congruence.
    + assert (Hr : out_disk
                     (upd_stats (add_orphans_deleted 1)
                        (log (Unlink n)
                           (set_out_disk (Some (remove_entry n d))
                              (upd_stats (add_orphans 1)
                                 (add_warning (OrphanIn dir_name n) st)))))
                   = Some (remove_entry n d)) by reflexivity.
      destruct (IH _ _ _ Hr H m Hm Om) as ((data' & L') & Hfree').
      split; [|exact Hfree'].
      rewrite lookup_remove_entry in L'.
      destruct (n =? m)%string; [discriminate | eauto].
  - intros H m [<-|Hm] Om; [congruence|].
    apply (IH _ _ d Hd H m Hm Om).
Qed.

(** When no file makes the decoder raise, the run over a raw directory
    with [*.json] files reaches the orphan pass, in a state that has the
    output directory as it was found and the trace of the first three
    passes. *)
Lemma validate_raw_reaches_orphans (raw_dir : dirpath)
    (output_dir : option dirpath) (delete_orphans : bool) :
  scanned raw_dir <> [] ->
  forallb (fun fp => negb (crashes json_load (raw_entries raw_dir) fp))
    (scanned raw_dir) = true ->
  exists st,
    out_disk st = out_disk (initial_run output_dir)
    /\ trace st = early_trace json_load sha256 raw_dir
    /\ validate_raw json_load sha256 raw_dir output_dir delete_orphans
       = orphan_pass (scanned raw_dir) output_dir delete_orphans st.
Proof.
  intros Hne NC.
  unfold validate_raw; fold (scanned raw_dir).
  destruct (scanned raw_dir) as [|f fs] eqn:Sc; [contradiction|].
  rewrite (pass1_spec _ _ _ _ _ _ NC), <- Sc.
  fold (valid_set json_load raw_dir).
  rewrite (content_hash_pass_spec sha256 _ _ _
             (valid_set_files json_load raw_dir)).
  cbv zeta.
  rewrite slot_pass_spec; cbv zeta.
  eexists; split; [|split; [|reflexivity]].
  - unfold extend, upd_stats, log; cbn [out_disk]; reflexivity.
  - unfold extend, upd_stats, log, early_trace, initial_run;
      cbn [trace app].
    fold (parsed_set json_load raw_dir).
    fold (hash_groups json_load sha256 raw_dir).
    fold (slot_groups json_load raw_dir).
    fold (hash_errors json_load sha256 raw_dir).
    fold (slot_errors json_load raw_dir).
    now rewrite <- !app_assoc.
Qed.

Lemma initial_disk (output_dir : option dirpath) (dir_name : string)
    (d : directory) :
  out_listing output_dir = Some (dir_name, d) ->
  out_disk (initial_run output_dir) = Some d.
Proof. intros L; now rewrite out_listing_disk, L. Qed.

(** A listing that exists is the listing of a directory that was
    supplied. *)
Lemma out_listing_some (output_dir : option dirpath) (dir_name : string)
    (d : directory) :
  out_listing output_dir = Some (dir_name, d) ->
  exists od, output_dir = Some od /\ on_disk od = Some d
             /\ dir_name = path_name od.
Proof.
  unfold out_listing; destruct output_dir as [od|]; [|discriminate].
  destruct (on_disk od) as [d0|] eqn:D; [|discriminate].
  intros H; inversion H; subst.
  exists od; auto.
Qed.

(** What a run that raises has done.  Either the reading loop raised at
    the first file whose decoding escapes it: then nothing but reads and
    reports of the first pass has happened.  Or the orphan loop raised at
    an orphan whose [unlink] failed: then the first three passes have run,
    the output directory has been listed, and the orphans before that one
    have each been reported and deleted. *)
Lemma validate_raw_raise_state (raw_dir : dirpath)
    (output_dir : option dirpath) (delete_orphans : bool) (e : exn)
    (s : run) :
  validate_raw json_load sha256 raw_dir output_dir delete_orphans
  = Raise e s ->
  (exists pre fp post,
     scanned raw_dir = pre ++ fp :: post
     /\ forallb (fun f => negb (crashes json_load (raw_entries raw_dir) f))
          pre = true
     /\ crashes json_load (raw_entries raw_dir) fp = true
     /\ e = LoadRaised fp
     /\ trace s
        = ListDir RawDir (scanned raw_dir)
          :: flat_map (file_trace json_load (raw_entries raw_dir))
               (pre ++ [fp])
     /\ out_disk s = out_disk (initial_run output_dir))
  \/ (forallb (fun f => negb (crashes json_load (raw_entries raw_dir) f))
        (scanned raw_dir) = true
      /\ delete_orphans = true
      /\ exists dir_name d done n rest,
           out_listing output_dir = Some (dir_name, d)
           /\ orphan_set raw_dir output_dir = done ++ n :: rest
           /\ e = UnlinkOSError n
           /\ trace s
              = early_trace json_load sha256 raw_dir
                ++ ListDir OutputDir (sorted (glob_json d))
                   :: orphan_trace dir_name true done
                ++ [Append Warning (OrphanIn dir_name n)]
           /\ out_disk s = Some (remove_all done d)
           /\ ((forall data,
                  lookup n (remove_all done d) <> Some (File data))
               \/ In n (out_locked output_dir))).
Proof.
  intros H.
  destruct (forallb (fun fp => negb (crashes json_load
                                       (raw_entries raw_dir) fp))
              (scanned raw_dir)) eqn:NC.
  - right; split; [reflexivity|].
    assert (Hne : scanned raw_dir <> []).
    { intros E; unfold validate_raw in H; fold (scanned raw_dir) in H.
      rewrite E in H; discriminate. }
    destruct (validate_raw_reaches_orphans raw_dir output_dir
                delete_orphans Hne NC) as (st & Hst & Ht & E).
    rewrite E in H; clear E.
    unfold orphan_pass in H.
    destruct output_dir as [od|]; [|discriminate].
    destruct (on_disk od) as [d|] eqn:D; [|discriminate].
    assert (L : out_listing (Some od) = Some (path_name od, d))
      by (unfold out_listing; now rewrite D).
    rewrite (initial_disk _ _ _ L) in Hst.
    apply orphan_loop_raises in H
      as (T & done & n & rest & Ho & -> & Htr & Hd & Hf).
    split; [exact T|].
    exists (path_name od), d, done, n, rest.
    cbn [out_disk log trace] in Htr, Hd.
    rewrite Hst in Hd; cbn [option_map] in Hd.
    split; [exact L|]; split.
    { unfold orphan_set; now rewrite L. }
    split; [reflexivity|]; split.
    { rewrite Htr, Ht, <- !app_assoc; reflexivity. }
    split; [exact Hd|].
    exact (Hf _ Hd).
  - left.
    unfold validate_raw in H; fold (scanned raw_dir) in H.
    destruct (scanned raw_dir) as [|f fs] eqn:Sc; [discriminate|].
    rewrite <- Sc in *.
    destruct (pass1 _ _ _ _) as [[[st valid] pn]|e' s'] eqn:P1.
    + apply pass1_returns in P1; congruence.
    + inversion H; subst e' s'.
      apply pass1_raises in P1
        as (pre & fp & post & E & Hpre & Hfp & -> & ->).
      exists pre, fp, post; repeat split; auto.
Qed.

(** A deleting run that returns has found every orphan to be a regular
    file that the operating system lets go. *)
Lemma deleted_orphans_were_files (raw_dir : dirpath)
    (output_dir : option dirpath) (r : run) (dir_name : string)
    (d : directory) (n : string) :
  validate_raw json_load sha256 raw_dir output_dir true = Ok r ->
  scanned raw_dir <> [] ->
  out_listing output_dir = Some (dir_name, d) ->
  NoDup (map fst d) ->
  In n (orphan_set raw_dir output_dir) ->
  (exists data, lookup n d = Some (File data))
  /\ ~ In n (out_locked output_dir).
Proof.
  intros H Hne L ND Hn.
  assert (NC := proj2 (validate_raw_expected _ _ _ _ _ _ H)).
  destruct (validate_raw_reaches_orphans raw_dir output_dir true Hne NC)
    as (st & Hst & _ & E).
  rewrite E in H; clear E.
  rewrite (initial_disk _ _ _ L) in Hst.
  unfold orphan_pass in H; unfold orphan_set in Hn.
  assert (L' := L); unfold out_listing in L'.
  rewrite L in Hn.
  destruct output_dir as [od|]; [|discriminate].
  destruct (on_disk od) as [d0|]; [|discriminate].
  inversion L'; subst d0 dir_name.
  apply filter_In in Hn as [Hn On].
  refine (orphan_loop_ok_files _ _ _ _ _ _ _ d _ H n Hn On).
  - apply sorted_NoDup, glob_json_NoDup, ND.
  - exact Hst.
Qed.

End RaisingRuns.

(* ================================================================== *)
(** * Listing, detection and deletion in time *)
(* ================================================================== *)

Section Deletion.

Variable json_load : list byte -> json_result.
Variable sha256 : list byte -> string.

(** Around a deletion the events of the orphan loop are: the reports and
    deletions of the orphans before, the report of the orphan deleted;
    and after it the reports and deletions of the orphans that follow. *)
Lemma orphan_trace_split (dir_name : string) (delete_orphans : bool)
    (orph : list string) :
  forall (pre post : list event) (n : string),
  orphan_trace dir_name delete_orphans orph = pre ++ Unlink n :: post ->
  delete_orphans = true
  /\ exists earlier later,
       orph = earlier ++ n :: later
       /\ pre = orphan_trace dir_name true earlier
                ++ [Append Warning (OrphanIn dir_name n)]
       /\ post = orphan_trace dir_name true later.
Proof.
  induction orph as [|m orph IH]; intros pre post n E.
  - destruct pre; discriminate.
  - unfold orphan_trace in E; simpl in E.
    fold (orphan_trace dir_name delete_orphans orph) in E.
    destruct delete_orphans.
    + destruct pre as [|e1 [|e2 pre]]; simpl in E; inversion E; subst.
      * split; [reflexivity|]; exists [], orph; auto.
      * destruct (IH _ _ _ H2) as (_ & earlier & later & -> & -> & ->).
        split; [reflexivity|].
        exists (m :: earlier), later; auto.
    + destruct pre as [|e1 pre]; simpl in E; inversion E; subst.
      destruct (IH _ _ _ H1) as (F & _); discriminate.
Qed.

Lemma snoc_split (X pre post : list event) (w : event) (n : string) :
  w <> Unlink n ->
  X ++ [w] = pre ++ Unlink n :: post ->
  exists post', post = post' ++ [w] /\ X = pre ++ Unlink n :: post'.
Proof.
  intros Hw E.
  assert (Hne : Unlink n :: post <> []) by discriminate.
  destruct (exists_last Hne) as (l' & x & El).
  rewrite El, app_assoc in E.
  apply app_inj_tail in E as [-> <-].
  destruct l' as [|y l'].
  - inversion El; subst; now destruct Hw.
  - inversion El; subst; exists l'; auto.
Qed.

Lemma file_traces_quiet (raw : directory) (files : list string) :
  Forall (fun e => before_orphan_pass e = true)
    (flat_map (file_trace json_load raw) files).
Proof.
  apply Forall_forall; intros e H.
  apply in_flat_map in H as (fp & _ & H); unfold file_trace in H.
  apply in_app_or in H as [H|H]; [|apply in_app_or in H as [H|H]].
  - apply in_map_iff in H as (m & <- & H).
    unfold file_warnings in H; destruct (unparsable fp); [|contradiction].
    destruct H as [<-|[]]; reflexivity.
  - destruct H as [<-|[]]; reflexivity.
  - apply in_map_iff in H as (m & <- & _); reflexivity.
Qed.

(** C5.  What holds of every call, whether it returns or stops at an
    [unlink] that fails.  A file is deleted only with [delete_orphans]
    set, only after the output directory has been listed, and it is an
    orphan of that listing, which was built in full, as the directory was,
    before the first deletion; no directory is listed after a deletion.
    But orphans are not all identified before the first deletion: the
    loop over the listing tests one name at a time and deletes an orphan
    right after reporting it, so that when a file is deleted exactly the
    orphans listed up to it have been reported, the ones before it have
    been deleted, and the ones after it are reported and deleted later,
    in order, up to the end of the listing or to the orphan at which
    [unlink] fails. *)
Theorem deletion_follows_listing (raw_dir : dirpath)
    (output_dir : option dirpath) (delete_orphans : bool)
    (pre post : list event) (n : string) :
  trace (left_behind
           (validate_raw json_load sha256 raw_dir output_dir delete_orphans))
  = pre ++ Unlink n :: post ->
  delete_orphans = true
  /\ exists dir_name d before earlier later,
       out_listing output_dir = Some (dir_name, d)
       /\ orphan_set raw_dir output_dir = earlier ++ n :: later
       /\ Forall (fun e => before_orphan_pass e = true) before
       /\ pre = before
                ++ ListDir OutputDir (sorted (glob_json d))
                   :: orphan_trace dir_name true earlier
                ++ [Append Warning (OrphanIn dir_name n)]
       /\ (post = orphan_trace dir_name true later
           \/ exists done m rest,
                later = done ++ m :: rest
                /\ post = orphan_trace dir_name true done
                          ++ [Append Warning (OrphanIn dir_name m)])
       /\ (forall m, In m (orphan_set raw_dir output_dir) ->
             In m (sorted (glob_json d)))
       /\ (forall p names, ~ In (ListDir p names) post).
Proof.
  intros E.
  assert (Hlist : forall dn d, out_listing output_dir = Some (dn, d) ->
            forall m, In m (orphan_set raw_dir output_dir) ->
                      In m (sorted (glob_json d))).
  { intros dn d L m Hm; apply (orphan_set_In _ _ _ _ _ L) in Hm as [Hm _].
    now apply sorted_In. }
  destruct (validate_raw json_load sha256 raw_dir output_dir delete_orphans)
    as [r|e s] eqn:V; cbn [left_behind] in E.
  - apply validate_raw_expected in V as [-> _].
    destruct (scanned raw_dir) as [|f fs] eqn:Sc.
    { rewrite (expected_run_empty _ _ _ _ _ Sc) in E; simpl in E.
      destruct pre as [|e1 [|e2 [|e3 pre]]]; discriminate. }
    assert (Hne : scanned raw_dir <> []) by (rewrite Sc; discriminate).
    rewrite (expected_trace _ _ _ _ _ Hne) in E.
    apply (split_after before_orphan_pass) in E as (pre2 & -> & E);
      [|apply early_trace_quiet|reflexivity].
    destruct (out_listing output_dir) as [[dn d]|] eqn:L;
      [|destruct pre2; discriminate].
    destruct pre2 as [|e0 pre2]; [discriminate|].
    inversion E as [[He E']]; subst e0; clear E.
    apply orphan_trace_split in E'
      as (Hdel & earlier & later & Ho & -> & ->).
    split; [exact Hdel|].
    exists dn, d, (early_trace json_load sha256 raw_dir), earlier, later.
    split; [reflexivity|]; split; [exact Ho|].
    split; [apply early_trace_quiet|].
    split; [reflexivity|].
    split; [left; reflexivity|].
    split; [apply (Hlist dn d eq_refl)|].
    intros p names; apply orphan_trace_no_listing.
  - apply validate_raw_raise_state in V
      as [(pre0 & fp & post0 & _ & _ & _ & _ & Ht & _)
         |(_ & Hdel & dn & d & done & m & rest & L & Ho & _ & Ht & _)];
      rewrite Ht in E; clear Ht.
    + exfalso.
      assert (Q : Forall (fun a => before_orphan_pass a = true)
                    (ListDir RawDir (scanned raw_dir)
                     :: flat_map (file_trace json_load (raw_entries raw_dir))
                          (pre0 ++ [fp])))
        by (constructor; [reflexivity | apply file_traces_quiet]).
      rewrite E in Q; rewrite Forall_forall in Q.
      specialize (Q (Unlink n)); simpl in Q.
      assert (F : false = true)
        by (apply Q, in_or_app; right; left; reflexivity).
      discriminate.
    + apply (split_after before_orphan_pass) in E as (pre2 & -> & E);
        [|apply early_trace_quiet|reflexivity].
      destruct pre2 as [|e0 pre2]; [discriminate|].
      inversion E as [[He E']]; subst e0; clear E.
      apply snoc_split in E' as (post' & -> & E'); [|discriminate].
      apply orphan_trace_split in E'
        as (_ & earlier & later0 & -> & -> & ->).
      split; [exact Hdel|].
      exists dn, d, (early_trace json_load sha256 raw_dir), earlier,
        (later0 ++ m :: rest).
      split; [exact L|].
      split; [rewrite Ho, <- app_assoc; reflexivity|].
      split; [apply early_trace_quiet|].
      split; [reflexivity|].
      split; [right; exists later0, m, rest; auto|].
      split; [apply (Hlist dn d L)|].
      intros p names Hin; apply in_app_or in Hin as [Hin|[Hin|[]]];
        [now apply orphan_trace_no_listing in Hin | discriminate].
Qed.

End Deletion.

Lemma deletion_follows_listing_witness :
  let json_load := Example.json_load in
  let sha256 := Example.sha256 in
  let raw_dir := Example.raw_at Example.mixed in
  let output_dir := Some Example.output_locked in
  let delete_orphans := true in
  let pre := Example.stopped_before_unlink in
  let post := Example.stopped_after_unlink in
  let n := "888_outgoing_1_1.json" in
  trace (left_behind
           (validate_raw json_load sha256 raw_dir output_dir delete_orphans))
  = pre ++ Unlink n :: post
  /\ (delete_orphans = true
      /\ exists dir_name d before earlier later,
           out_listing output_dir = Some (dir_name, d)
           /\ orphan_set raw_dir output_dir = earlier ++ n :: later
           /\ Forall (fun e => before_orphan_pass e = true) before
           /\ pre = before
                    ++ ListDir OutputDir (sorted (glob_json d))
                       :: orphan_trace dir_name true earlier
                    ++ [Append Warning (OrphanIn dir_name n)]
           /\ (post = orphan_trace dir_name true later
               \/ exists done m rest,
                    later = done ++ m :: rest
                    /\ post = orphan_trace dir_name true done
                              ++ [Append Warning (OrphanIn dir_name m)])
           /\ (forall m, In m (orphan_set raw_dir output_dir) ->
                 In m (sorted (glob_json d)))
           /\ (forall p names, ~ In (ListDir p names) post)).
Proof.
  cbv zeta.
  split; [reflexivity|].
  exact (deletion_follows_listing Example.json_load Example.sha256
           (Example.raw_at Example.mixed) (Some Example.output_locked) true
           Example.stopped_before_unlink Example.stopped_after_unlink
           "888_outgoing_1_1.json" eq_refl).
Defined.

(** C5 as the specification states it does not hold: deletion starts
    before all orphans have been identified.  In the deleting run over
    [mixed] and [produced] the orphan [999_incoming_0_0.json] has not been
    reported when [888_outgoing_1_1.json] is unlinked; it is tested and
    reported after that deletion. *)
Lemma orphan_identified_after_a_deletion :
  validate_raw Example.json_load Example.sha256
    (Example.raw_at Example.mixed)
    (Some (Example.output_at Example.produced)) true
  = Ok Example.run_mixed
  /\ trace Example.run_mixed
     = Example.before_first_unlink
       ++ Unlink "888_outgoing_1_1.json" :: Example.after_first_unlink
  /\ In "999_incoming_0_0.json"
       (orphan_set (Example.raw_at Example.mixed)
          (Some (Example.output_at Example.produced)))
  /\ ~ In (Append Warning (OrphanIn "output" "999_incoming_0_0.json"))
        Example.before_first_unlink
  /\ In (Append Warning (OrphanIn "output" "999_incoming_0_0.json"))
       Example.after_first_unlink.
Proof.
  split; [reflexivity|]; split; [reflexivity|].
  split; [vm_compute; tauto|].
  split; [|vm_compute; tauto].
  intros H; repeat (destruct H as [H|H]; [discriminate|]); exact H.
Qed.

(** C7 as the specification states it does not hold for every run: over
    a raw directory without [*.json] files the run returns before the
    orphan pass, and an output file that has no raw source gets no
    warning and is not counted. *)
Lemma orphan_unreported_when_raw_is_empty :
  validate_raw Example.json_load Example.sha256 (Example.raw_at [])
    (Some (Example.output_at Example.produced)) true
  = Ok Example.run_empty
  /\ In "999_incoming_0_0.json" (glob_json Example.produced)
  /\ ~ In "999_incoming_0_0.json" (scanned (Example.raw_at []))
  /\ filter (is_orphan_warning "999_incoming_0_0.json")
       (warnings Example.run_empty) = []
  /\ orphans (stats Example.run_empty) = 0%Z
  /\ out_disk Example.run_empty = Some Example.produced.
Proof.
  repeat split; try reflexivity.
  - vm_compute; tauto.
  - vm_compute; tauto.
Qed.

Lemma orphans_reconciled_witness :
  let json_load := Example.json_load in
  let sha256 := Example.sha256 in
  let raw_dir := Example.raw_at Example.mixed in
  let output_dir := Some (Example.output_at Example.produced) in
  let delete_orphans := true in
  let r := Example.run_mixed in
  validate_raw json_load sha256 raw_dir output_dir delete_orphans = Ok r
  /\ ((forall dir_name d,
         out_listing output_dir = Some (dir_name, d) ->
         scanned raw_dir <> [] ->
         NoDup (map fst d) ->
         let orph := orphan_set raw_dir output_dir in
         (forall n, In n orph <->
                    In n (glob_json d) /\ ~ In n (scanned raw_dir))
         /\ (forall n, In n orph ->
               In (OrphanIn dir_name n) (warnings r)
               /\ List.length (filter (is_orphan_warning n) (warnings r))
                  = 1%nat)
         /\ (forall n, ~ In n orph ->
               List.length (filter (is_orphan_warning n) (warnings r))
               = 0%nat)
         /\ orphans (stats r) = Z.of_nat (List.length orph)
         /\ (delete_orphans = true ->
               orphans_deleted (stats r) = Z.of_nat (List.length orph)
               /\ exists d', out_disk r = Some d'
                    /\ (forall n, In n orph -> lookup n d' = None)
                    /\ (forall n, ~ In n orph -> lookup n d' = lookup n d))
         /\ (delete_orphans = false ->
               orphans_deleted (stats r) = 0%Z /\ out_disk r = Some d))
      /\ (out_listing output_dir = None ->
            validate_raw json_load sha256 raw_dir None delete_orphans = Ok r
            /\ orphans (stats r) = 0%Z /\ orphans_deleted (stats r) = 0%Z
            /\ (forall dir_name n, ~ In (OrphanIn dir_name n) (warnings r))
            /\ out_disk r = None)
      /\ (scanned raw_dir = [] ->
            orphans (stats r) = 0%Z /\ orphans_deleted (stats r) = 0%Z
            /\ (forall dir_name n, ~ In (OrphanIn dir_name n) (warnings r))
            /\ out_disk r = out_disk (initial_run output_dir))).
Proof.
  cbv zeta.
  split; [reflexivity|].
  exact (orphans_reconciled Example.json_load Example.sha256
           (Example.raw_at Example.mixed)
           (Some (Example.output_at Example.produced)) true
           Example.run_mixed eq_refl).
Defined.

Lemma raw_names_protect_witness :
  let json_load := Example.json_load in
  let sha256 := Example.sha256 in
  let raw_dir := Example.raw_at Example.mixed in
  let output_dir := Some (Example.output_at Example.produced) in
  let delete_orphans := true in
  let r := Example.run_mixed in
  let n := "broken.json" in
  validate_raw json_load sha256 raw_dir output_dir delete_orphans = Ok r
  /\ In n (map fst (raw_entries raw_dir))
  /\ PyStr.endswith n ".json" = true
  /\ (In n (scanned raw_dir)
      /\ (forall dir_name, ~ In (OrphanIn dir_name n) (warnings r))
      /\ ~ In (Unlink n) (trace r)
      /\ (forall d, out_disk (initial_run output_dir) = Some d ->
            exists d', out_disk r = Some d' /\ lookup n d' = lookup n d)).
Proof.
  cbv zeta.
  assert (I : In "broken.json"
                (map fst (raw_entries (Example.raw_at Example.mixed))))
    by (simpl; tauto).
  split; [reflexivity|].
  split; [exact I|].
  split; [reflexivity|].
  exact (raw_names_protect Example.json_load Example.sha256
           (Example.raw_at Example.mixed)
           (Some (Example.output_at Example.produced)) true
           Example.run_mixed "broken.json" eq_refl I eq_refl).
Defined.

(* ================================================================== *)
(** * The exit code *)
(* ================================================================== *)

Section ExitCode.

Local Open Scope Z_scope.

Variable json_load : list byte -> json_result.
Variable sha256 : list byte -> string.

(** C8.  When the raw directory does not exist, [main] returns 1 at once:
    nothing on standard output, no call of [validate_raw].  Whenever
    [main] returns, the exit code is 0 or 1; it is 0 exactly when
    [validate_raw] ran and left no error and either no warning or strict
    mode off; it is 1 exactly when the raw directory does not exist, or
    there is an error, or there is a warning in strict mode. *)
Theorem main_exit_code (a : args) :
  (on_disk (raw_dir a) = None ->
   main json_load sha256 a
   = Ok (mkProcess 1 [] [DirectoryNotFound (path_str (raw_dir a))] None))
  /\ (forall p,
        main json_load sha256 a = Ok p ->
        (exit_code p = 0 <->
         exists r, ran p = Some r /\ errors r = []
                   /\ (warnings r = [] \/ strict a = false))
        /\ (exit_code p = 1 <->
            on_disk (raw_dir a) = None
            \/ exists r, ran p = Some r
                 /\ (errors r <> [] \/ (warnings r <> [] /\ strict a = true)))
        /\ (exit_code p = 0 \/ exit_code p = 1)
        /\ (forall r, ran p = Some r ->
              on_disk (raw_dir a) <> None
              /\ validate_raw json_load sha256 (raw_dir a) (output_dir a)
                   (delete_orphans a) = Ok r
              /\ stdout p = print_report r /\ stderr p = [])).
Proof.
  unfold main; split.
  - now intros ->.
  - intros p.
    destruct (on_disk (raw_dir a)) as [d|] eqn:D.
    + destruct (validate_raw _ _ _ _ _) as [r|e] eqn:V; [|discriminate].
      intros H; inversion H; subst p; clear H; cbn [exit_code ran stdout stderr].
      destruct (errors r) as [|m ms] eqn:Er; cbn [is_empty negb andb].
      * destruct (warnings r) as [|w ws] eqn:Wr; cbn [is_empty negb andb].
        -- repeat split; auto; try discriminate.
           ++ intros _; exists r; auto.
           ++ intros [F|(r' & E & [F|[F _]])]; try discriminate;
                inversion E; subst; congruence.
           ++ inversion H; subst; auto.
           ++ inversion H; subst; auto.
        -- destruct (strict a) eqn:St; repeat split; auto; try discriminate.
           ++ intros (r' & E & _ & [F|F]); inversion E; subst;
                congruence.
           ++ intros _; right; exists r; split; auto; right; split; auto.
              rewrite Wr; discriminate.
           ++ inversion H; subst; auto.
           ++ inversion H; subst; auto.
           ++ intros _; exists r; auto.
           ++ intros [F|(r' & E & [F|[_ F]])]; try discriminate;
                inversion E; subst; congruence.
           ++ inversion H; subst; auto.
           ++ inversion H; subst; auto.
      * repeat split; auto; try discriminate.
        -- intros (r' & E & F & _); inversion E; subst; congruence.
        -- intros _; right; exists r; split; auto; left.
           rewrite Er; discriminate.
        -- inversion H; subst; auto.
        -- inversion H; subst; auto.
    + intros H; inversion H; subst p; clear H; cbn [exit_code ran].
      repeat split; auto; try discriminate.
      intros (r & F & _); discriminate.
Qed.

End ExitCode.

Lemma main_exit_code_witness :
  main Example.json_load Example.sha256 Example.strict_args
  = Ok Example.strict_process
  /\ (exit_code Example.strict_process = 1%Z <->
      on_disk (raw_dir Example.strict_args) = None
      \/ exists r, ran Example.strict_process = Some r
           /\ (errors r <> []
               \/ (warnings r <> [] /\ strict Example.strict_args = true))).
Proof.
  split; [reflexivity|].
  exact (proj1 (proj2 (proj2 (main_exit_code Example.json_load
                                Example.sha256 Example.strict_args)
                         Example.strict_process eq_refl))).
Defined.

(* ================================================================== *)
(** * More on the file-name parser *)
(* ================================================================== *)

Section ParserRoundTrips.

Import FileName.
Local Open Scope string_scope.

Lemma append_assoc (a b c : string) : (a ++ b) ++ c = a ++ (b ++ c).
Proof. induction a as [|ch a IH]; simpl; [reflexivity | now rewrite IH]. Qed.

Lemma lower_app (a b : string) :
  PyStr.lower (a ++ b) = PyStr.lower a ++ PyStr.lower b.
Proof. induction a as [|ch a IH]; simpl; [reflexivity | now rewrite IH]. Qed.

Lemma lower_digits (s : string) :
  PyStr.all_chars PyStr.is_digit s = true -> PyStr.lower s = s.
Proof.
  induction s as [|c s IH]; simpl; [reflexivity|].
  intros H; apply andb_true_iff in H as [Hc Hs].
  now rewrite (digit_lower_char _ Hc), (IH Hs).
Qed.

(** The slot key of a parse followed by the extension is a name of the
    convention, made of the parts. *)
Lemma slot_key_name (dev dir gx gy : string) :
  slot_key (mkParts dev dir gx gy) ++ ".json"
  = dev ++ "_" ++ dir ++ "_" ++ gx ++ "_" ++ gy ++ ".json".
Proof.
  unfold slot_key; cbn [device direction x y].
  now rewrite !append_assoc.
Qed.

(** The lower-cased name behind a parse is the slot key and the
    extension, and a line feed if the name ends in one. *)
Lemma parse_lower_name (name : string) (p : parts) :
  parse_filename name = Some p ->
  PyStr.lower name = slot_key p ++ ".json"
  \/ PyStr.lower name = slot_key p ++ ".json" ++ PyStr.LF.
Proof.
  intros H.
  apply parse_filename_accepted in H
    as (dev & dir & gx & gy
        & (ext & tail & -> & Hd & Hdir & Hx & Hy & Hext & Htail) & ->).
  rewrite !lower_app, Hext.
  rewrite (lower_digits dev), (lower_digits gx), (lower_digits gy)
    by (apply Hd || apply Hx || apply Hy).
  change (PyStr.lower "_") with "_".
  unfold slot_key; cbn [device direction x y].
  rewrite !append_assoc.
  destruct Htail as [->| ->]; [left|right]; reflexivity.
Qed.

(** X1.  Over the names whose characters all have code points below
    256 (the strings of this embedding, where [\d] is [0-9] and case is
    Latin-1 case): [parse_filename] returns a parse exactly for the names
    of the language of its pattern: digits, [_], the direction keyword in
    any mix of cases, [_], digits, [_], digits, the extension in any mix of
    cases, and then the end of the name or one line feed; and the parse
    is the three digit strings as they stand, with the direction in lower
    case.  Names with characters beyond code point 255 (other Unicode
    decimal digits, U+0130, U+0131, U+017F, U+212A) are not covered. *)
Theorem parse_filename_exactly (name : string) (p : parts) :
  parse_filename name = Some p <->
  exists dev dir gx gy,
    accepted name dev dir gx gy /\ p = mkParts dev (PyStr.lower dir) gx gy.
Proof. apply parse_filename_accepted. Qed.

(** X2.  Building a name from a device id, a direction keyword in any
    mix of cases and two tile coordinates, and parsing it, gives the
    device id and the coordinates back as the same strings (leading
    zeros and all) and the direction in lower case. *)
Theorem parse_recovers_fields (name dev dir gx gy : string) :
  digit_string dev -> direction_token dir ->
  digit_string gx -> digit_string gy ->
  name = dev ++ "_" ++ dir ++ "_" ++ gx ++ "_" ++ gy ++ ".json" ->
  parse_filename name = Some (mkParts dev (PyStr.lower dir) gx gy).
Proof.
  intros Hd Hdir Hx Hy ->.
  apply parse_filename_conforms; repeat split; try apply Hd;
    try apply Hx; try apply Hy; exact Hdir.
Qed.

(** X3.  Over the names whose characters all have code points below
    256 (the strings of this embedding; names with characters beyond are
    not covered): a parse is never partial, and it determines the name up
    to case: the device id and the coordinates are non-empty strings of
    the digits [0-9] and the direction is [incoming] or [outgoing]; the
    lower-cased name is the slot key followed by [.json] (and by a line
    feed, if the name ends in one); and the slot key followed by [.json]
    is itself a name that parses to the same parts. *)
Theorem parse_determines_name (name : string) (p : parts) :
  parse_filename name = Some p ->
  well_formed p
  /\ (PyStr.lower name = slot_key p ++ ".json"
      \/ PyStr.lower name = slot_key p ++ ".json" ++ PyStr.LF)
  /\ parse_filename (slot_key p ++ ".json") = Some p.
Proof.
  intros H.
  split; [exact (parse_filename_well_formed _ _ H)|].
  split; [exact (parse_lower_name _ _ H)|].
  apply parse_filename_accepted in H
    as (dev & dir & gx & gy
        & (ext & tail & _ & Hd & Hdir & Hx & Hy & _) & ->).
  rewrite slot_key_name.
  assert (L : PyStr.lower (PyStr.lower dir) = PyStr.lower dir)
    by (destruct Hdir as [E|E]; rewrite E; reflexivity).
  rewrite <- L at 2.
  apply parse_filename_conforms; repeat split; try apply Hd;
    try apply Hx; try apply Hy.
  unfold direction_token; rewrite L; exact Hdir.
Qed.

End ParserRoundTrips.

Lemma parse_recovers_fields_witness :
  FileName.digit_string "007"
  /\ FileName.direction_token "OutGoing"
  /\ FileName.digit_string "05"
  /\ FileName.digit_string "12"
  /\ "007_OutGoing_05_12.json"
     = ("007" ++ "_" ++ "OutGoing" ++ "_" ++ "05" ++ "_" ++ "12" ++ ".json")%string
  /\ parse_filename "007_OutGoing_05_12.json"
     = Some (mkParts "007" (PyStr.lower "OutGoing") "05" "12").
Proof.
  assert (D1 : FileName.digit_string "007")
    by (split; [discriminate | reflexivity]).
  assert (D2 : FileName.digit_string "05")
    by (split; [discriminate | reflexivity]).
  assert (D3 : FileName.digit_string "12")
    by (split; [discriminate | reflexivity]).
  assert (T : FileName.direction_token "OutGoing") by (right; reflexivity).
  repeat (split; [assumption || reflexivity|]).
  exact (parse_recovers_fields "007_OutGoing_05_12.json" "007" "OutGoing"
           "05" "12" D1 T D2 D3 eq_refl).
Defined.

Lemma parse_determines_name_witness :
  parse_filename "111_INCOMING_0_0.JSON"
  = Some (mkParts "111" "incoming" "0" "0")
  /\ (FileName.well_formed (mkParts "111" "incoming" "0" "0")
      /\ (PyStr.lower "111_INCOMING_0_0.JSON"
          = (slot_key (mkParts "111" "incoming" "0" "0") ++ ".json")%string
          \/ PyStr.lower "111_INCOMING_0_0.JSON"
             = (slot_key (mkParts "111" "incoming" "0" "0") ++ ".json"
                ++ PyStr.LF)%string)
      /\ parse_filename
           (slot_key (mkParts "111" "incoming" "0" "0") ++ ".json")%string
         = Some (mkParts "111" "incoming" "0" "0")).
Proof.
  split; [reflexivity|].
  exact (parse_determines_name "111_INCOMING_0_0.JSON"
           (mkParts "111" "incoming" "0" "0") eq_refl).
Defined.

(* ================================================================== *)
(** * Slot collisions are clashes of case *)
(* ================================================================== *)

Section Suffix.

Local Open Scope string_scope.

Lemma substring_all (s : string) : substring 0 (String.length s) s = s.
Proof. induction s as [|c s IH]; simpl; [reflexivity | now rewrite IH]. Qed.

Lemma substring_split (s : string) :
  forall k : nat, (k <= String.length s)%nat ->
  s = substring 0 k s ++ substring k (String.length s - k) s.
Proof.
  induction s as [|c s IH]; intros [|k] Hk; simpl in *;
    try reflexivity; try lia.
  - now rewrite substring_all.
  - now rewrite <- IH by lia.
Qed.

(** [s.endswith(suf)] holds only of a string that ends in [suf]. *)
Lemma endswith_suffix (s suf : string) :
  PyStr.endswith s suf = true -> exists pre, s = pre ++ suf.
Proof.
  unfold PyStr.endswith.
  generalize (String.length suf); intros m H.
  apply andb_true_iff in H as [Hle Heq].
  apply Nat.leb_le in Hle; apply String.eqb_eq in Heq.
  exists (substring 0 (String.length s - m) s).
  rewrite <- Heq.
  assert (S := substring_split s (String.length s - m) ltac:(lia)).
  replace (String.length s - (String.length s - m))%nat with m in S by lia.
  exact S.
Qed.

(** A name that the listing yields and that parses does not end in a line
    feed: lower-cased it is the slot key and the extension. *)
Lemma listed_lower_name (n : string) (p : parts) :
  PyStr.endswith n ".json" = true -> parse_filename n = Some p ->
  PyStr.lower n = slot_key p ++ ".json".
Proof.
  intros He Hp.
  destruct (parse_lower_name _ _ Hp) as [E|E]; [exact E|exfalso].
  apply endswith_suffix in He as [pre ->].
  assert (L : FileName.last_char (PyStr.lower (pre ++ ".json"))
              = Some "n"%char)
    by (rewrite lower_app; apply last_char_app; discriminate).
  rewrite E in L.
  rewrite !last_char_app in L by discriminate.
  discriminate.
Qed.

End Suffix.

Section DictKeys.

Context {V : Type}.

Lemma dict_set_In (k k' : string) (v v' : V) (d : list (string * V)) :
  In (k, v) (Dict.set k' v' d) -> (k = k' /\ v = v') \/ In (k, v) d.
Proof.
  induction d as [|[k0 v0] d IH]; simpl.
  - intros [H|[]]; inversion H; auto.
  - destruct (k0 =? k')%string eqn:E.
    + apply String.eqb_eq in E; subst k0.
      intros [H|H]; [inversion H; auto | auto].
    + intros [H|H]; [auto | destruct (IH H); auto].
Qed.

Lemma set_all_In (items : list (string * V)) :
  forall (d : list (string * V)) (kv : string * V),
  In kv (set_all items d) -> In kv d \/ In kv items.
Proof.
  unfold set_all.
  induction items as [|[k v] items IH]; intros d [k0 v0]; simpl; auto.
  intros H; apply IH in H as [H|H]; auto.
  apply dict_set_In in H as [[-> ->]|H]; auto.
Qed.

Lemma dict_set_NoDup (k : string) (v : V) (d : list (string * V)) :
  NoDup (map fst d) -> NoDup (map fst (Dict.set k v d)).
Proof.
  induction d as [|[k0 v0] d IH]; simpl; intros H.
  - constructor; [tauto | constructor].
  - inversion H as [|? ? Hk Hd]; subst.
    destruct (k0 =? k)%string eqn:E; simpl; [constructor; auto|].
    constructor; auto.
    intros Hin; apply dict_set_keys in Hin as [->|Hin]; auto.
    now rewrite String.eqb_refl in E.
Qed.

Lemma set_all_NoDup (items : list (string * V)) :
  forall d : list (string * V),
  NoDup (map fst d) -> NoDup (map fst (set_all items d)).
Proof.
  unfold set_all.
  induction items as [|[k v] items IH]; intros d H; simpl; auto.
  apply IH, dict_set_NoDup, H.
Qed.

Lemma filter_keys_NoDup (f : string * V -> bool) (d : list (string * V)) :
  NoDup (map fst d) -> NoDup (map fst (filter f d)).
Proof.
  induction d as [|kv d IH]; simpl; intros H; [constructor|].
  inversion H as [|? ? Hk Hd]; subst.
  destruct (f kv); simpl; auto.
  constructor; auto.
  intros Hin; apply Hk.
  apply in_map_iff in Hin as (a & <- & Ha).
  apply filter_In in Ha as [Ha _]; now apply in_map.
Qed.

End DictKeys.

Section Groups.

(** Groups of one member each give no report and no extra copy. *)
Lemma singletons_quiet (mk : string -> string -> message)
    (G : list (string * list string)) :
  (forall k paths, In (k, paths) G -> (List.length paths <= 1)%nat) ->
  group_errors mk G = [] /\ extra_copies G = 0%Z.
Proof.
  induction G as [|[k paths] G IH]; intros H; simpl; [auto|].
  assert (L : (1 <? List.length paths)%nat = false)
    by (apply Nat.ltb_ge, (H k); left; reflexivity).
  rewrite L; simpl.
  destruct IH as [-> ->]; [intros k' p' Hin; apply (H k'); now right|].
  auto.
Qed.

Lemma all_equal_short {A : Type} (l : list A) :
  NoDup l -> (forall a b, In a l -> In b l -> a = b) ->
  (List.length l <= 1)%nat.
Proof.
  intros ND H; destruct l as [|a [|b l]]; simpl; try lia.
  inversion ND as [|? ? Ha _]; subst.
  exfalso; apply Ha; left; symmetry; apply H; simpl; auto.
Qed.

End Groups.

Section CaseClash.

Local Open Scope string_scope.

Variable json_load : list byte -> json_result.
Variable sha256 : list byte -> string.

(** The members of a slot group: distinct valid files, whose lower-cased
    names are all the key of the group followed by [.json]. *)
Lemma slot_group_members (raw_dir : dirpath) (k : string)
    (paths : list string) :
  In (k, paths) (slot_groups json_load raw_dir) ->
  NoDup paths
  /\ forall n, In n paths ->
       In n (valid_set json_load raw_dir)
       /\ PyStr.lower n = k ++ ".json".
Proof.
  intros H.
  destruct (slot_groups_grouping json_load raw_dir) as (_ & Hent & _).
  destruct (Hent _ _ H) as [_ ->].
  split.
  - apply filter_keys_NoDup, set_all_NoDup; constructor.
  - intros n Hn.
    apply in_map_iff in Hn as ([f p] & <- & Hin).
    apply filter_In in Hin as [Hin Hk]; simpl in Hk |- *.
    apply String.eqb_eq in Hk.
    apply set_all_In in Hin as [[]|Hin].
    apply parsed_set_In in Hin as [Hv Hp].
    split; [exact Hv|].
    rewrite <- Hk; apply listed_lower_name; [|exact Hp].
    apply filter_In in Hv as [Hs _].
    now apply scanned_In in Hs.
Qed.

Lemma slot_collision_errors (raw_dir : dirpath)
    (output_dir : option dirpath) (delete_orphans : bool) (m : message) :
  In m (errors (expected_run json_load sha256 raw_dir output_dir
                  delete_orphans)) ->
  is_slot_collision m = true ->
  In m (slot_errors json_load raw_dir).
Proof.
  rewrite expected_errors; intros H T.
  apply in_app_or in H as [H|H]; [|apply in_app_or in H as [H|H]]; auto.
  - apply in_flat_map in H as (fp & _ & H).
    unfold file_errors in H.
    destruct (classify json_load (raw_entries raw_dir) fp) as [exc|err| |]
      eqn:C; simpl in H; try tauto.
    + destruct H as [<-|[]]; discriminate.
    + destruct H as [<-|[]].
      unfold classify in C.
      destruct (open_load json_load (raw_entries raw_dir) fp); try discriminate.
      destruct (validate_structure doc fp) eqn:Vs; inversion C; subst.
      apply validate_structure_structural in Vs.
      destruct err; discriminate.
  - apply group_errors_inv in H as (k & paths & _ & _ & ->); discriminate.
Qed.

(** X4.  In a run that returns, a slot collision is only ever reported
    for files whose names differ in nothing but the case of letters: the
    names listed in the error are distinct valid files, more than one, and
    each of them lower-cased is the slot key of the error followed by
    [.json].  So over a raw directory in which no two [*.json] names are
    equal up to case, no slot collision is reported and the counter is
    zero. *)
Theorem slot_collision_is_case_clash (raw_dir : dirpath)
    (output_dir : option dirpath) (delete_orphans : bool) (r : run) :
  validate_raw json_load sha256 raw_dir output_dir delete_orphans = Ok r ->
  (forall key names, In (SlotCollision key names) (errors r) ->
     exists paths,
       names = PyStr.join ", " paths
       /\ (1 < List.length paths)%nat
       /\ NoDup paths
       /\ forall n, In n paths ->
            In n (valid_set json_load raw_dir)
            /\ PyStr.lower n = key ++ ".json")
  /\ ((forall n1 n2, In n1 (scanned raw_dir) -> In n2 (scanned raw_dir) ->
         PyStr.lower n1 = PyStr.lower n2 -> n1 = n2) ->
      slot_collisions (stats r) = 0%Z
      /\ forall key names, ~ In (SlotCollision key names) (errors r)).
Proof.
  intros H; apply validate_raw_expected in H as [-> _].
  split.
  - intros key names Hin.
    apply slot_collision_errors in Hin; [|reflexivity].
    apply group_errors_inv in Hin as (k & paths & Hg & Hlen & E).
    inversion E; subst key names.
    destruct (slot_group_members _ _ _ Hg) as [ND Hm].
    exists paths; auto.
  - intros Hcase.
    assert (Hshort : forall k paths,
               In (k, paths) (slot_groups json_load raw_dir) ->
               (List.length paths <= 1)%nat).
    { intros k paths Hg.
      destruct (slot_group_members _ _ _ Hg) as [ND Hm].
      apply all_equal_short; [exact ND|].
      intros a b Ha Hb.
      destruct (Hm a Ha) as [Va La], (Hm b Hb) as [Vb Lb].
      apply filter_In in Va as [Va _], Vb as [Vb _].
      apply Hcase; auto; congruence. }
    destruct (singletons_quiet SlotCollision _ Hshort) as [He Hc].
    split.
    + destruct (expected_stats json_load sha256 raw_dir output_dir
                  delete_orphans) as (_ & _ & _ & _ & _ & _ & Hs & _).
      now rewrite Hs.
    + intros key names Hin.
      apply slot_collision_errors in Hin; [|reflexivity].
      unfold slot_errors in Hin; rewrite He in Hin; exact Hin.
Qed.

End CaseClash.

Lemma slot_collision_is_case_clash_witness :
  let json_load := Example.json_load in
  let sha256 := Example.sha256 in
  let raw_dir := Example.raw_at Example.case_variants in
  let r := Example.run_case_variants in
  validate_raw json_load sha256 raw_dir None false = Ok r
  /\ (forall key names, In (SlotCollision key names) (errors r) ->
        exists paths,
          names = PyStr.join ", " paths
          /\ (1 < List.length paths)%nat
          /\ NoDup paths
          /\ forall n, In n paths ->
               In n (valid_set json_load raw_dir)
               /\ PyStr.lower n = (key ++ ".json")%string)
  /\ ((forall n1 n2, In n1 (scanned raw_dir) -> In n2 (scanned raw_dir) ->
         PyStr.lower n1 = PyStr.lower n2 -> n1 = n2) ->
      slot_collisions (stats r) = 0%Z
      /\ forall key names, ~ In (SlotCollision key names) (errors r)).
Proof.
  cbv zeta; split; [reflexivity|].
  exact (slot_collision_is_case_clash Example.json_load Example.sha256
           (Example.raw_at Example.case_variants) None false
           Example.run_case_variants eq_refl).
Defined.

(* ================================================================== *)
(** * When a run raises *)
(* ================================================================== *)

Section Raises.

Variable json_load : list byte -> json_result.
Variable sha256 : list byte -> string.

(** X5.  On a file system that does not change during the run, a call
    of [validate_raw] that raises does so in one of two places.  Either a
    scanned file makes the decoder raise an exception that the reading
    loop does not catch: then the exception comes from the first such file
    of the sorted listing, nothing has been deleted, and a directory with
    such a file always ends this way.  Or every file was read, orphans are
    being deleted, and [unlink] fails on an orphan, because it is no
    regular file or because the operating system refuses to remove it:
    then the orphans listed before that one have been deleted and the
    others are still there.  The hashing pass never raises. *)
Theorem validate_raw_raises (raw_dir : dirpath)
    (output_dir : option dirpath) (delete_orphans : bool) :
  let raw := raw_entries raw_dir in
  (forall e s,
     validate_raw json_load sha256 raw_dir output_dir delete_orphans
     = Raise e s ->
     (exists pre fp post,
        scanned raw_dir = pre ++ fp :: post
        /\ (forall f, In f pre -> open_load json_load raw f <> Escapes)
        /\ open_load json_load raw fp = Escapes
        /\ e = LoadRaised fp
        /\ out_disk s = out_disk (initial_run output_dir))
     \/ ((forall f, In f (scanned raw_dir) ->
                    open_load json_load raw f <> Escapes)
         /\ delete_orphans = true
         /\ exists dir_name d done n rest,
              out_listing output_dir = Some (dir_name, d)
              /\ orphan_set raw_dir output_dir = done ++ n :: rest
              /\ e = UnlinkOSError n
              /\ out_disk s = Some (remove_all done d)
              /\ (NoDup (map fst d) ->
                  (forall data, lookup n d <> Some (File data))
                  \/ In n (out_locked output_dir))))
  /\ (forall pre fp post,
        scanned raw_dir = pre ++ fp :: post ->
        (forall f, In f pre -> open_load json_load raw f <> Escapes) ->
        open_load json_load raw fp = Escapes ->
        exists s,
          validate_raw json_load sha256 raw_dir output_dir delete_orphans
          = Raise (LoadRaised fp) s).
Proof.
  cbv zeta; split.
  - intros e s H.
    apply validate_raw_raise_state in H
      as [(pre & fp & post & E & Hpre & Hfp & -> & _ & Hd)
         |(NC & Hdel & dn & d & done & n & rest & L & Ho & -> & _ & Hd & Hf)].
    + left; exists pre, fp, post; repeat split; auto.
      * now apply no_crash_forall.
      * now apply crashes_escapes.
    + right; split; [now apply no_crash_forall|].
      split; [exact Hdel|].
      exists dn, d, done, n, rest; repeat split; auto.
      intros ND.
      assert (NDo := orphan_set_NoDup raw_dir output_dir dn d L ND).
      rewrite Ho in NDo; apply NoDup_remove_2 in NDo.
      rewrite lookup_remove_all in Hf.
      destruct (existsb (String.eqb n) done) eqn:Ex; [|exact Hf].
      exfalso; apply NDo, in_or_app; left.
      now apply existsb_eqb_In.
  - intros pre fp post E Hpre Hfp.
    unfold validate_raw; fold (scanned raw_dir); rewrite E.
    destruct (pre ++ fp :: post) as [|f fs] eqn:L;
      [destruct pre; discriminate|].
    rewrite <- L.
    edestruct (pass1_first_crash json_load (raw_entries raw_dir) pre post fp)
      as (s & ->);
      [now apply no_crash_forall | now apply crashes_escapes |].
    eauto.
Qed.

(** X6.  Over an output directory with distinct names, on a file system
    that does not change during the run, [validate_raw] returns exactly
    when no scanned file makes the decoder raise an uncaught exception
    and, if the raw directory has [*.json] files and orphans are being
    deleted, every orphan is a regular file that the operating system
    lets the run remove. *)
Theorem validate_raw_returns_iff (raw_dir : dirpath)
    (output_dir : option dirpath) (delete_orphans : bool) :
  (forall dir_name d, out_listing output_dir = Some (dir_name, d) ->
                      NoDup (map fst d)) ->
  (exists r,
     validate_raw json_load sha256 raw_dir output_dir delete_orphans = Ok r)
  <->
  (forall fp, In fp (scanned raw_dir) ->
              open_load json_load (raw_entries raw_dir) fp <> Escapes)
  /\ (scanned raw_dir <> [] -> delete_orphans = true ->
      forall dir_name d n,
        out_listing output_dir = Some (dir_name, d) ->
        In n (orphan_set raw_dir output_dir) ->
        (exists data, lookup n d = Some (File data))
        /\ ~ In n (out_locked output_dir)).
Proof.
  intros ND; split.
  - intros (r & H).
    assert (NC := proj2 (validate_raw_expected _ _ _ _ _ _ H)).
    split; [now apply no_crash_forall|].
    intros Hne -> dir_name d n L Hn.
    exact (deleted_orphans_were_files _ _ _ _ _ _ _ _ H Hne L (ND _ _ L) Hn).
  - intros [NC Hfiles]; apply no_crash_forall in NC.
    destruct (scanned raw_dir) as [|f fs] eqn:Sc.
    { unfold validate_raw; fold (scanned raw_dir); rewrite Sc; eauto. }
    rewrite <- Sc in *.
    assert (Hne : scanned raw_dir <> []) by (rewrite Sc; discriminate).
    destruct delete_orphans.
    + destruct (out_listing output_dir) as [[dn d]|] eqn:L.
      * destruct (out_listing_some _ _ _ L) as (od & -> & D & _).
        eexists; apply (validate_raw_returns_deleting _ _ _ _ d NC D).
        -- apply (ND _ _ eq_refl).
        -- intros n Hn; apply (Hfiles Hne eq_refl _ _ _ eq_refl Hn).
      * eexists; apply validate_raw_returns; auto.
    + eexists; apply validate_raw_returns; auto.
Qed.

End Raises.

Lemma validate_raw_returns_iff_witness :
  let json_load := Example.json_load in
  let sha256 := Example.sha256 in
  let raw_dir := Example.raw_at Example.mixed in
  let output_dir := Some (Example.output_at Example.produced) in
  (forall dir_name d, out_listing output_dir = Some (dir_name, d) ->
                      NoDup (map fst d))
  /\ ((exists r, validate_raw json_load sha256 raw_dir output_dir true = Ok r)
      <->
      (forall fp, In fp (scanned raw_dir) ->
                  open_load json_load (raw_entries raw_dir) fp <> Escapes)
      /\ (scanned raw_dir <> [] -> true = true ->
          forall dir_name d n,
            out_listing output_dir = Some (dir_name, d) ->
            In n (orphan_set raw_dir output_dir) ->
            (exists data, lookup n d = Some (File data))
            /\ ~ In n (out_locked output_dir))).
Proof.
  cbv zeta.
  assert (ND : forall dir_name d,
             out_listing (Some (Example.output_at Example.produced))
             = Some (dir_name, d) -> NoDup (map fst d)).
  { intros dir_name d H; inversion H; subst; distinct_names. }
  split; [exact ND|].
  exact (validate_raw_returns_iff Example.json_load Example.sha256
           (Example.raw_at Example.mixed)
           (Some (Example.output_at Example.produced)) true ND).
Defined.

(* ================================================================== *)
(** * Counters against the lists they summarise *)
(* ================================================================== *)

Section GroupSizes.

Local Open Scope Z_scope.

Lemma sda_total (k v : string) (G : list (string * list string)) :
  List.length (concat (map snd (Dict.setdefault_append k v G)))
  = S (List.length (concat (map snd G))).
Proof.
  induction G as [|[k0 vs] G IH]; simpl; [reflexivity|].
  destruct (k0 =? k)%string; simpl; rewrite !length_app.
  - simpl; lia.
  - rewrite IH; lia.
Qed.

Lemma group_by_total {A : Type} (key val : A -> string) (l : list A) :
  forall G : list (string * list string),
  List.length (concat (map snd (group_by key val l G)))
  = (List.length (concat (map snd G)) + List.length l)%nat.
Proof.
  unfold group_by.
  induction l as [|a l IH]; intros G; simpl; [lia|].
  rewrite IH, sda_total; lia.
Qed.

Lemma sizes_minus_one_total (G : list (string * list string)) :
  sizes_minus_one G
  = Z.of_nat (List.length (concat (map snd G))) - Z.of_nat (List.length G).
Proof.
  induction G as [|g G IH]; [reflexivity|].
  unfold sizes_minus_one in *; cbn [fold_right map concat List.length].
  rewrite IH, length_app; lia.
Qed.

(** The groups of a dictionary built with [setdefault] and [append]:
    their number and the number of grouped items give the count of extra
    copies, which is zero exactly when all keys differ. *)
Lemma grouping_count {A : Type} (key val : A -> string) (l : list A)
    (G : list (string * list string)) :
  grouping key val l G ->
  List.length (concat (map snd G)) = List.length l ->
  Z.of_nat (List.length l) = Z.of_nat (List.length G) + extra_copies G
  /\ (forall k, In k (map fst G) <-> exists a, In a l /\ key a = k)
  /\ (extra_copies G = 0 <-> NoDup (map key l)).
Proof.
  intros HG Htot.
  assert (Hsum : Z.of_nat (List.length l)
                 = Z.of_nat (List.length G) + extra_copies G).
  { rewrite (extra_copies_sizes _ _ _ _ HG), sizes_minus_one_total, Htot.
    lia. }
  destruct HG as (ND & Hent & Hall).
  assert (Hkeys : forall k, In k (map fst G) <->
                            exists a, In a l /\ key a = k).
  { intros k; split.
    - intros Hk; apply in_map_iff in Hk as ([k0 paths] & <- & Hg).
      destruct (Hent _ _ Hg) as [Hne ->]; simpl.
      destruct (filter _ l) as [|a rest] eqn:F; [contradiction|].
      assert (Ha : In a (filter (fun a => (key a =? k0)%string) l))
        by (rewrite F; left; reflexivity).
      apply filter_In in Ha as [Ha E]; apply String.eqb_eq in E; eauto.
    - intros (a & Ha & <-).
      destruct (Hall a Ha) as (paths & Hp).
      apply in_map_iff; exists (key a, paths); auto. }
  split; [exact Hsum|]; split; [exact Hkeys|].
  assert (Hnn := extra_copies_nonneg G).
  split.
  - intros Z0.
    apply (NoDup_incl_NoDup (l := map fst G)); [exact ND| |].
    + rewrite !length_map; lia.
    + intros k Hk; apply Hkeys in Hk as (a & Ha & <-); now apply in_map.
  - intros NDk.
    assert (Hle : (List.length (map key l) <= List.length (map fst G))%nat).
    { apply NoDup_incl_length; [exact NDk|].
      intros k Hk; apply in_map_iff in Hk as (a & <- & Ha).
      apply Hkeys; eauto. }
    rewrite !length_map in Hle; lia.
Qed.

Lemma group_errors_length (mk : string -> string -> message)
    (G : list (string * list string)) :
  Z.of_nat (List.length (group_errors mk G)) <= extra_copies G
  /\ (group_errors mk G = [] <-> extra_copies G = 0).
Proof.
  induction G as [|g G [IHle IHnil]]; [simpl; split; [lia|tauto]|].
  assert (Hnn := extra_copies_nonneg G).
  unfold group_errors, extra_copies in *; cbn [flat_map fold_right].
  destruct (Nat.ltb_spec 1 (List.length (snd g))) as [L|L].
  - cbn [app List.length]; split; [lia|].
    split; [discriminate | lia].
  - cbn [app]; split; [lia|].
    rewrite IHnil; split; lia.
Qed.

End GroupSizes.

Section MessageCounts.

Local Open Scope Z_scope.

Variable json_load : list byte -> json_result.
Variable sha256 : list byte -> string.

Lemma file_errors_length (raw : directory) (files : list string) :
  Z.of_nat (List.length (flat_map (file_errors json_load raw) files))
  = count (is_bad_json json_load raw) files
    + count (is_bad_structure json_load raw) files.
Proof.
  induction files as [|fp rest IH]; [reflexivity|].
  cbn [flat_map]; rewrite length_app, Nat2Z.inj_add, IH, !count_cons.
  unfold file_errors, is_bad_json, is_bad_structure.
  destruct (classify json_load raw fp); simpl List.length; lia.
Qed.

Lemma file_warnings_length (files : list string) :
  Z.of_nat (List.length (flat_map file_warnings files))
  = count unparsable files.
Proof.
  induction files as [|fp rest IH]; [reflexivity|].
  cbn [flat_map]; rewrite length_app, Nat2Z.inj_add, IH, count_cons.
  unfold file_warnings.
  destruct (unparsable fp); simpl List.length; lia.
Qed.

(** X7.  The two lists a run returns can be counted from its counters.
    The errors are the unreadable files, the structurally invalid files,
    and one report per cluster of duplicates and per cluster of slot
    collisions; there are never more cluster reports than extra copies; so
    the list of errors is empty exactly when [bad_json], [bad_structure],
    [hash_dupes] and [slot_collisions] are all zero.  The warnings are the
    names that do not parse and the orphans, or the single warning of a
    raw directory without [*.json] files. *)
Theorem messages_match_counters (raw_dir : dirpath)
    (output_dir : option dirpath) (delete_orphans : bool) (r : run) :
  validate_raw json_load sha256 raw_dir output_dir delete_orphans = Ok r ->
  let s := stats r in
  let dups := Z.of_nat (List.length (filter is_content_dup (errors r))) in
  let clashes :=
    Z.of_nat (List.length (filter is_slot_collision (errors r))) in
  Z.of_nat (List.length (errors r))
  = bad_json s + bad_structure s + dups + clashes
  /\ dups <= hash_dupes s
  /\ clashes <= slot_collisions s
  /\ (errors r = [] <->
      bad_json s = 0 /\ bad_structure s = 0 /\ hash_dupes s = 0
      /\ slot_collisions s = 0)
  /\ Z.of_nat (List.length (warnings r))
     = (if total_files s =? 0 then 1 else bad_pattern s + orphans s).
Proof.
  intros H; apply validate_raw_expected in H as [-> _]; cbv zeta.
  rewrite errors_content_dups, errors_slot_collisions.
  destruct (expected_stats json_load sha256 raw_dir output_dir
              delete_orphans) as (Ht & _ & Hp & Hj & Hs & Hh & Hc & _).
  rewrite expected_errors, Ht, Hp, Hj, Hs, Hh, Hc.
  rewrite !length_app, !Nat2Z.inj_add, file_errors_length.
  unfold hash_errors, slot_errors.
  destruct (group_errors_length (fun _ names => ContentHashDuplicate names)
              (hash_groups json_load sha256 raw_dir)) as [Hle1 Hnil1].
  destruct (group_errors_length SlotCollision
              (slot_groups json_load raw_dir)) as [Hle2 Hnil2].
  assert (N1 := count_nonneg (is_bad_json json_load (raw_entries raw_dir))
                  (scanned raw_dir)).
  assert (N2 := count_nonneg
                  (is_bad_structure json_load (raw_entries raw_dir))
                  (scanned raw_dir)).
  split; [lia|]; split; [exact Hle1|]; split; [exact Hle2|].
  split.
  - rewrite <- Hnil1, <- Hnil2.
    assert (F := file_errors_length (raw_entries raw_dir) (scanned raw_dir)).
    split.
    + intros E.
      apply app_eq_nil in E as [E1 E]; apply app_eq_nil in E as [E2 E3].
      rewrite E1 in F; simpl in F.
      repeat split; auto; lia.
    + intros (Z1 & Z2 & -> & ->).
      rewrite !app_nil_r.
      apply length_zero_iff_nil; lia.
  - assert (E : scanned raw_dir = [] \/ scanned raw_dir <> [])
      by (destruct (scanned raw_dir); [left | right]; congruence).
    destruct E as [E|Hne].
    + rewrite (expected_run_empty _ _ _ _ _ E), E; reflexivity.
    + rewrite (expected_warnings _ _ _ _ _ Hne).
      destruct (expected_orphan_counters json_load sha256 raw_dir output_dir
                  delete_orphans Hne) as [Ho _].
      rewrite Ho, length_app, Nat2Z.inj_add, file_warnings_length,
        length_map.
      destruct (Z.eqb_spec (Z.of_nat (List.length (scanned raw_dir))) 0)
        as [Z0|_]; [|reflexivity].
      exfalso; apply Hne, length_zero_iff_nil; lia.
Qed.

(** X8.  In a run that returns, the valid files are the groups of the
    hashing pass and the extra copies: [valid_files] is the number of
    distinct digests plus [hash_dupes], the keys of the groups are exactly
    the digests of the valid files, and [hash_dupes] is zero exactly when
    no two valid files have the same digest.  Likewise, over a raw
    directory with distinct names, the valid files whose name parsed are
    the slots and the extra claimants, and [slot_collisions] is zero
    exactly when no two of them have the same slot key. *)
Theorem duplicates_counted_against_groups (raw_dir : dirpath)
    (output_dir : option dirpath) (delete_orphans : bool) (r : run) :
  validate_raw json_load sha256 raw_dir output_dir delete_orphans = Ok r ->
  let digest := fingerprint sha256 (raw_entries raw_dir) in
  let valid := valid_set json_load raw_dir in
  let G := hash_groups json_load sha256 raw_dir in
  let parsed := parsed_set json_load raw_dir in
  let S := slot_groups json_load raw_dir in
  (valid_files (stats r) = Z.of_nat (List.length G) + hash_dupes (stats r)
   /\ (forall k, In k (map fst G) <-> exists fp, In fp valid /\ digest fp = k)
   /\ (hash_dupes (stats r) = 0 <-> NoDup (map digest valid)))
  /\ (NoDup (map fst (raw_entries raw_dir)) ->
      Z.of_nat (List.length parsed)
      = Z.of_nat (List.length S) + slot_collisions (stats r)
      /\ (forall k, In k (map fst S) <->
                    exists fp p, In (fp, p) parsed /\ slot_key p = k)
      /\ (slot_collisions (stats r) = 0 <->
          NoDup (map (fun item : string * parts => slot_key (snd item))
                   parsed))).
Proof.
  intros H; apply validate_raw_expected in H as [-> _]; cbv zeta.
  destruct (expected_stats json_load sha256 raw_dir output_dir
              delete_orphans) as (_ & Hv & _ & _ & _ & Hh & Hc & _).
  rewrite Hv, Hh, Hc.
  split.
  - apply (grouping_count (fingerprint sha256 (raw_entries raw_dir))
             (fun fp => fp) (valid_set json_load raw_dir));
      [apply hash_groups_grouping|].
    unfold hash_groups; now rewrite group_by_total.
  - intros ND.
    assert (HS := slot_groups_grouping json_load raw_dir).
    assert (Htot : List.length
                     (concat (map snd (slot_groups json_load raw_dir)))
                   = List.length (set_all (parsed_set json_load raw_dir) []))
      by (unfold slot_groups; now rewrite group_by_total).
    rewrite (parsed_names_items json_load raw_dir ND) in HS, Htot.
    destruct (grouping_count _ _ _ _ HS Htot) as (Hsum & Hkeys & Hz).
    split; [exact Hsum|]; split; [|exact Hz].
    intros k; rewrite Hkeys; split.
    + intros ([fp p] & Hin & E); eauto.
    + intros (fp & p & Hin & E); exists (fp, p); auto.
Qed.

End MessageCounts.

Lemma messages_match_counters_witness :
  let r := Example.run_mixed in
  let s := stats r in
  let dups := Z.of_nat (List.length (filter is_content_dup (errors r))) in
  let clashes :=
    Z.of_nat (List.length (filter is_slot_collision (errors r))) in
  validate_raw Example.json_load Example.sha256
    (Example.raw_at Example.mixed)
    (Some (Example.output_at Example.produced)) true = Ok r
  /\ (Z.of_nat (List.length (errors r))
      = bad_json s + bad_structure s + dups + clashes
      /\ dups <= hash_dupes s
      /\ clashes <= slot_collisions s
      /\ (errors r = [] <->
          bad_json s = 0 /\ bad_structure s = 0 /\ hash_dupes s = 0
          /\ slot_collisions s = 0)
      /\ Z.of_nat (List.length (warnings r))
         = (if total_files s =? 0 then 1
            else bad_pattern s + orphans s))%Z.
Proof.
  cbv zeta; split; [reflexivity|].
  exact (messages_match_counters Example.json_load Example.sha256
           (Example.raw_at Example.mixed)
           (Some (Example.output_at Example.produced)) true
           Example.run_mixed eq_refl).
Defined.

Lemma duplicates_counted_against_groups_witness :
  let json_load := Example.json_load in
  let sha256 := Example.sha256 in
  let raw_dir := Example.raw_at Example.three_copies in
  let r := Example.run_three_copies in
  let digest := fingerprint sha256 (raw_entries raw_dir) in
  let valid := valid_set json_load raw_dir in
  let G := hash_groups json_load sha256 raw_dir in
  let parsed := parsed_set json_load raw_dir in
  let S := slot_groups json_load raw_dir in
  validate_raw json_load sha256 raw_dir None false = Ok r
  /\ (valid_files (stats r)
      = Z.of_nat (List.length G) + hash_dupes (stats r)
      /\ (forall k, In k (map fst G) <->
                    exists fp, In fp valid /\ digest fp = k)
      /\ (hash_dupes (stats r) = 0 <-> NoDup (map digest valid)))%Z
  /\ (NoDup (map fst (raw_entries raw_dir)) ->
      Z.of_nat (List.length parsed)
      = Z.of_nat (List.length S) + slot_collisions (stats r)
      /\ (forall k, In k (map fst S) <->
                    exists fp p, In (fp, p) parsed /\ slot_key p = k)
      /\ (slot_collisions (stats r) = 0 <->
          NoDup (map (fun item : string * parts => slot_key (snd item))
                   parsed)))%Z.
Proof.
  cbv zeta; split; [reflexivity|].
  exact (duplicates_counted_against_groups Example.json_load Example.sha256
           (Example.raw_at Example.three_copies) None false
           Example.run_three_copies eq_refl).
Defined.

(* ================================================================== *)
(** * More on the structural validators *)
(* ================================================================== *)

Section StructureMore.

Import Structure.

Lemma check_nodes_shape (name : string) (n : nat) (rows : list pyval) :
  forall (i : nat) (rows' : list pyval),
  map row_shape rows = map row_shape rows' ->
  check_nodes name n i rows = check_nodes name n i rows'.
Proof.
  induction rows as [|row rows IH]; intros i [|row' rows'] E;
    try discriminate; [reflexivity|].
  simpl in E; inversion E as [[Er Et]].
  destruct row, row'; try discriminate; simpl; try reflexivity.
  simpl in Er; inversion Er as [El]; rewrite El.
  destruct (List.length l0 =? n)%nat; [now apply IH | reflexivity].
Qed.

Lemma eq_str_list_length (l : list pyval) :
  forall e : list string,
  eq_str_list l e = true -> List.length l = List.length e.
Proof.
  induction l as [|v l IH]; intros [|t e]; simpl; try discriminate; auto.
  - destruct v; discriminate.
  - destruct v; try discriminate.
    intros H; apply andb_true_iff in H as [_ H]; now rewrite (IH e H).
Qed.

Lemma validate_structure_valid (doc : pyval) (name : string) :
  validate_structure doc name = None -> valid_document doc.
Proof.
  intros H.
  assert (S := validate_structure_sound doc name); rewrite H in S.
  now inversion S.
Qed.

(** X9.  [validate_structure] looks at the field names and at the shape
    of the rows only: two documents with the same [nodeFormat] whose
    [nodes] agree, row by row, on being a list and on the length, get the
    same verdict and the same message, whatever the cells hold and whatever
    other keys the documents have. *)
Theorem validate_structure_shape_only (items items' : list (string * pyval))
    (name : string) (nf : pyval) (rows rows' : list pyval) :
  dict_get "nodeFormat" items = Some nf ->
  dict_get "nodeFormat" items' = Some nf ->
  dict_get "nodes" items = Some (PyList rows) ->
  dict_get "nodes" items' = Some (PyList rows') ->
  map row_shape rows = map row_shape rows' ->
  validate_structure (PyDict items) name
  = validate_structure (PyDict items') name.
Proof.
  intros F F' N N' E.
  unfold validate_structure; rewrite F, F', N, N'.
  destruct nf; try reflexivity.
  cbv zeta; destruct (negb _); [reflexivity|].
  now apply check_nodes_shape.
Qed.

(** X10.  The schema fixes the number of columns at seven.  A document
    with both keys holding arrays whose [nodeFormat] has any other number
    of fields is a schema mismatch, whatever the fields are; in particular
    the output of the normalising stage, which appends [trips_pct] to a
    valid [nodeFormat], does not pass [validate_structure].  And a document
    that passes has seven fields and seven cells in every row. *)
Theorem schema_has_seven_columns (items : list (string * pyval))
    (name : string) (nf rows : list pyval) :
  dict_get "nodeFormat" items = Some (PyList nf) ->
  dict_get "nodes" items = Some (PyList rows) ->
  (List.length nf <> 7%nat ->
   validate_structure (PyDict items) name = Some (SchemaMismatch name nf))
  /\ (validate_structure (PyDict items) name = None ->
      List.length nf = 7%nat
      /\ Forall (fun row => exists cells,
                   row = PyList cells /\ List.length cells = 7%nat) rows
      /\ forall items',
           dict_get "nodeFormat" items' = Some (PyList (with_trips_pct nf)) ->
           dict_get "nodes" items' <> None ->
           exists m, validate_structure (PyDict items') name = Some m).
Proof.
  intros F N.
  assert (L : eq_str_list (map lower_field nf) EXPECTED_FIELDS = true ->
              List.length nf = 7%nat).
  { intros E; apply eq_str_list_length in E.
    now rewrite length_map in E. }
  split.
  - intros Hlen; unfold validate_structure; rewrite F, N; cbv zeta.
    destruct (eq_str_list (map lower_field nf) EXPECTED_FIELDS) eqn:E;
      [exfalso; apply Hlen, L; reflexivity | reflexivity].
  - intros V.
    assert (V' := V); unfold validate_structure in V'.
    rewrite F, N in V'; cbv zeta in V'.
    destruct (eq_str_list (map lower_field nf) EXPECTED_FIELDS) eqn:E;
      [|discriminate].
    assert (L7 := L eq_refl).
    split; [exact L7|]; split.
    + apply validate_structure_valid in V
        as (items0 & nf0 & rows0 & E0 & F0 & N0 & _ & Hrows).
      inversion E0; subst items0.
      rewrite F in F0; rewrite N in N0.
      inversion F0; inversion N0; subst nf0 rows0.
      rewrite L7 in Hrows; exact Hrows.
    + intros items' F' N'.
      unfold validate_structure; rewrite F'.
      destruct (dict_get "nodes" items') as [nodes|]; [|contradiction].
      destruct nodes; eauto.
      cbv zeta.
      destruct (eq_str_list (map lower_field (with_trips_pct nf))
                  EXPECTED_FIELDS) eqn:E'; [|simpl; eauto].
      apply eq_str_list_length in E'.
      unfold with_trips_pct in E'.
      rewrite length_map, length_app, L7 in E'; discriminate.
Qed.

Lemma normalize_check_nodes (name path : string) (n : nat)
    (rows : list pyval) :
  forall i : nat,
  check_nodes name n i rows
  = option_map (as_raw name) (NormalizeTrips.check_nodes path n i rows).
Proof.
  induction rows as [|row rows IH]; intros i; simpl; [reflexivity|].
  destruct row; try reflexivity.
  destruct (List.length l =? n)%nat; [apply IH | reflexivity].
Qed.

(** X11.  The normalising stage validates for itself, and accepts
    exactly the documents that [validate_structure] accepts.  On a
    rejected document the two report the same fault, each in its own
    words, with one exception that comes from the order of the checks:
    when [nodeFormat] is an array with the wrong fields and [nodes] is no
    array, the normaliser reports the schema and [validate_structure]
    reports [nodes]. *)
Theorem normalizer_accepts_the_same (doc : pyval) (name path : string) :
  (NormalizeTrips.validate_doc doc path = None <->
   validate_structure doc name = None)
  /\ (forall m,
        NormalizeTrips.validate_doc doc path = Some m ->
        validate_structure doc name = Some (as_raw name m)
        \/ ((exists nf, m = NormalizeTrips.SchemaMismatch path nf)
            /\ validate_structure doc name
               = Some (NotAnArray name "nodes"))).
Proof.
  unfold NormalizeTrips.validate_doc, validate_structure.
  change NormalizeTrips.expected with EXPECTED_FIELDS.
  destruct doc as [ |b|z|f|s|l|items];
    try (split; [split; discriminate|];
         intros m H; inversion H; left; reflexivity).
  destruct (dict_get "nodeFormat" items) as [nf|];
    [|split; [split; discriminate|];
      intros m H; inversion H; left; reflexivity].
  destruct (dict_get "nodes" items) as [nodes|];
    [|split; [split; discriminate|];
      intros m H; inversion H; left; reflexivity].
  destruct nf as [ |b|z|f|s|nfl|d];
    try (split; [split; discriminate|];
         intros m H; inversion H; left; reflexivity).
  cbv zeta.
  destruct (negb (eq_str_list (map lower_field nfl) EXPECTED_FIELDS)).
  - split; [split; [discriminate | destruct nodes; discriminate]|].
    intros m H; inversion H; subst m.
    destruct nodes; simpl; eauto.
  - destruct nodes as [ |b|z|f|s|rows|d];
      try (split; [split; discriminate|];
           intros m H; inversion H; left; reflexivity).
    rewrite (normalize_check_nodes name path).
    destruct (NormalizeTrips.check_nodes path (List.length nfl) 0 rows)
      as [m0|]; simpl.
    + split; [split; discriminate|].
      intros m H; inversion H; left; reflexivity.
    + split; [tauto|].
      intros m H; discriminate.
Qed.

(** X12.  [process_doc] reads column [trips_index] of every node without
    a check of its own.  On a document that the normaliser's validator
    accepts this is safe and it is the right column: the field at that
    index is [trips] up to case, and every node is a list that has an
    element there. *)
Theorem trips_column_is_there (doc : pyval) (path : string) :
  NormalizeTrips.validate_doc doc path = None ->
  exists items nf rows,
    doc = PyDict items
    /\ dict_get "nodeFormat" items = Some (PyList nf)
    /\ dict_get "nodes" items = Some (PyList rows)
    /\ (exists s, nth_error nf NormalizeTrips.trips_index = Some (PyStr s)
                  /\ PyStr.lower s = "trips"%string)
    /\ forall node, In node rows ->
         exists cells val,
           node = PyList cells
           /\ nth_error cells NormalizeTrips.trips_index = Some val.
Proof.
  intros H.
  assert (V : validate_structure doc path = None).
  { unfold NormalizeTrips.validate_doc, validate_structure in *.
    change NormalizeTrips.expected with EXPECTED_FIELDS in H.
    destruct doc; try discriminate.
    destruct (dict_get "nodeFormat" items); [|discriminate].
    destruct (dict_get "nodes" items); [|discriminate].
    destruct p; try discriminate.
    cbv zeta in *.
    destruct (negb _); [discriminate|].
    destruct p0; try discriminate.
    rewrite (normalize_check_nodes path path), H; reflexivity. }
  apply validate_structure_valid in V
    as (items & nf & rows & -> & F & N & (names & -> & Hn) & Hrows).
  exists items, (map PyStr names), rows; repeat split; auto.
  - unfold EXPECTED_FIELDS in Hn.
    destruct names as [|n0 [|n1 [|n2 rest]]]; try discriminate.
    exists n2; split; [reflexivity|].
    simpl in Hn; congruence.
  - intros node Hin.
    rewrite Forall_forall in Hrows.
    destruct (Hrows node Hin) as (cells & -> & Hlen).
    assert (L7 : List.length cells = 7%nat).
    { rewrite Hlen, length_map, <- (length_map PyStr.lower names), Hn.
      reflexivity. }
    destruct cells as [|c0 [|c1 [|c2 rest]]]; try discriminate.
    exists (c0 :: c1 :: c2 :: rest), c2; split; reflexivity.
Qed.

End StructureMore.

Lemma validate_structure_shape_only_witness :
  let items := Example3.items in
  let items' := Example3.other_items in
  let nf := Example.standard_format in
  dict_get "nodeFormat" items = Some nf
  /\ dict_get "nodeFormat" items' = Some nf
  /\ dict_get "nodes" items = Some (PyList Example3.one_row)
  /\ dict_get "nodes" items' = Some (PyList Example3.other_row)
  /\ map row_shape Example3.one_row = map row_shape Example3.other_row
  /\ validate_structure (PyDict items) "a.json"
     = validate_structure (PyDict items') "a.json".
Proof.
  cbv zeta; repeat (split; [reflexivity|]).
  exact (validate_structure_shape_only Example3.items Example3.other_items
           "a.json" Example.standard_format Example3.one_row
           Example3.other_row eq_refl eq_refl eq_refl eq_refl eq_refl).
Defined.

Lemma schema_has_seven_columns_witness :
  let items := Example3.items in
  let nf := Example3.fields in
  let rows := Example3.one_row in
  dict_get "nodeFormat" items = Some (PyList nf)
  /\ dict_get "nodes" items = Some (PyList rows)
  /\ (List.length nf <> 7%nat ->
      validate_structure (PyDict items) "a.json"
      = Some (SchemaMismatch "a.json" nf))
  /\ (validate_structure (PyDict items) "a.json" = None ->
      List.length nf = 7%nat
      /\ Forall (fun row => exists cells,
                   row = PyList cells /\ List.length cells = 7%nat) rows
      /\ forall items',
           dict_get "nodeFormat" items' = Some (PyList (with_trips_pct nf)) ->
           dict_get "nodes" items' <> None ->
           exists m, validate_structure (PyDict items') "a.json" = Some m).
Proof.
  cbv zeta; repeat (split; [reflexivity|]).
  exact (schema_has_seven_columns Example3.items "a.json" Example3.fields
           Example3.one_row eq_refl eq_refl).
Defined.

Lemma trips_column_is_there_witness :
  let doc := Example.good_doc 100 in
  NormalizeTrips.validate_doc doc "/data/raw/a.json" = None
  /\ exists items nf rows,
       doc = PyDict items
       /\ dict_get "nodeFormat" items = Some (PyList nf)
       /\ dict_get "nodes" items = Some (PyList rows)
       /\ (exists s, nth_error nf NormalizeTrips.trips_index = Some (PyStr s)
                     /\ PyStr.lower s = "trips"%string)
       /\ forall node, In node rows ->
            exists cells val,
              node = PyList cells
              /\ nth_error cells NormalizeTrips.trips_index = Some val.
Proof.
  cbv zeta; split; [reflexivity|].
  exact (trips_column_is_there (Example.good_doc 100) "/data/raw/a.json"
           eq_refl).
Defined.

(* ================================================================== *)
(** * The field map of the shapefile stage *)
(* ================================================================== *)

Section FieldMap.

Import JsonToShapefile.
Local Open Scope string_scope.

Lemma get_set {V : Type} (k k' : string) (v : V) (d : list (string * V)) :
  get k (Dict.set k' v d) = if k' =? k then Some v else get k d.
Proof.
  induction d as [|[k0 v0] d IH]; simpl.
  - reflexivity.
  - destruct (k0 =? k') eqn:E; simpl.
    + apply String.eqb_eq in E; subst k0.
      destruct (k' =? k); reflexivity.
    + rewrite IH.
      destruct (k0 =? k) eqn:E0; [|reflexivity].
      apply String.eqb_eq in E0; subst k0.
      destruct (k' =? k) eqn:E1; [|reflexivity].
      apply String.eqb_eq in E1; subst k'.
      now rewrite String.eqb_refl in E.
Qed.

Lemma get_In {V : Type} (k : string) (v : V) (d : list (string * V)) :
  NoDup (map fst d) -> (In (k, v) d <-> get k d = Some v).
Proof.
  induction d as [|[k0 v0] d IH]; simpl; intros ND.
  - split; [tauto | discriminate].
  - inversion ND as [|? ? Hk Hd]; subst.
    destruct (String.eqb_spec k0 k) as [->|Hne].
    + split.
      * intros [H|H]; [now inversion H|].
        exfalso; apply Hk; apply in_map_iff; exists (k, v); auto.
      * intros H; inversion H; auto.
    + rewrite <- (IH Hd); split; [|tauto].
      intros [H|H]; [inversion H; contradiction | exact H].
Qed.

Lemma index_fields_NoDup (node_format : list pyval) :
  forall (i : nat) (d fm : list (string * nat)),
  NoDup (map fst d) -> index_fields i node_format d = Some fm ->
  NoDup (map fst fm).
Proof.
  induction node_format as [|v rest IH]; intros i d fm ND; simpl.
  - intros H; inversion H; subst; exact ND.
  - destruct v; try discriminate.
    apply IH, dict_set_NoDup, ND.
Qed.

(** The comprehension raises exactly on a field that is no [str]. *)
Lemma index_fields_raises (node_format : list pyval) :
  forall (i : nat) (d : list (string * nat)),
  index_fields i node_format d = None <->
  exists v, In v node_format /\ forall s, v <> PyStr s.
Proof.
  induction node_format as [|v rest IH]; intros i d; simpl.
  - split; [discriminate | intros (v & [] & _)].
  - destruct v as [ |b|z|f|s|l|items];
      try (split; [intros _; eexists; split;
                     [left; reflexivity | discriminate]
                  | reflexivity]).
    rewrite IH; split.
    + intros (v & Hv & Hs); eauto.
    + intros (v & [<-|Hv] & Hs); [now destruct (Hs s) | eauto].
Qed.

(** Where a key of the result comes from: from the dictionary the
    comprehension started with, if no later field has that name, or else
    from the last field of that name. *)
Lemma index_fields_get (node_format : list pyval) :
  forall (i : nat) (d fm : list (string * nat)) (k : string) (idx : nat),
  index_fields i node_format d = Some fm ->
  get k fm = Some idx ->
  (get k d = Some idx
   /\ forall j s, nth_error node_format j = Some (PyStr s) ->
                  PyStr.lower s <> k)
  \/ (exists j s,
        idx = (i + j)%nat
        /\ nth_error node_format j = Some (PyStr s)
        /\ PyStr.lower s = k
        /\ forall j' s', (j < j')%nat ->
             nth_error node_format j' = Some (PyStr s') ->
             PyStr.lower s' <> k).
Proof.
  induction node_format as [|v rest IH]; intros i d fm k idx; simpl.
  - intros H G; inversion H; subst fm.
    left; split; [exact G|].
    intros [|j] s; discriminate.
  - destruct v as [ |b|z|f|s|l|items]; try discriminate.
    intros H G.
    destruct (IH _ _ _ _ _ H G)
      as [[Gd Hnone]|(j & s0 & -> & Hj & Hs0 & Hlast)].
    + rewrite get_set in Gd.
      destruct (String.eqb_spec (PyStr.lower s) k) as [E|Hne].
      * right; exists 0%nat, s.
        inversion Gd; subst idx.
        repeat split; auto; try lia.
        intros [|j'] s' Hlt Hn; [lia|].
        apply (Hnone j' s' Hn).
      * left; split; [exact Gd|].
        intros [|j] s' Hn; [inversion Hn; subst; exact Hne|].
        apply (Hnone j s' Hn).
    + right; exists (S j), s0.
      repeat split; auto; try lia.
      intros [|j'] s' Hlt Hn; [lia|].
      apply (Hlast j' s'); [lia | exact Hn].
Qed.

(** Every field has its lower-cased name among the keys. *)
Lemma index_fields_covers (node_format : list pyval) :
  forall (i : nat) (d fm : list (string * nat)) (k : string),
  index_fields i node_format d = Some fm ->
  get k d <> None
  \/ (exists j s, nth_error node_format j = Some (PyStr s)
                  /\ PyStr.lower s = k) ->
  get k fm <> None.
Proof.
  induction node_format as [|v rest IH]; intros i d fm k; simpl.
  - intros H [G|(j & s & Hj & _)]; [now inversion H; subst|].
    destruct j; discriminate.
  - destruct v as [ |b|z|f|s|l|items]; try discriminate.
    intros H Hk; apply (IH _ _ _ k H).
    rewrite get_set.
    destruct (String.eqb_spec (PyStr.lower s) k) as [E|Hne];
      [left; discriminate|].
    destruct Hk as [G|([|j] & s' & Hj & Hs')]; auto.
    + inversion Hj; subst; contradiction.
    + right; eauto.
Qed.

(** X13.  The shapefile stage asks less of a document than the raw
    validator: its [validate_doc] accepts exactly the objects whose
    [nodeFormat] and [nodes] are arrays, so it accepts every document that
    [validate_structure] accepts.  It does not look at the fields: on an
    accepted document [find_field_indices] still raises [AttributeError]
    if, and only if, some field of [nodeFormat] is no string. *)
Theorem shapefile_validator_is_weaker (doc : pyval) (name path : string) :
  (validate_doc doc path = None <->
   exists items nf rows,
     doc = PyDict items
     /\ dict_get "nodeFormat" items = Some (PyList nf)
     /\ dict_get "nodes" items = Some (PyList rows))
  /\ (validate_structure doc name = None -> validate_doc doc path = None)
  /\ (forall nf, find_field_indices nf = None <->
                 exists v, In v nf /\ forall s, v <> PyStr s).
Proof.
  assert (A : validate_doc doc path = None <->
              exists items nf rows,
                doc = PyDict items
                /\ dict_get "nodeFormat" items = Some (PyList nf)
                /\ dict_get "nodes" items = Some (PyList rows)).
  { unfold validate_doc; split.
    - destruct doc; try discriminate.
      destruct (dict_get "nodeFormat" items) as [nf|] eqn:F; [|discriminate].
      destruct (dict_get "nodes" items) as [nodes|] eqn:N; [|discriminate].
      destruct nf; try discriminate; destruct nodes; try discriminate.
      intros _; eauto 6.
    - intros (items & nf & rows & -> & -> & ->); reflexivity. }
  split; [exact A|]; split.
  - intros V; apply A.
    apply validate_structure_valid in V
      as (items & nf & rows & -> & F & N & _); eauto 6.
  - intros nf; apply index_fields_raises.
Qed.

(** X14.  What [find_field_indices] returns, in general: its keys are
    distinct; a key maps to an index of [nodeFormat] whose field has that
    name in lower case, and to the last such index if the name occurs more
    than once up to case; and every field has its lower-cased name among
    the keys.  [_detect_attr_fields] then keeps, in the order of the map,
    the keys that [FIELD_DEFS] knows, with their index and definition, and
    never [geometry]. *)
Theorem field_map_last_index_wins (node_format : list pyval)
    (field_map : list (string * nat)) :
  find_field_indices node_format = Some field_map ->
  NoDup (map fst field_map)
  /\ (forall k idx, In (k, idx) field_map ->
        exists s,
          nth_error node_format idx = Some (PyStr s)
          /\ PyStr.lower s = k
          /\ forall j s', (idx < j)%nat ->
               nth_error node_format j = Some (PyStr s') ->
               PyStr.lower s' <> k)
  /\ (forall j s, nth_error node_format j = Some (PyStr s) ->
        exists idx, In (PyStr.lower s, idx) field_map /\ (j <= idx)%nat)
  /\ (forall lname idx fd,
        In (lname, idx, fd) (_detect_attr_fields field_map) <->
        In (lname, idx) field_map /\ lname <> "geometry"
        /\ get lname FIELD_DEFS = Some fd).
Proof.
  unfold find_field_indices; intros H.
  assert (ND : NoDup (map fst field_map))
    by (apply (index_fields_NoDup node_format 0 [] field_map);
        [constructor | exact H]).
  assert (Hkey : forall k idx, In (k, idx) field_map ->
            exists s,
              nth_error node_format idx = Some (PyStr s)
              /\ PyStr.lower s = k
              /\ forall j s', (idx < j)%nat ->
                   nth_error node_format j = Some (PyStr s') ->
                   PyStr.lower s' <> k).
  { intros k idx Hin; apply (get_In _ _ _ ND) in Hin.
    destruct (index_fields_get _ _ _ _ _ _ H Hin)
      as [[G _]|(j & s & -> & Hj & Hs & Hlast)]; [discriminate|].
    exists s; auto. }
  split; [exact ND|]; split; [exact Hkey|]; split.
  - intros j s Hj.
    assert (G : get (PyStr.lower s) field_map <> None)
      by (apply (index_fields_covers _ _ _ _ _ H); right; eauto).
    destruct (get (PyStr.lower s) field_map) as [idx|] eqn:Gi;
      [|contradiction].
    exists idx; split; [now apply get_In|].
    apply (get_In _ _ _ ND) in Gi.
    destruct (Hkey _ _ Gi) as (s0 & _ & _ & Hlast).
    destruct (Nat.le_gt_cases j idx) as [Hle|Hgt]; [exact Hle|].
    now destruct (Hlast j s Hgt Hj).
  - intros lname idx fd; unfold _detect_attr_fields.
    rewrite in_flat_map; split.
    + intros ([k i] & Hin & Hout).
      destruct (String.eqb_spec k "geometry") as [->|Hne]; [contradiction|].
      destruct (get k FIELD_DEFS) as [fd0|] eqn:G; [|contradiction].
      destruct Hout as [E|[]]; inversion E; subst; auto.
    + intros (Hin & Hne & G); exists (lname, idx); split; [exact Hin|].
      destruct (String.eqb_spec lname "geometry") as [E|_];
        [contradiction|].
      rewrite G; left; reflexivity.
Qed.

(** X15.  The stages fit together on the fields.  For the [nodeFormat]
    of a document that [validate_structure] accepts, [find_field_indices]
    maps the seven canonical names to the indices 0 to 6, [geometry] to 4,
    and [_detect_attr_fields] yields the six attribute columns in order;
    after the normaliser has appended [trips_pct], the map has it at index
    7 and the attribute columns are seven. *)
Theorem field_map_of_valid_document (items : list (string * pyval))
    (name : string) (nf : list pyval) :
  dict_get "nodeFormat" items = Some (PyList nf) ->
  validate_structure (PyDict items) name = None ->
  let canonical :=
    [("id", 0%nat); ("parentid", 1%nat); ("trips", 2%nat); ("frc", 3%nat);
     ("geometry", 4%nat); ("processingfailures", 5%nat);
     ("privacytrims", 6%nat)] in
  let columns :=
    [("id", 0%nat, mkFieldDef "id" "N" 10 0);
     ("parentid", 1%nat, mkFieldDef "parentId" "N" 10 0);
     ("trips", 2%nat, mkFieldDef "trips" "N" 10 0);
     ("frc", 3%nat, mkFieldDef "frc" "N" 5 0);
     ("processingfailures", 5%nat, mkFieldDef "procFail" "N" 10 0);
     ("privacytrims", 6%nat, mkFieldDef "privTrims" "N" 10 0)] in
  find_field_indices nf = Some canonical
  /\ get "geometry" canonical = Some 4%nat
  /\ _detect_attr_fields canonical = columns
  /\ find_field_indices (with_trips_pct nf)
     = Some (canonical ++ [("trips_pct", 7%nat)])%list
  /\ _detect_attr_fields (canonical ++ [("trips_pct", 7%nat)])%list
     = (columns
        ++ [("trips_pct", 7%nat, mkFieldDef "trips_pct" "N" 12 4)])%list.
Proof.
  intros F V; cbv zeta.
  apply validate_structure_valid in V
    as (items0 & nf0 & rows & E & F0 & _ & (names & -> & Hn) & _).
  inversion E; subst items0; rewrite F in F0; inversion F0; subst nf.
  unfold EXPECTED_FIELDS in Hn.
  destruct names as [|n0 [|n1 [|n2 [|n3 [|n4 [|n5 [|n6 [|n7 rest]]]]]]]];
    try discriminate.
  cbn [map] in Hn.
  injection Hn as H0 H1 H2 H3 H4 H5 H6.
  unfold find_field_indices, with_trips_pct.
  cbn [map app index_fields].
  rewrite H0, H1, H2, H3, H4, H5, H6.
  repeat split; reflexivity.
Qed.

End FieldMap.

Lemma field_map_last_index_wins_witness :
  let node_format := map PyStr ["id"; "Trips"; "geometry"; "TRIPS"]%string in
  let field_map :=
    [("id", 0%nat); ("trips", 3%nat); ("geometry", 2%nat)]%string in
  JsonToShapefile.find_field_indices node_format = Some field_map
  /\ NoDup (map fst field_map)
  /\ (forall k idx, In (k, idx) field_map ->
        exists s,
          nth_error node_format idx = Some (PyStr s)
          /\ PyStr.lower s = k
          /\ forall j s', (idx < j)%nat ->
               nth_error node_format j = Some (PyStr s') ->
               PyStr.lower s' <> k)
  /\ (forall j s, nth_error node_format j = Some (PyStr s) ->
        exists idx, In (PyStr.lower s, idx) field_map /\ (j <= idx)%nat)
  /\ (forall lname idx fd,
        In (lname, idx, fd) (JsonToShapefile._detect_attr_fields field_map)
        <->
        In (lname, idx) field_map /\ lname <> "geometry"%string
        /\ JsonToShapefile.get lname JsonToShapefile.FIELD_DEFS = Some fd).
Proof.
  cbv zeta; split; [reflexivity|].
  exact (field_map_last_index_wins
           (map PyStr ["id"; "Trips"; "geometry"; "TRIPS"]%string)
           [("id", 0%nat); ("trips", 3%nat); ("geometry", 2%nat)]%string
           eq_refl).
Defined.

Lemma field_map_of_valid_document_witness :
  let items := Example3.items in
  let nf := Example3.fields in
  let canonical :=
    [("id", 0%nat); ("parentid", 1%nat); ("trips", 2%nat); ("frc", 3%nat);
     ("geometry", 4%nat); ("processingfailures", 5%nat);
     ("privacytrims", 6%nat)]%string in
  let columns :=
    [("id", 0%nat, JsonToShapefile.mkFieldDef "id" "N" 10 0);
     ("parentid", 1%nat, JsonToShapefile.mkFieldDef "parentId" "N" 10 0);
     ("trips", 2%nat, JsonToShapefile.mkFieldDef "trips" "N" 10 0);
     ("frc", 3%nat, JsonToShapefile.mkFieldDef "frc" "N" 5 0);
     ("processingfailures", 5%nat,
      JsonToShapefile.mkFieldDef "procFail" "N" 10 0);
     ("privacytrims", 6%nat,
      JsonToShapefile.mkFieldDef "privTrims" "N" 10 0)]%string in
  dict_get "nodeFormat" items = Some (PyList nf)
  /\ validate_structure (PyDict items) "a.json" = None
  /\ JsonToShapefile.find_field_indices nf = Some canonical
  /\ JsonToShapefile.get "geometry" canonical = Some 4%nat
  /\ JsonToShapefile._detect_attr_fields canonical = columns
  /\ JsonToShapefile.find_field_indices (with_trips_pct nf)
     = Some (canonical ++ [("trips_pct"%string, 7%nat)])
  /\ JsonToShapefile._detect_attr_fields
       (canonical ++ [("trips_pct"%string, 7%nat)])
     = columns
       ++ [("trips_pct"%string, 7%nat,
            JsonToShapefile.mkFieldDef "trips_pct" "N" 12 4)].
Proof.
  cbv zeta; split; [reflexivity|]; split; [reflexivity|].
  exact (field_map_of_valid_document Example3.items "a.json" Example3.fields
           eq_refl eq_refl).
Defined.

(* ================================================================== *)
(** * What [main] prints *)
(* ================================================================== *)

Section Report.

Local Open Scope Z_scope.

Variable json_load : list byte -> json_result.
Variable sha256 : list byte -> string.

(** The counter lines at the head of a report. *)
Lemma print_if_nonzero_counter (mk : Z -> line) (n : Z) :
  (forall z, is_counter_line (mk z) = true) ->
  forallb is_counter_line (print_if_nonzero mk n) = true.
Proof.
  intros H; unfold print_if_nonzero.
  destruct (n =? 0); simpl; [reflexivity | now rewrite H].
Qed.

(** A report is its counter lines, then the errors under their header,
    then the warnings under theirs, then the closing line of a clean
    run. *)
Lemma print_report_parts (r : run) :
  exists counts,
    forallb is_counter_line counts = true
    /\ print_report r
       = counts
         ++ (if is_empty (errors r) then []
             else ErrorsHeader (List.length (errors r))
                  :: map ErrorLine (errors r))
         ++ (if is_empty (warnings r) then []
             else WarningsHeader (List.length (warnings r))
                  :: map WarningLine (warnings r))
         ++ (if is_empty (errors r) && is_empty (warnings r)
             then [AllChecksPassed] else []).
Proof.
  exists ([FilesScanned (total_files (stats r)); Valid (valid_files (stats r))]
          ++ print_if_nonzero BadPatternCount (bad_pattern (stats r))
          ++ print_if_nonzero BadJsonCount (bad_json (stats r))
          ++ print_if_nonzero BadStructureCount (bad_structure (stats r))
          ++ print_if_nonzero HashDupesCount (hash_dupes (stats r))
          ++ print_if_nonzero SlotClashesCount (slot_collisions (stats r))
          ++ print_if_nonzero OrphansCount (orphans (stats r))
          ++ print_if_nonzero DeletedCount (orphans_deleted (stats r))).
  split.
  - rewrite !forallb_app, !print_if_nonzero_counter by reflexivity.
    reflexivity.
  - unfold print_report; cbv zeta; rewrite <- !app_assoc; reflexivity.
Qed.

Lemma counter_lines_quiet (counts : list line) :
  forallb is_counter_line counts = true ->
  printed_errors counts = [] /\ printed_warnings counts = []
  /\ forall l, In l counts -> is_counter_line l = true.
Proof.
  intros H; rewrite forallb_forall in H.
  unfold printed_errors, printed_warnings.
  repeat split; auto.
  - induction counts as [|l counts IH]; [reflexivity|]; simpl.
    rewrite IH by (intros; apply H; now right).
    assert (C := H l (or_introl eq_refl)); destruct l; try discriminate;
      reflexivity.
  - induction counts as [|l counts IH]; [reflexivity|]; simpl.
    rewrite IH by (intros; apply H; now right).
    assert (C := H l (or_introl eq_refl)); destruct l; try discriminate;
      reflexivity.
Qed.

(** A block of the report: nothing for an empty list, else a header with
    the number of messages and one line for each. *)
Lemma block_In (ms : list message) (hd : nat -> line) (mk : message -> line)
    (l : line) :
  In l (if is_empty ms then [] else hd (List.length ms) :: map mk ms) <->
  ms <> [] /\ (l = hd (List.length ms) \/ exists m, In m ms /\ l = mk m).
Proof.
  destruct ms as [|m0 ms]; cbn [is_empty].
  - split; [intros [] | intros [F _]; now destruct F].
  - split.
    + intros [H|H]; (split; [discriminate|]); [left; now symmetry|].
      apply in_map_iff in H as (m & <- & Hm); right; eauto.
    + intros [_ [->|(m & Hm & ->)]]; [left; reflexivity|].
      right; now apply in_map.
Qed.

Lemma closing_In (es ws : list message) (l : line) :
  In l (if is_empty es && is_empty ws then [AllChecksPassed] else []) <->
  es = [] /\ ws = [] /\ l = AllChecksPassed.
Proof.
  destruct es, ws; simpl; split; try tauto;
    try (intros (F1 & F2 & _); discriminate).
  - intros [<-|[]]; auto.
  - intros (_ & _ & ->); auto.
Qed.

Lemma error_block_printed (ms : list message) :
  printed_errors (if is_empty ms then []
                  else ErrorsHeader (List.length ms) :: map ErrorLine ms)
  = ms
  /\ printed_warnings (if is_empty ms then []
                       else ErrorsHeader (List.length ms)
                            :: map ErrorLine ms)
     = [].
Proof.
  unfold printed_errors, printed_warnings.
  destruct ms as [|m0 ms]; cbn [is_empty]; [auto|].
  cbn [flat_map app].
  generalize (m0 :: ms); intros l.
  induction l as [|m l [IH1 IH2]]; simpl; [auto|].
  now rewrite IH1, IH2.
Qed.

Lemma warning_block_printed (ms : list message) :
  printed_warnings (if is_empty ms then []
                    else WarningsHeader (List.length ms)
                         :: map WarningLine ms)
  = ms
  /\ printed_errors (if is_empty ms then []
                     else WarningsHeader (List.length ms)
                          :: map WarningLine ms)
     = [].
Proof.
  unfold printed_errors, printed_warnings.
  destruct ms as [|m0 ms]; cbn [is_empty]; [auto|].
  cbn [flat_map app].
  generalize (m0 :: ms); intros l.
  induction l as [|m l [IH1 IH2]]; simpl; [auto|].
  now rewrite IH1, IH2.
Qed.

Lemma closing_printed (es ws : list message) :
  printed_errors (if is_empty es && is_empty ws
                  then [AllChecksPassed] else []) = []
  /\ printed_warnings (if is_empty es && is_empty ws
                       then [AllChecksPassed] else []) = [].
Proof. destruct (is_empty es && is_empty ws); auto. Qed.

Lemma main_ran (a : args) (p : process) (r : run) :
  main json_load sha256 a = Ok p -> ran p = Some r ->
  validate_raw json_load sha256 (raw_dir a) (output_dir a)
    (delete_orphans a) = Ok r
  /\ stdout p = print_report r /\ stderr p = []
  /\ exit_code p
     = (if negb (is_empty (errors r)) then 1
        else if negb (is_empty (warnings r)) && strict a then 1 else 0).
Proof.
  unfold main.
  destruct (on_disk (raw_dir a)); [|intros H; inversion H; discriminate].
  destruct (validate_raw _ _ _ _ _) as [r0|e s]; [|discriminate].
  intros H R; inversion H; subst p; simpl in R; inversion R; subst r0.
  auto.
Qed.

(** X16.  When [main] has run the validation, its standard output tells
    the whole result: the error lines are the errors of the run, each once
    and in order, under a header with their number, and so for the
    warnings; the headers appear only over a non-empty list; the closing
    line [All checks passed] appears exactly when there is neither an
    error nor a warning, and then the exit code is 0; every other line is
    a counter line; nothing goes to standard error. *)
Theorem report_prints_the_run (a : args) (p : process) (r : run) :
  main json_load sha256 a = Ok p ->
  ran p = Some r ->
  printed_errors (stdout p) = errors r
  /\ printed_warnings (stdout p) = warnings r
  /\ (forall n, In (ErrorsHeader n) (stdout p) <->
                errors r <> [] /\ n = List.length (errors r))
  /\ (forall n, In (WarningsHeader n) (stdout p) <->
                warnings r <> [] /\ n = List.length (warnings r))
  /\ (In AllChecksPassed (stdout p) <-> errors r = [] /\ warnings r = [])
  /\ (In AllChecksPassed (stdout p) -> exit_code p = 0)
  /\ (forall l, In l (stdout p) ->
        is_counter_line l = true
        \/ (exists n, l = ErrorsHeader n) \/ (exists m, l = ErrorLine m)
        \/ (exists n, l = WarningsHeader n) \/ (exists m, l = WarningLine m)
        \/ l = AllChecksPassed)
  /\ stderr p = [].
Proof.
  intros H R.
  destruct (main_ran _ _ _ H R) as (_ & -> & -> & ->).
  destruct (print_report_parts r) as (counts & Hc & ->).
  destruct (counter_lines_quiet _ Hc) as (Ce & Cw & NE).
  assert (Hin : forall l,
            In l (counts
                  ++ (if is_empty (errors r) then []
                      else ErrorsHeader (List.length (errors r))
                           :: map ErrorLine (errors r))
                  ++ (if is_empty (warnings r) then []
                      else WarningsHeader (List.length (warnings r))
                           :: map WarningLine (warnings r))
                  ++ (if is_empty (errors r) && is_empty (warnings r)
                      then [AllChecksPassed] else []))
            <-> In l counts
                \/ (errors r <> []
                    /\ (l = ErrorsHeader (List.length (errors r))
                        \/ exists m, In m (errors r) /\ l = ErrorLine m))
                \/ (warnings r <> []
                    /\ (l = WarningsHeader (List.length (warnings r))
                        \/ exists m, In m (warnings r) /\ l = WarningLine m))
                \/ (errors r = [] /\ warnings r = []
                    /\ l = AllChecksPassed)).
  { intros l.
    now rewrite !in_app_iff, (block_In (errors r) ErrorsHeader ErrorLine),
      (block_In (warnings r) WarningsHeader WarningLine), closing_In. }
  split.
  { unfold printed_errors in *; rewrite !flat_map_app, Ce.
    fold printed_errors.
    rewrite (proj1 (error_block_printed _)),
      (proj2 (warning_block_printed _)), (proj1 (closing_printed _ _)).
    now rewrite !app_nil_r. }
  split.
  { unfold printed_warnings in *; rewrite !flat_map_app, Cw.
    fold printed_warnings.
    rewrite (proj2 (error_block_printed _)),
      (proj1 (warning_block_printed _)), (proj2 (closing_printed _ _)).
    now rewrite !app_nil_r. }
  split.
  { intros n; rewrite Hin; split.
    - intros [C|[(Hne & [E|(m & _ & E)])
                |[(Hne & [E|(m & _ & E)])|(_ & _ & E)]]];
        try discriminate; [apply NE in C; discriminate|].
      inversion E; auto.
    - intros [Hne ->]; right; left; auto. }
  split.
  { intros n; rewrite Hin; split.
    - intros [C|[(Hne & [E|(m & _ & E)])
                |[(Hne & [E|(m & _ & E)])|(_ & _ & E)]]];
        try discriminate; [apply NE in C; discriminate|].
      inversion E; auto.
    - intros [Hne ->]; right; right; left; auto. }
  assert (Hclean : In AllChecksPassed
                     (counts
                      ++ (if is_empty (errors r) then []
                          else ErrorsHeader (List.length (errors r))
                               :: map ErrorLine (errors r))
                      ++ (if is_empty (warnings r) then []
                          else WarningsHeader (List.length (warnings r))
                               :: map WarningLine (warnings r))
                      ++ (if is_empty (errors r) && is_empty (warnings r)
                          then [AllChecksPassed] else []))
                   <-> errors r = [] /\ warnings r = []).
  { rewrite Hin; split.
    - intros [C|[(Hne & [E|(m & _ & E)])
                |[(Hne & [E|(m & _ & E)])|(E1 & E2 & _)]]];
        try discriminate; [apply NE in C; discriminate | auto].
    - intros [E1 E2]; right; right; right; auto. }
  split; [exact Hclean|].
  split.
  { intros C; apply Hclean in C as [-> ->]; reflexivity. }
  split; [|reflexivity].
  intros l Hl; apply Hin in Hl
    as [C|[(_ & [->|(m & _ & ->)])|[(_ & [->|(m & _ & ->)])|(_ & _ & ->)]]];
    eauto 8.
Qed.

(** X17.  [--strict] changes the exit code and nothing else: with the
    flag and without it [main] fails alike (the same exception, the same
    state left behind) or returns alike, with the same output and the
    same run; the exit code with the flag is never the
    smaller one, and the two differ exactly when the run has warnings and
    no errors. *)
Theorem strict_changes_only_exit_code (a : args) :
  (forall p,
     main json_load sha256 (with_strict false a) = Ok p ->
     exists p',
       main json_load sha256 (with_strict true a) = Ok p'
       /\ stdout p' = stdout p /\ stderr p' = stderr p /\ ran p' = ran p
       /\ exit_code p <= exit_code p'
       /\ (exit_code p' <> exit_code p <->
           exists r, ran p = Some r /\ errors r = [] /\ warnings r <> []))
  /\ (forall e s,
        main json_load sha256 (with_strict false a) = Raise e s <->
        main json_load sha256 (with_strict true a) = Raise e s).
Proof.
  unfold main, with_strict; cbn [raw_dir output_dir delete_orphans strict].
  destruct (on_disk (raw_dir a)).
  - destruct (validate_raw _ _ _ _ _) as [r|e0 s0].
    + split; [|intros e s; split; discriminate].
      intros p H; inversion H; subst p; clear H.
      eexists; split; [reflexivity|]; cbn [stdout stderr ran exit_code].
      do 3 (split; [reflexivity|]).
      rewrite andb_false_r, andb_true_r.
      destruct (errors r) as [|m ms] eqn:Er;
        destruct (warnings r) as [|w ws] eqn:Wr;
        cbn [is_empty negb]; (split; [lia|]); split.
      all: try (intros F; exfalso; apply F; reflexivity).
      all: try (intros (r0 & E & E1 & E2); inversion E; subst r0;
                congruence).
      intros _; exists r; split; [reflexivity|].
      split; [exact Er | rewrite Wr; discriminate].
    + split; [discriminate | tauto].
  - split; [|intros e s; split; discriminate].
    intros p H; inversion H; subst p; clear H.
    eexists; split; [reflexivity|]; cbn [stdout stderr ran exit_code].
    do 3 (split; [reflexivity|]).
    split; [lia|].
    split; [intros F; now destruct F | intros (r & F & _); discriminate].
Qed.

(** X18.  A raw directory without [*.json] files, even a non-empty one:
    [validate_raw] returns at once with one warning and all counters zero;
    it reads no file, does not list the output directory and deletes
    nothing there, whatever [delete_orphans] says.  [main] prints the two
    counters and the warning, and since the warning counts, it exits with 1
    under [--strict] and with 0 otherwise. *)
Theorem no_json_files (a : args) (d : directory) :
  on_disk (raw_dir a) = Some d ->
  glob_json d = [] ->
  let w := NoFilesFound (path_str (raw_dir a)) in
  let r := mkRun [] [w] zero_counters
             (out_disk (initial_run (output_dir a)))
             [ListDir RawDir []; Append Warning w] in
  validate_raw json_load sha256 (raw_dir a) (output_dir a)
    (delete_orphans a) = Ok r
  /\ main json_load sha256 a
     = Ok (mkProcess (if strict a then 1 else 0)
             [FilesScanned 0; Valid 0; WarningsHeader 1; WarningLine w]
             [] (Some r)).
Proof.
  intros D G; cbv zeta.
  assert (V : validate_raw json_load sha256 (raw_dir a) (output_dir a)
                (delete_orphans a)
              = Ok (mkRun [] [NoFilesFound (path_str (raw_dir a))]
                      zero_counters (out_disk (initial_run (output_dir a)))
                      [ListDir RawDir [];
                       Append Warning (NoFilesFound (path_str (raw_dir a)))])).
  { unfold validate_raw, raw_entries; rewrite D, G; reflexivity. }
  split; [exact V|].
  unfold main; rewrite D, V; cbn [errors warnings is_empty negb andb].
  destruct (strict a); reflexivity.
Qed.

End Report.

Lemma report_prints_the_run_witness :
  let a := Example.strict_args in
  let p := Example.strict_process in
  let r := Example2.run_of p in
  main Example.json_load Example.sha256 a = Ok p
  /\ ran p = Some r
  /\ printed_errors (stdout p) = errors r
  /\ printed_warnings (stdout p) = warnings r
  /\ (forall n, In (ErrorsHeader n) (stdout p) <->
                errors r <> [] /\ n = List.length (errors r))
  /\ (forall n, In (WarningsHeader n) (stdout p) <->
                warnings r <> [] /\ n = List.length (warnings r))
  /\ (In AllChecksPassed (stdout p) <-> errors r = [] /\ warnings r = [])
  /\ (In AllChecksPassed (stdout p) -> exit_code p = 0%Z)
  /\ (forall l, In l (stdout p) ->
        is_counter_line l = true
        \/ (exists n, l = ErrorsHeader n) \/ (exists m, l = ErrorLine m)
        \/ (exists n, l = WarningsHeader n) \/ (exists m, l = WarningLine m)
        \/ l = AllChecksPassed)
  /\ stderr p = [].
Proof.
  cbv zeta; split; [reflexivity|]; split; [reflexivity|].
  exact (report_prints_the_run Example.json_load Example.sha256
           Example.strict_args Example.strict_process
           (Example2.run_of Example.strict_process) eq_refl eq_refl).
Defined.

Lemma no_json_files_witness :
  let a := mkArgs (Example.raw_at Example2.no_json)
             (Some (Example.output_at Example.produced)) true true in
  let d := Example2.no_json in
  let w := NoFilesFound (path_str (raw_dir a)) in
  let r := mkRun [] [w] zero_counters
             (out_disk (initial_run (output_dir a)))
             [ListDir RawDir []; Append Warning w] in
  on_disk (raw_dir a) = Some d
  /\ glob_json d = []
  /\ validate_raw Example.json_load Example.sha256 (raw_dir a)
       (output_dir a) (delete_orphans a) = Ok r
  /\ main Example.json_load Example.sha256 a
     = Ok (mkProcess (if strict a then 1 else 0)%Z
             [FilesScanned 0; Valid 0; WarningsHeader 1; WarningLine w]
             [] (Some r)).
Proof.
  cbv zeta; split; [reflexivity|]; split; [reflexivity|].
  exact (no_json_files Example.json_load Example.sha256
           (mkArgs (Example.raw_at Example2.no_json)
              (Some (Example.output_at Example.produced)) true true)
           Example2.no_json eq_refl eq_refl).
Defined.

(* ================================================================== *)
(** * The order of the listings does not matter *)
(* ================================================================== *)

Section Sorting.

Local Open Scope string_scope.

Lemma ascii_compare_refl (a : ascii) : Ascii.compare a a = Eq.
Proof. apply N.compare_refl. Qed.

Lemma ascii_compare_lt_trans (a b c : ascii) :
  Ascii.compare a b = Lt -> Ascii.compare b c = Lt ->
  Ascii.compare a c = Lt.
Proof.
  unfold Ascii.compare; rewrite !N.compare_lt_iff; apply N.lt_trans.
Qed.

Lemma compare_le_trans (a : string) :
  forall b c : string,
  String.compare a b <> Gt -> String.compare b c <> Gt ->
  String.compare a c <> Gt.
Proof.
  induction a as [|x a IH]; intros [|y b] [|z c]; simpl;
    try congruence.
  destruct (Ascii.compare x y) eqn:E1; destruct (Ascii.compare y z) eqn:E2;
    try congruence.
  - apply Ascii.compare_eq_iff in E1, E2; subst y z.
    rewrite ascii_compare_refl; apply IH.
  - apply Ascii.compare_eq_iff in E1; subst y; rewrite E2; congruence.
  - apply Ascii.compare_eq_iff in E2; subst z; rewrite E1; congruence.
  - rewrite (ascii_compare_lt_trans _ _ _ E1 E2); congruence.
Qed.

Lemma leb_trans (a b c : string) :
  (a <=? b) = true -> (b <=? c) = true -> (a <=? c) = true.
Proof.
  unfold String.leb; intros H1 H2.
  assert (H := compare_le_trans a b c).
  destruct (String.compare a b); try discriminate;
    destruct (String.compare b c); try discriminate;
    destruct (String.compare a c); try reflexivity;
    exfalso; apply H; congruence.
Qed.

Lemma insert_sorted_In (n m : string) (l : list string) :
  In m (insert_sorted n l) <-> m = n \/ In m l.
Proof.
  split.
  - intros H; apply (Permutation_in _ (insert_sorted_perm n l)) in H.
    destruct H; auto.
  - intros H; apply (Permutation_in _ (Permutation_sym
                                         (insert_sorted_perm n l))).
    destruct H; [left; auto | right; auto].
Qed.

Lemma insert_sorted_ordered (n : string) (l : list string) :
  ordered l -> ordered (insert_sorted n l).
Proof.
  induction l as [|m l IH]; simpl; [intros _; split; [intros b []|exact I]|].
  intros [Hm Hl].
  destruct (n <=? m) eqn:E; simpl.
  - split; [|split; auto].
    intros b [<-|Hb]; [exact E|].
    apply (leb_trans n m b E), Hm, Hb.
  - split; [|apply IH, Hl].
    intros b Hb; apply insert_sorted_In in Hb as [->|Hb]; [|apply Hm, Hb].
    destruct (String.leb_total n m) as [F|F]; [congruence | exact F].
Qed.

Lemma sorted_ordered (l : list string) : ordered (sorted l).
Proof.
  induction l as [|n l IH]; simpl; [exact I|].
  apply insert_sorted_ordered, IH.
Qed.

Lemma ordered_unique (l : list string) :
  forall l' : list string,
  ordered l -> ordered l' -> Permutation l l' -> l = l'.
Proof.
  induction l as [|a l IH]; intros l' O O' P.
  - now apply Permutation_nil in P.
  - destruct l' as [|b l'];
      [apply Permutation_sym, Permutation_nil in P; discriminate|].
    destruct O as [Ha Ol], O' as [Hb Ol'].
    assert (E : a = b).
    { assert (Ia : In a (b :: l'))
        by (apply (Permutation_in _ P); left; reflexivity).
      assert (Ib : In b (a :: l))
        by (apply (Permutation_in _ (Permutation_sym P)); left; reflexivity).
      destruct Ia as [<-|Ia]; [reflexivity|].
      destruct Ib as [->|Ib]; [reflexivity|].
      apply String.leb_antisym; auto. }
    subst b; f_equal.
    apply IH; auto.
    now apply Permutation_cons_inv in P.
Qed.

(** [sorted] gives one result for all orders of the same names. *)
Lemma sorted_canonical (l l' : list string) :
  Permutation l l' -> sorted l = sorted l'.
Proof.
  intros P; apply ordered_unique; try apply sorted_ordered.
  eapply Permutation_trans; [apply sorted_perm|].
  eapply Permutation_trans; [exact P|].
  apply Permutation_sym, sorted_perm.
Qed.

Lemma lookup_In (n : string) (node : fs_node) (d : directory) :
  NoDup (map fst d) -> (In (n, node) d <-> lookup n d = Some node).
Proof.
  induction d as [|[k v] d IH]; simpl; intros ND.
  - split; [tauto | discriminate].
  - inversion ND as [|? ? Hk Hd]; subst.
    destruct (String.eqb_spec k n) as [->|Hne].
    + split.
      * intros [H|H]; [now inversion H|].
        exfalso; apply Hk; apply in_map_iff; exists (n, node); auto.
      * intros H; inversion H; auto.
    + rewrite <- (IH Hd); split; [|tauto].
      intros [H|H]; [inversion H; contradiction | exact H].
Qed.

Lemma lookup_None (n : string) (d : directory) :
  lookup n d = None <-> ~ In n (map fst d).
Proof.
  induction d as [|[k v] d IH]; simpl; [tauto|].
  destruct (String.eqb_spec k n) as [->|Hne].
  - split; [discriminate | intros H; exfalso; auto].
  - rewrite IH; tauto.
Qed.

(** Two listings of one directory have the same node under every name. *)
Lemma lookup_reordered (d d' : directory) (n : string) :
  Permutation d d' -> NoDup (map fst d) -> lookup n d = lookup n d'.
Proof.
  intros P ND.
  assert (ND' : NoDup (map fst d'))
    by (apply (Permutation_NoDup (Permutation_map fst P) ND)).
  destruct (lookup n d) as [node|] eqn:L.
  - symmetry; apply lookup_In; [exact ND'|].
    apply (Permutation_in _ P), lookup_In; auto.
  - symmetry; apply lookup_None; apply lookup_None in L.
    intros H; apply L.
    apply (Permutation_in _ (Permutation_sym (Permutation_map fst P))), H.
Qed.

Lemma glob_json_reordered (d d' : directory) :
  Permutation d d' -> NoDup (map fst d) ->
  sorted (glob_json d) = sorted (glob_json d').
Proof.
  intros P ND; apply sorted_canonical.
  assert (ND' : NoDup (map fst d'))
    by (apply (Permutation_NoDup (Permutation_map fst P) ND)).
  apply NoDup_Permutation; try now apply glob_json_NoDup.
  intros n; rewrite !glob_json_In.
  split; intros [H E]; split; auto.
  - apply (Permutation_in _ (Permutation_map fst P)), H.
  - apply (Permutation_in _ (Permutation_sym (Permutation_map fst P))), H.
Qed.

End Sorting.

Section OrderOfListing.

Variable json_load : list byte -> json_result.
Variable sha256 : list byte -> string.

Lemma open_load_ext (raw raw' : directory) (fp : string) :
  (forall n, lookup n raw = lookup n raw') ->
  open_load json_load raw fp = open_load json_load raw' fp.
Proof. intros H; unfold open_load; now rewrite H. Qed.

Lemma check_file_ext (raw raw' : directory) (fp : string)
    (acc : pass1_state) :
  (forall n, lookup n raw = lookup n raw') ->
  check_file json_load raw fp acc = check_file json_load raw' fp acc.
Proof.
  intros H; unfold check_file; destruct acc as [[st valid] pn].
  now rewrite (open_load_ext raw raw' fp H).
Qed.

Lemma pass1_ext (raw raw' : directory) (files : list string) :
  (forall n, lookup n raw = lookup n raw') ->
  forall acc : pass1_state,
  pass1 json_load raw files acc = pass1 json_load raw' files acc.
Proof.
  intros H; induction files as [|fp rest IH]; intros acc; cbn [pass1];
    [reflexivity|].
  rewrite (check_file_ext raw raw' fp acc H).
  destruct (check_file json_load raw' fp acc); auto.
Qed.

Lemma hash_files_ext (raw raw' : directory) (valid : list string) :
  (forall n, lookup n raw = lookup n raw') ->
  forall acc,
  hash_files sha256 raw valid acc = hash_files sha256 raw' valid acc.
Proof.
  intros H; induction valid as [|fp rest IH]; intros [st hashes];
    cbn [hash_files]; [reflexivity|].
  unfold file_hash; rewrite H.
  destruct (lookup fp raw') as [[data|]|]; auto.
Qed.

(** The run reads the raw directory through its sorted listing and
    through the files under the listed names, and through nothing else. *)
Lemma validate_raw_raw_ext (raw_dir raw_dir' : dirpath)
    (output_dir : option dirpath) (delete_orphans : bool) :
  reordered raw_dir raw_dir' ->
  scanned raw_dir = scanned raw_dir'
  /\ (forall n, lookup n (raw_entries raw_dir)
                = lookup n (raw_entries raw_dir'))
  /\ validate_raw json_load sha256 raw_dir output_dir delete_orphans
     = validate_raw json_load sha256 raw_dir' output_dir delete_orphans.
Proof.
  intros (Hs & _ & _ & Hd).
  assert (Sc : scanned raw_dir = scanned raw_dir').
  { unfold scanned, raw_entries.
    destruct (on_disk raw_dir) as [d|], (on_disk raw_dir') as [d'|];
      try contradiction; [|reflexivity].
    destruct Hd; now apply glob_json_reordered. }
  assert (Lk : forall n, lookup n (raw_entries raw_dir)
                         = lookup n (raw_entries raw_dir')).
  { intros n; unfold raw_entries.
    destruct (on_disk raw_dir) as [d|], (on_disk raw_dir') as [d'|];
      try contradiction; [|reflexivity].
    destruct Hd; now apply lookup_reordered. }
  split; [exact Sc|]; split; [exact Lk|].
  unfold validate_raw.
  fold (scanned raw_dir); fold (scanned raw_dir').
  rewrite <- Sc, <- Hs.
  destruct (scanned raw_dir) as [|f fs]; [reflexivity|].
  rewrite (pass1_ext _ _ _ Lk).
  destruct (pass1 _ _ _ _) as [[[st valid] pn]|e s]; [|reflexivity].
  unfold content_hash_pass.
  now rewrite (hash_files_ext _ _ _ Lk).
Qed.

(** What the orphan pass sees of the output directory. *)
Lemma out_listing_reordered (output_dir output_dir' : option dirpath) :
  reordered_opt output_dir output_dir' ->
  out_locked output_dir = out_locked output_dir'
  /\ match out_listing output_dir, out_listing output_dir' with
     | Some (dn, d), Some (dn', d') =>
         dn = dn' /\ Permutation d d' /\ NoDup (map fst d)
     | None, None => True
     | _, _ => False
     end.
Proof.
  unfold reordered_opt, reordered, out_listing, out_locked.
  destruct output_dir as [p|], output_dir' as [p'|]; try tauto.
  intros (_ & Hn & Hl & Hd).
  destruct (on_disk p) as [d|], (on_disk p') as [d'|]; tauto.
Qed.

(** The report of the expected run depends on the output directory
    through its sorted listing only. *)
Lemma expected_run_out_ext (raw_dir : dirpath)
    (output_dir output_dir' : option dirpath) (delete_orphans : bool)
    (dn : string) (d d' : directory) :
  out_listing output_dir = Some (dn, d) ->
  out_listing output_dir' = Some (dn, d') ->
  sorted (glob_json d) = sorted (glob_json d') ->
  (forall n, lookup n d = lookup n d') ->
  let r := expected_run json_load sha256 raw_dir output_dir
             delete_orphans in
  let r' := expected_run json_load sha256 raw_dir output_dir'
              delete_orphans in
  errors r' = errors r /\ warnings r' = warnings r /\ stats r' = stats r
  /\ trace r' = trace r /\ same_files (out_disk r) (out_disk r').
Proof.
  intros L L' E Lk; cbv zeta.
  assert (Eo : orphan_set raw_dir output_dir'
               = orphan_set raw_dir output_dir)
    by (unfold orphan_set; now rewrite L, L', E).
  destruct (scanned raw_dir) as [|f fs] eqn:Sc.
  - rewrite !expected_run_empty by exact Sc.
    cbn [errors warnings stats trace out_disk].
    repeat (split; [reflexivity|]).
    rewrite !out_listing_disk, L, L'; exact Lk.
  - assert (Hne : scanned raw_dir <> []) by (rewrite Sc; discriminate).
    split; [now rewrite !expected_errors|].
    split.
    { rewrite !expected_warnings by exact Hne.
      unfold out_name; now rewrite L, L', Eo. }
    split.
    { unfold expected_run, after_orphans, log, before_orphans.
      rewrite Sc, L, L', Eo; reflexivity. }
    split.
    { rewrite !expected_trace by exact Hne.
      now rewrite L, L', Eo, E. }
    rewrite !expected_out_disk by exact Hne.
    rewrite L, L', Eo; simpl.
    intros n; destruct delete_orphans; [|apply Lk].
    now rewrite !lookup_remove_all, Lk.
Qed.

(** X19.  Sorting the two listings makes the run independent of the
    order in which the operating system lists the directories.  If a call
    of [validate_raw] returns, then the call over the same raw and output
    directories listed in any other order returns too, with the same
    errors, the same warnings, the same counters and the same sequence of
    reads, reports and deletions, and it leaves the same files in the
    output directory. *)
Theorem listing_order_is_irrelevant (raw_dir raw_dir' : dirpath)
    (output_dir output_dir' : option dirpath) (delete_orphans : bool)
    (r : run) :
  reordered raw_dir raw_dir' ->
  reordered_opt output_dir output_dir' ->
  validate_raw json_load sha256 raw_dir output_dir delete_orphans = Ok r ->
  exists r',
    validate_raw json_load sha256 raw_dir' output_dir' delete_orphans
    = Ok r'
    /\ errors r' = errors r /\ warnings r' = warnings r
    /\ stats r' = stats r /\ trace r' = trace r
    /\ same_files (out_disk r) (out_disk r').
Proof.
  intros Hraw Hout H.
  destruct (validate_raw_raw_ext raw_dir raw_dir' output_dir'
              delete_orphans Hraw) as (_ & _ & <-).
  clear Hraw raw_dir'.
  assert (X := validate_raw_expected _ _ _ _ _ _ H).
  destruct X as [Er NC].
  apply out_listing_reordered in Hout as [Hlock Hout].
  destruct (out_listing output_dir) as [[dn d]|] eqn:L;
    destruct (out_listing output_dir') as [[dn' d']|] eqn:L';
    try contradiction.
  - destruct Hout as (<- & P & ND).
    assert (ND' : NoDup (map fst d'))
      by (apply (Permutation_NoDup (Permutation_map fst P) ND)).
    assert (E := glob_json_reordered d d' P ND).
    assert (Lk : forall n, lookup n d = lookup n d')
      by (intros n; now apply lookup_reordered).
    assert (R : validate_raw json_load sha256 raw_dir output_dir'
                  delete_orphans
                = Ok (expected_run json_load sha256 raw_dir output_dir'
                        delete_orphans)).
    { destruct (scanned raw_dir) as [|f fs] eqn:Sc.
      { assert (R : exists r', validate_raw json_load sha256 raw_dir
                                 output_dir' delete_orphans = Ok r')
          by (unfold validate_raw; fold (scanned raw_dir); rewrite Sc;
              eauto).
        destruct R as (r' & R); rewrite R.
        now apply validate_raw_expected in R as [-> _]. }
      assert (Hne : scanned raw_dir <> []) by (rewrite Sc; discriminate).
      rewrite <- Sc in NC.
      destruct delete_orphans; [|apply validate_raw_returns; auto].
      assert (L2 := L'); unfold out_listing in L2.
      destruct output_dir' as [od'|]; [|discriminate].
      destruct (on_disk od') as [d0|] eqn:D'; [|discriminate].
      inversion L2; subst d0 dn.
      apply (validate_raw_returns_deleting _ _ _ _ d' NC D' ND').
      intros n Hn.
      assert (Hn' : In n (orphan_set raw_dir output_dir))
        by (unfold orphan_set in *; rewrite L; rewrite L' in Hn;
            now rewrite E).
      destruct (deleted_orphans_were_files _ _ _ _ _ _ _ _ H Hne L ND Hn')
        as ((data & Hd) & Hfree).
      split; [exists data; now rewrite <- Lk|].
      rewrite Hlock in Hfree; exact Hfree. }
    eexists; split; [exact R|].
    rewrite Er.
    exact (expected_run_out_ext raw_dir output_dir output_dir'
             delete_orphans dn d d' L L' E Lk).
  - exists r; split.
    + rewrite Er.
      rewrite (expected_run_skip _ _ _ _ _ L),
        <- (expected_run_skip _ _ _ output_dir' _ L').
      apply validate_raw_returns; auto.
    + repeat (split; [reflexivity|]).
      unfold same_files; destruct (out_disk r); auto.
Qed.

End OrderOfListing.

Lemma listing_order_is_irrelevant_witness :
  let raw_dir := Example.raw_at Example.mixed in
  let raw_dir' := Example.raw_at Example2.mixed_reordered in
  let output_dir := Some (Example.output_at Example.produced) in
  let output_dir' := Some (Example.output_at Example2.produced_reordered) in
  let r := Example.run_mixed in
  reordered raw_dir raw_dir'
  /\ reordered_opt output_dir output_dir'
  /\ validate_raw Example.json_load Example.sha256 raw_dir output_dir true
     = Ok r
  /\ exists r',
       validate_raw Example.json_load Example.sha256 raw_dir' output_dir'
         true = Ok r'
       /\ errors r' = errors r /\ warnings r' = warnings r
       /\ stats r' = stats r /\ trace r' = trace r
       /\ same_files (out_disk r) (out_disk r').
Proof.
  cbv zeta.
  assert (R1 : reordered (Example.raw_at Example.mixed)
                 (Example.raw_at Example2.mixed_reordered)).
  { split; [reflexivity|]; split; [reflexivity|].
    split; [reflexivity|]; split.
    - exact (Permutation_rev Example.mixed).
    - distinct_names. }
  assert (R2 : reordered_opt (Some (Example.output_at Example.produced))
                 (Some (Example.output_at Example2.produced_reordered))).
  { split; [reflexivity|]; split; [reflexivity|].
    split; [reflexivity|]; split.
    - exact (Permutation_rev Example.produced).
    - distinct_names. }
  split; [exact R1|]; split; [exact R2|]; split; [reflexivity|].
  exact (listing_order_is_irrelevant Example.json_load Example.sha256
           (Example.raw_at Example.mixed)
           (Example.raw_at Example2.mixed_reordered)
           (Some (Example.output_at Example.produced))
           (Some (Example.output_at Example2.produced_reordered))
           true Example.run_mixed R1 R2 eq_refl).
Defined.
